(** * ai-ocr-server: the slip-parsing endpoint, embedded in Rocq

    The repository holds two Express programs that serve [POST /parse-slip]:
    the instrumented server (request ids, timings, token cost, logging) and
    the minimal worker [server.js].  Both forward a base64 image to a hosted
    model, clean the textual reply, locate a JSON object in it and answer
    with the extracted fields.

    The embedding follows the JavaScript text: strings are sequences of
    UTF-16 code units, numbers are IEEE-754 binary64 values, objects are
    property lists, exceptions are a sum type, and the handlers thread an
    explicit world (clock, random source, log, model endpoint). *)

From Stdlib Require Import String Ascii.
From Stdlib Require Import List Arith ZArith NArith Lia Bool.
From Stdlib Require Import Floats.SpecFloat.
From Equations.Prop Require Import Equations.
Import ListNotations.

Set Implicit Arguments.
Local Open Scope list_scope.

(* ===================================================================== *)
(** * JavaScript strings                                                  *)
(* ===================================================================== *)

Module JsString.

(** A JavaScript string is a finite sequence of 16-bit code units. *)
Definition code_unit := N.
Definition t := list code_unit.

(** ASCII literals of the source text, as code units. *)
Definition lit (s : string) : t :=
  map N_of_ascii (list_ascii_of_string s).
Arguments lit s%_string.

Fixpoint eqb (a b : t) : bool :=
  match a, b with
  | [], [] => true
  | x :: a', y :: b' => N.eqb x y && eqb a' b'
  | _, _ => false
  end.

(** [strip_prefix p s] is [Some rest] when [s = p ++ rest]. *)
Fixpoint strip_prefix (p s : t) : option t :=
  match p, s with
  | [], _ => Some s
  | _ :: _, [] => None
  | a :: p', b :: s' => if N.eqb a b then strip_prefix p' s' else None
  end.

Definition starts_with (p s : t) : bool :=
  match strip_prefix p s with Some _ => true | None => false end.

(** [s.replace(/p/g, r)] for a pattern [p] that is a literal: scan from
    the left; at a match emit [r] and resume right after the match,
    otherwise copy one code unit and advance.  (An empty pattern matches
    before every code unit and at the end.) *)
Equations? replace_all (p r s : t) : t by wf (length s) lt :=
  replace_all [] r [] := r;
  replace_all (_ :: _) r [] := [];
  replace_all [] r (c :: s') := r ++ c :: replace_all [] r s';
  replace_all (a :: p') r (c :: s') :=
    if starts_with (a :: p') (c :: s')
    then r ++ replace_all (a :: p') r (skipn (length p') s')
    else c :: replace_all (a :: p') r s'.
Proof.
  rewrite length_skipn. lia.
Qed.

(** White space and line terminators removed by [String.prototype.trim]. *)
Definition is_white_space (c : code_unit) : bool :=
  (N.eqb c 9 || N.eqb c 10 || N.eqb c 11 || N.eqb c 12 || N.eqb c 13
   || N.eqb c 32 || N.eqb c 160 || N.eqb c 5760
   || (N.leb 8192 c && N.leb c 8202)
   || N.eqb c 8232 || N.eqb c 8233 || N.eqb c 8239 || N.eqb c 8287
   || N.eqb c 12288 || N.eqb c 65279)%bool.

Fixpoint trim_start (s : t) : t :=
  match s with
  | [] => []
  | c :: s' => if is_white_space c then trim_start s' else s
  end.

Definition trim_end (s : t) : t := rev (trim_start (rev s)).

Definition trim (s : t) : t := trim_end (trim_start s).

(** [indexOf] and [lastIndexOf] of one code unit, and [slice]. *)
Fixpoint index_of (c : code_unit) (s : t) : option nat :=
  match s with
  | [] => None
  | x :: s' =>
      if N.eqb x c then Some 0
      else match index_of c s' with Some i => Some (S i) | None => None end
  end.

Fixpoint last_index_of (c : code_unit) (s : t) : option nat :=
  match s with
  | [] => None
  | x :: s' =>
      match last_index_of c s' with
      | Some j => Some (S j)
      | None => if N.eqb x c then Some 0 else None
      end
  end.

Definition slice (s : t) (i j : nat) : t := firstn (j - i) (skipn i s).

(** [occurs p s]: the literal [p] occurs somewhere in [s]. *)
Definition occurs (p s : t) : Prop := exists a b, s = a ++ p ++ b.

Definition TICK : code_unit := 96%N.

(** The number of backticks at the head of a text. *)
Fixpoint leading_ticks (s : t) : nat :=
  match s with
  | c :: s' => if N.eqb c TICK then S (leading_ticks s') else 0
  | [] => 0
  end.

(** A text between double quotes. *)
Definition quoted (s : t) : t := 34%N :: s ++ [34%N].

End JsString.

(* ===================================================================== *)
(** * Regular expressions of the source                                   *)
(* ===================================================================== *)

Module Regex.
Import JsString.

Definition LBRACE : code_unit := 123%N.
Definition RBRACE : code_unit := 125%N.

(** The class [[\s\S]]: white space, or anything that is not. *)
Definition class_s (c : code_unit) : bool := is_white_space c.
Definition class_S (c : code_unit) : bool := negb (is_white_space c).
Definition class_sS (c : code_unit) : bool := class_s c || class_S c.

(** The tail [[\s\S]*\}] matched at the head of [s], as a backtracking
    matcher runs it: the greedy star first takes one more code unit and
    tries the rest; only when that fails does it stop and look for the
    closing brace here.  The result is the matched prefix. *)
Fixpoint star_sS_rbrace (s : t) : option t :=
  match s with
  | [] => None
  | c :: s' =>
      match (if class_sS c then star_sS_rbrace s' else None) with
      | Some m => Some (c :: m)
      | None => if N.eqb c RBRACE then Some [c] else None
      end
  end.

(** [/\{[\s\S]*\}/] anchored at the head of [s]. *)
Definition brace_object_at (s : t) : option t :=
  match s with
  | [] => None
  | c :: s' =>
      if N.eqb c LBRACE
      then match star_sS_rbrace s' with
           | Some m => Some (c :: m)
           | None => None
           end
      else None
  end.

(** [s.match(/\{[\s\S]*\}/)]: the matcher is tried at each start index
    from the left; the result is [match[0]] of the first success, [None]
    for [null]. *)
Fixpoint match_brace_object (s : t) : option t :=
  match brace_object_at s with
  | Some m => Some m
  | None =>
      match s with
      | [] => None
      | _ :: s' => match_brace_object s'
      end
  end.

End Regex.

(* ===================================================================== *)
(** * JavaScript numbers: IEEE-754 binary64                               *)
(* ===================================================================== *)

Module JsNumber.

Definition prec : Z := 53.
Definition emax : Z := 1024.

Definition number := spec_float.

Definition NaN : number := S754_nan.
Definition pos_zero : number := S754_zero false.
Definition neg_zero : number := S754_zero true.
Definition pos_infinity : number := S754_infinity false.
Definition neg_infinity : number := S754_infinity true.

(** The Number nearest to an integer (exact below 2^53). *)
Definition of_Z (z : Z) : number := binary_normalize prec emax z 0 false.

Definition add : number -> number -> number := SFadd prec emax.
Definition sub : number -> number -> number := SFsub prec emax.
Definition mul : number -> number -> number := SFmul prec emax.
Definition div : number -> number -> number := SFdiv prec emax.

Definition ltb : number -> number -> bool := SFltb.
Definition leb : number -> number -> bool := SFleb.

Definition is_nan (x : number) : bool :=
  match x with S754_nan => true | _ => false end.

Definition is_zero (x : number) : bool :=
  match x with S754_zero _ => true | _ => false end.

Definition is_pos_zero (x : number) : bool :=
  match x with S754_zero false => true | _ => false end.

Definition is_neg_zero (x : number) : bool :=
  match x with S754_zero true => true | _ => false end.

(** [Math.max]: start from -Infinity; a NaN argument gives NaN; +0 beats
    -0; otherwise a strictly greater argument replaces the current one. *)
Definition max_step (highest : option number) (x : number) : option number :=
  match highest with
  | None => None
  | Some h =>
      if is_nan x then None
      else if is_pos_zero x && is_neg_zero h then Some x
      else if ltb h x then Some x
      else Some h
  end.

Definition Math_max (args : list number) : number :=
  match fold_left max_step args (Some neg_infinity) with
  | Some h => h
  | None => NaN
  end.

(** [Math.min]: dual, starting from +Infinity, with -0 below +0. *)
Definition min_step (lowest : option number) (x : number) : option number :=
  match lowest with
  | None => None
  | Some l =>
      if is_nan x then None
      else if is_neg_zero x && is_pos_zero l then Some x
      else if ltb x l then Some x
      else Some l
  end.

Definition Math_min (args : list number) : number :=
  match fold_left min_step args (Some pos_infinity) with
  | Some l => l
  | None => NaN
  end.

(** The binary64 representation of 100. *)
Definition hundred : number := S754_finite false 7036874417766400 (-46).

(** A shift register that has lost no bit. *)
Definition exact (m : Z) : shr_record :=
  {| shr_m := m; shr_r := false; shr_s := false |}.

(** The Number that holds [n / 2^j] for a positive integer [n] of at most
    53 bits: the mantissa is [n] shifted up to 53 bits. *)
Definition canon (n : positive) (j : Z) : number :=
  S754_finite false
    (Z.to_pos (Zpos n * 2 ^ (53 - Zpos (digits2_pos n))))
    (Zpos (digits2_pos n) - 53 - j).

(** The mantissa of a power of two. *)
Definition two52 : positive := 4503599627370496.

(** The Number nearest to [p/q] (round to nearest, ties to even): the
    quotient is computed with enough bits, then rounded once. *)
Definition round_ratio (s : bool) (p q : positive) : number :=
  let '(mz, ez, lz) := SFdiv_core_binary prec emax (Zpos p) 0 (Zpos q) 0 in
  binary_round_aux prec emax s mz ez lz.

(** The numeric literal with digits [m] and [k] digits after the point,
    e.g. [0.00015] is [decimal 15 5]. *)
Definition decimal (m : positive) (k : nat) : number :=
  round_ratio false m (10 ^ Pos.of_nat k).

(** [Math.round]: the nearest integer, ties towards +Infinity; a result
    of zero keeps the sign of the argument. *)
Definition Math_round (x : number) : number :=
  match x with
  | S754_finite s m e =>
      if (0 <=? e)%Z then x
      else
        let k := (- e)%Z in
        let z := ((cond_Zopp s (2 * Zpos m) + 2 ^ k) / 2 ^ (k + 1))%Z in
        if (z =? 0)%Z then S754_zero s else of_Z z
  | _ => x
  end.

(** ** Decimal text *)

Definition digit_char (d : N) : JsString.code_unit := (48 + d)%N.

Fixpoint decimal_digits_fuel (fuel : nat) (n : N) (acc : JsString.t)
  : JsString.t :=
  match fuel with
  | O => acc
  | S f =>
      let acc' := digit_char (n mod 10) :: acc in
      if (n / 10 =? 0)%N then acc'
      else decimal_digits_fuel f (n / 10) acc'
  end.

(** The decimal digits of [n], most significant first; "0" for zero. *)
Definition decimal_digits (n : N) : JsString.t :=
  decimal_digits_fuel (S (N.to_nat (N.log2 n))) n [].

(** Steps 10.b and 10.c of [Number.prototype.toFixed]: the digits of
    [n], padded on the left with zeros to [f + 1] digits, with a point
    before the last [f]. *)
Definition fixed_digits (f : nat) (n : N) : JsString.t :=
  let m := decimal_digits n in
  if (f =? 0)%nat then m
  else
    let m := if (length m <=? f)%nat
             then repeat 48%N (f + 1 - length m) ++ m else m in
    let k := length m in
    firstn (k - f) m ++ 46%N :: skipn (k - f) m.

(** The integer [n] for which [n / 10^f - m * 2^e] is closest to zero, the
    larger one of two. *)
Definition nearest_scaled (f : nat) (m : positive) (e : Z) : N :=
  let y := (Zpos m * 10 ^ Z.of_nat f)%Z in
  if (0 <=? e)%Z then Z.to_N (y * 2 ^ e)
  else Z.to_N ((2 * y + 2 ^ (- e)) / 2 ^ (- e + 1)).

(** [10^21 <= m * 2^e]. *)
Definition at_least_1e21 (m : positive) (e : Z) : bool :=
  if (0 <=? e)%Z then (10 ^ 21 <=? Zpos m * 2 ^ e)%Z
  else (10 ^ 21 * 2 ^ (- e) <=? Zpos m)%Z.


(** What [x.toFixed(f)] returns: text built here, or, from 10^21 on, the
    text [Number::toString(x)], which is kept as the number it denotes. *)
Inductive fixed_text :=
| Text (s : JsString.t)
| ToStringOf (x : number).

Definition toFixed (f : nat) (x : number) : fixed_text :=
  match x with
  | S754_nan => Text (JsString.lit "NaN")
  | S754_infinity false => Text (JsString.lit "Infinity")
  | S754_infinity true => Text (JsString.lit "-Infinity")
  | S754_zero _ => Text (fixed_digits f 0)
  | S754_finite s m e =>
      if at_least_1e21 m e then ToStringOf x
      else Text ((if s then [45%N] else []) ++
                 fixed_digits f (nearest_scaled f m e))
  end.

Definition digit_value (c : JsString.code_unit) : option N :=
  if (48 <=? c)%N && (c <=? 57)%N then Some (c - 48)%N else None.

Definition is_digit (c : JsString.code_unit) : bool :=
  ((48 <=? c) && (c <=? 57))%N.

Definition digits_step (acc : N) (c : JsString.code_unit) : N :=
  (acc * 10 + (c - 48))%N.

(** The number that a text of digits denotes. *)
Definition digits_value (ds : JsString.t) : N := fold_left digits_step ds 0%N.

(** Reads the longest run of digits at the head of [s], continuing the
    integer [acc]; returns the integer, the number of digits read and the
    rest of the text. *)
Fixpoint take_digits (s : JsString.t) (acc : N) (count : nat)
  : N * nat * JsString.t :=
  match s with
  | [] => (acc, count, [])
  | c :: s' =>
      match digit_value c with
      | Some d => take_digits s' (acc * 10 + d)%N (S count)
      | None => (acc, count, s)
      end
  end.

(** The exponent part [e|E, sign, digits] if the text starts with one. *)
Definition take_exponent (s : JsString.t) : Z :=
  match s with
  | c :: s1 =>
      if (c =? 101)%N || (c =? 69)%N then
        let '(neg, s2) :=
          match s1 with
          | 45%N :: s' => (true, s')
          | 43%N :: s' => (false, s')
          | _ => (false, s1)
          end in
        let '(v, n, _) := take_digits s2 0 0 in
        match n with
        | O => 0%Z
        | S _ => cond_Zopp neg (Z.of_N v)
        end
      else 0%Z
  | [] => 0%Z
  end.

(** The unsigned part of a decimal literal at the head of [s], with the
    sign read before it: Infinity, or digits with an optional fraction and
    an optional exponent.  The value is rounded to the nearest Number. *)
Definition parse_unsigned (neg : bool) (s : JsString.t) : number :=
  if JsString.starts_with (JsString.lit "Infinity") s
  then S754_infinity neg
  else
    let '(ip, ic, s1) := take_digits s 0 0 in
    let '(fp, fc, s2) :=
      match s1 with
      | 46%N :: s' => take_digits s' ip 0
      | _ => (ip, O, s1)
      end in
    if (ic + fc =? 0)%nat then NaN
    else
      let e10 := (take_exponent s2 - Z.of_nat fc)%Z in
      match fp with
      | N0 => S754_zero neg
      | Npos d =>
          if (0 <=? e10)%Z
          then round_ratio neg (d * Z.to_pos (10 ^ e10)) 1
          else round_ratio neg d (Z.to_pos (10 ^ (- e10)))
      end.

(** [parseFloat]: skip leading white space, read the sign and the longest
    prefix that is a decimal literal. *)
Definition parseFloat (s : JsString.t) : number :=
  match JsString.trim_start s with
  | 45%N :: s' => parse_unsigned true s'
  | 43%N :: s' => parse_unsigned false s'
  | s' => parse_unsigned false s'
  end.

(** [parseFloat(x.toFixed(f))]; from 10^21 on the text is
    [Number::toString(x)], which reads back as [x]. *)
Definition parseFloat_toFixed (f : nat) (x : number) : number :=
  match toFixed f x with
  | Text s => parseFloat s
  | ToStringOf x' => x'
  end.

End JsNumber.

(* ===================================================================== *)
(** * JavaScript values, exceptions, property access                     *)
(* ===================================================================== *)

Module Js.
Import JsString JsNumber.

#[local] Unset Elimination Schemes.
Inductive value : Type :=
| VUndefined
| VNull
| VBool (b : bool)
| VNumber (x : number)
| VString (s : JsString.t)
| VArray (items : list value)
| VObject (props : list (JsString.t * value)).
#[local] Set Elimination Schemes.

(** Exceptions that the modelled code can raise or observe. *)
Inductive exn : Type :=
| JsError (message : JsString.t)      (* new Error(message) *)
| JsSyntaxError                       (* thrown by JSON.parse *)
| JsTypeError                         (* property access on null/undefined,
                                         call of a non-function *)
| UpstreamError (message : JsString.t). (* rejection of the model call *)

Inductive result (A : Type) : Type :=
| Ok (a : A)
| Throw (e : exn).
Arguments Ok {A} a.
Arguments Throw {A} e.

Definition bind {A B} (m : result A) (k : A -> result B) : result B :=
  match m with
  | Ok a => k a
  | Throw e => Throw e
  end.

(** ToBoolean. *)
Definition truthy (v : value) : bool :=
  match v with
  | VUndefined | VNull => false
  | VBool b => b
  | VNumber x => negb (is_zero x || is_nan x)
  | VString s => match s with [] => false | _ :: _ => true end
  | VArray _ | VObject _ => true
  end.

(** [a || b] on values. *)
Definition or_else (a b : value) : value := if truthy a then a else b.

Fixpoint lookup (props : list (JsString.t * value)) (k : JsString.t)
  : value :=
  match props with
  | [] => VUndefined
  | (k', v) :: rest => if JsString.eqb k' k then v else lookup rest k
  end.

Definition has_key (props : list (JsString.t * value)) (k : JsString.t)
  : bool :=
  existsb (fun kv => JsString.eqb (fst kv) k) props.

(** [v.k] (and [const {k} = v]) for a data key [k] that no built-in
    prototype defines: the keys the source reads are [base64Image],
    [transactionId], [toAccountNumber], [confidenceScore] and [rawText].
    Reading a property of [null] or [undefined] throws a TypeError; an
    object yields its own property or [undefined]; arrays and primitives
    have no such property. *)
Definition get (v : value) (k : JsString.t) : result value :=
  match v with
  | VUndefined | VNull => Throw JsTypeError
  | VObject props => Ok (lookup props k)
  | VBool _ | VNumber _ | VString _ | VArray _ => Ok VUndefined
  end.

(** Whether an object carries the key [k]. *)
Definition has_field (v : value) (k : JsString.t) : bool :=
  match v with
  | VObject props => has_key props k
  | _ => false
  end.

(** The value under [k] in an object, [undefined] when there is none. *)
Definition field (v : value) (k : JsString.t) : value :=
  match v with
  | VObject props => lookup props k
  | _ => VUndefined
  end.

End Js.

(* ===================================================================== *)
(** * A JSON.parse                                                        *)
(* ===================================================================== *)

(** The programs call the engine's [JSON.parse]; the handlers below take it
    from their environment.  This module is one such parser, following the
    JSON grammar of ECMA-404, used to run the programs on concrete replies. *)
Module Json.
Import JsString JsNumber Js.

Definition is_json_space (c : code_unit) : bool :=
  ((c =? 9) || (c =? 10) || (c =? 13) || (c =? 32))%N.

Fixpoint skip_ws (s : JsString.t) : JsString.t :=
  match s with
  | c :: s' => if is_json_space c then skip_ws s' else s
  | [] => []
  end.

Definition hex_value (c : code_unit) : option N :=
  if (48 <=? c)%N && (c <=? 57)%N then Some (c - 48)%N
  else if (97 <=? c)%N && (c <=? 102)%N then Some (c - 87)%N
  else if (65 <=? c)%N && (c <=? 70)%N then Some (c - 55)%N
  else None.

Definition escape_value (c : code_unit) : option code_unit :=
  if (c =? 34)%N then Some 34%N            (* quote *)
  else if (c =? 92)%N then Some 92%N       (* backslash *)
  else if (c =? 47)%N then Some 47%N       (* slash *)
  else if (c =? 98)%N then Some 8%N        (* b *)
  else if (c =? 102)%N then Some 12%N      (* f *)
  else if (c =? 110)%N then Some 10%N      (* n *)
  else if (c =? 114)%N then Some 13%N      (* r *)
  else if (c =? 116)%N then Some 9%N       (* t *)
  else None.

(** The characters of a string after its opening quote, up to the
    closing quote; [acc] holds what was read, last first. *)
Fixpoint string_chars (s acc : JsString.t) : option (JsString.t * JsString.t) :=
  match s with
  | [] => None
  | c :: rest =>
      if (c =? 34)%N then Some (rev acc, rest)
      else if (c =? 92)%N then
        match rest with
        | e :: rest1 =>
            if (e =? 117)%N then
              match rest1 with
              | h1 :: h2 :: h3 :: h4 :: rest2 =>
                  match hex_value h1, hex_value h2, hex_value h3, hex_value h4 with
                  | Some a, Some b, Some c', Some d =>
                      string_chars rest2
                        ((((a * 16 + b) * 16 + c') * 16 + d)%N :: acc)
                  | _, _, _, _ => None
                  end
              | _ => None
              end
            else
              match escape_value e with
              | Some u => string_chars rest1 (u :: acc)
              | None => None
              end
        | [] => None
        end
      else if (c <? 32)%N then None
      else string_chars rest (c :: acc)
  end.

(** A JSON number at the head of [s]. *)
Definition parse_number (s : JsString.t) : option (number * JsString.t) :=
  let '(neg, s0) :=
    match s with
    | 45%N :: s' => (true, s')
    | _ => (false, s)
    end in
  let '(ip, ic, s1) := take_digits s0 0 0 in
  let leading_zero :=
    match s0 with
    | c :: _ => (c =? 48)%N && (1 <? ic)%nat
    | [] => false
    end in
  if (ic =? 0)%nat || leading_zero then None
  else
    let frac :=
      match s1 with
      | c :: s' =>
          if (c =? 46)%N then
            let '(fp, fc, s2) := take_digits s' ip 0 in
            match fc with O => None | S _ => Some (fp, fc, s2) end
          else Some (ip, O, s1)
      | [] => Some (ip, O, s1)
      end in
    match frac with
    | None => None
    | Some (fp, fc, s2) =>
        let expo :=
          match s2 with
          | c :: s3 =>
              if (c =? 101)%N || (c =? 69)%N then
                let '(eneg, s4) :=
                  match s3 with
                  | 45%N :: s' => (true, s')
                  | 43%N :: s' => (false, s')
                  | _ => (false, s3)
                  end in
                let '(v, n, s5) := take_digits s4 0 0 in
                match n with
                | O => None
                | S _ => Some (cond_Zopp eneg (Z.of_N v), s5)
                end
              else Some (0%Z, s2)
          | [] => Some (0%Z, s2)
          end in
        match expo with
        | None => None
        | Some (ex, rest) =>
            let e10 := (ex - Z.of_nat fc)%Z in
            Some (match fp with
                  | N0 => S754_zero neg
                  | Npos d =>
                      if (0 <=? e10)%Z
                      then round_ratio neg (d * Z.to_pos (10 ^ e10)) 1
                      else round_ratio neg d (Z.to_pos (10 ^ (- e10)))
                  end, rest)
        end
    end.

(** A property key that is an array index: the decimal digits, without a
    leading zero, of an integer below 2^32 - 1. *)
Definition array_index (k : JsString.t) : option N :=
  match k with
  | [] => None
  | c :: rest =>
      if forallb is_digit k
         && (negb (c =? 48)%N
             || match rest with [] => true | _ :: _ => false end)
         && (digits_value k <? 4294967295)%N
      then Some (digits_value k)
      else None
  end.

(** The order of the keys of an object: the array indices first, in
    ascending order, then the other keys as they were created. *)
Definition goes_before (k k' : JsString.t) : bool :=
  match array_index k, array_index k' with
  | Some n, Some n' => (n <? n')%N
  | Some _, None => true
  | None, _ => false
  end.

(** Defining a property: an existing key keeps its place and takes the
    new value; a new key goes to its place among the array indices, or
    last. *)
Fixpoint set_prop (props : list (JsString.t * value)) (k : JsString.t)
    (v : value) : list (JsString.t * value) :=
  match props with
  | [] => [(k, v)]
  | (k', v') :: rest =>
      if JsString.eqb k' k then (k', v) :: rest
      else if goes_before k k' then (k, v) :: props
      else (k', v') :: set_prop rest k v
  end.

Definition parse_literal (s : JsString.t) : option (value * JsString.t) :=
  match strip_prefix (lit "true") s with
  | Some rest => Some (VBool true, rest)
  | None =>
  match strip_prefix (lit "false") s with
  | Some rest => Some (VBool false, rest)
  | None =>
  match strip_prefix (lit "null") s with
  | Some rest => Some (VNull, rest)
  | None =>
  match parse_number s with
  | Some (x, rest) => Some (VNumber x, rest)
  | None => None
  end end end end.

(** Values, array elements and object members; [fuel] bounds the depth
    of the descent. *)
Fixpoint parse_value (fuel : nat) (s : JsString.t)
  : option (value * JsString.t) :=
  match fuel with
  | O => None
  | S fuel' =>
      match skip_ws s with
      | [] => None
      | c :: rest =>
          if (c =? 123)%N then
            match skip_ws rest with
            | c2 :: rest2 =>
                if (c2 =? 125)%N then Some (VObject [], rest2)
                else parse_members fuel' rest []
            | [] => None
            end
          else if (c =? 91)%N then
            match skip_ws rest with
            | c2 :: rest2 =>
                if (c2 =? 93)%N then Some (VArray [], rest2)
                else parse_elements fuel' rest []
            | [] => None
            end
          else if (c =? 34)%N then
            match string_chars rest [] with
            | Some (str, rest1) => Some (VString str, rest1)
            | None => None
            end
          else parse_literal (c :: rest)
      end
  end
with parse_elements (fuel : nat) (s : JsString.t) (acc : list value)
  : option (value * JsString.t) :=
  match fuel with
  | O => None
  | S fuel' =>
      match parse_value fuel' s with
      | Some (v, rest) =>
          match skip_ws rest with
          | c :: rest' =>
              if (c =? 44)%N then parse_elements fuel' rest' (acc ++ [v])
              else if (c =? 93)%N then Some (VArray (acc ++ [v]), rest')
              else None
          | [] => None
          end
      | None => None
      end
  end
with parse_members (fuel : nat) (s : JsString.t)
    (acc : list (JsString.t * value)) : option (value * JsString.t) :=
  match fuel with
  | O => None
  | S fuel' =>
      match skip_ws s with
      | c :: rest =>
          if (c =? 34)%N then
            match string_chars rest [] with
            | Some (k, rest1) =>
                match skip_ws rest1 with
                | c1 :: rest2 =>
                    if (c1 =? 58)%N then
                      match parse_value fuel' rest2 with
                      | Some (v, rest3) =>
                          match skip_ws rest3 with
                          | c3 :: rest4 =>
                              if (c3 =? 44)%N
                              then parse_members fuel' rest4 (set_prop acc k v)
                              else if (c3 =? 125)%N
                              then Some (VObject (set_prop acc k v), rest4)
                              else None
                          | [] => None
                          end
                      | None => None
                      end
                    else None
                | [] => None
                end
            | None => None
            end
          else None
      | [] => None
      end
  end.

(** [JSON.parse(text)]; [None] is a SyntaxError. *)
Definition parse (text : JsString.t) : option value :=
  match parse_value (2 * length text + 2) text with
  | Some (v, rest) =>
      match skip_ws rest with
      | [] => Some v
      | _ :: _ => None
      end
  | None => None
  end.

End Json.

(* ===================================================================== *)
(** * Parts shared by both programs: the world outside the process        *)
(* ===================================================================== *)

Module World.
Import JsString JsNumber Js.

(** What [openai.responses.create] is called with.  The instruction text
    is a constant of each program and is left out. *)
Record openai_request := {
  req_model : JsString.t;
  req_image_url : value
}.

Record usage := {
  input_tokens : option number;
  output_tokens : option number
}.

(** What the awaited call resolves to: [output_text] and [usage]. *)
Record openai_response := {
  output_text : JsString.t;
  resp_usage : option usage
}.

(** The surroundings of one request: the [k]-th reading of the clock, the
    five characters [Math.random().toString(36).slice(2, 7)], the hosted
    model, and engine built-ins ([JSON.parse]; [None] stands for a thrown
    SyntaxError). *)
Record env := {
  date_now : nat -> Z;
  random_suffix : JsString.t;
  openai_create : openai_request -> result openai_response;
  JSON_parse : JsString.t -> option value
}.

Inductive stream := Stdout | Stderr.

(** A datum of a log entry: a value, or text taken from a caught error
    (its message or its stack). *)
Inductive log_datum :=
| Datum (v : value)
| MessageOf (e : exn)
| StackOf (e : exn).

(** A line written to the console.  A log entry is kept by its parts: the
    stream, the three fields that the logger sets itself, and the data of
    the call, which the logger spreads over these fields when it builds
    the entry. *)
Inductive console_line :=
| LogEntry (out : stream) (timestamp : Z) (level event : JsString.t)
           (data : list (JsString.t * log_datum))
| ConsoleError (label : JsString.t) (error : exn).

Record state := {
  clock_reads : nat;
  console : list console_line;
  model_calls : list openai_request
}.

Definition initial : state :=
  {| clock_reads := 0; console := []; model_calls := [] |}.

(** Handler computations: they read the environment, update the state
    and either produce a value or throw. *)
Definition M (A : Type) : Type := env -> state -> result A * state.

Definition ret {A} (a : A) : M A := fun _ st => (Ok a, st).

Definition mbind {A B} (m : M A) (k : A -> M B) : M B :=
  fun ev st =>
    match m ev st with
    | (Ok a, st') => k a ev st'
    | (Throw e, st') => (Throw e, st')
    end.

Definition lift {A} (r : result A) : M A := fun _ st => (r, st).

(** [try { m } catch (e) { h e }]. *)
Definition try_catch {A} (m : M A) (h : exn -> M A) : M A :=
  fun ev st =>
    match m ev st with
    | (Ok a, st') => (Ok a, st')
    | (Throw e, st') => h e ev st'
    end.

(** [Date.now()]. *)
Definition Date_now : M Z :=
  fun ev st =>
    (Ok (date_now ev (clock_reads st)),
     {| clock_reads := S (clock_reads st);
        console := console st;
        model_calls := model_calls st |}).

Definition write_console (l : console_line) : M unit :=
  fun _ st =>
    (Ok tt,
     {| clock_reads := clock_reads st;
        console := console st ++ [l];
        model_calls := model_calls st |}).

(** [await openai.responses.create(...)]: the call is recorded, then it
    resolves or rejects. *)
Definition await_openai (rq : openai_request) : M openai_response :=
  fun ev st =>
    (openai_create ev rq,
     {| clock_reads := clock_reads st;
        console := console st;
        model_calls := model_calls st ++ [rq] |}).

(** The engine's parser, asked for by the code that runs in [M]. *)
Definition get_JSON_parse : M (JsString.t -> option value) :=
  fun ev st => (Ok (JSON_parse ev), st).

Definition Math_random_suffix : M JsString.t :=
  fun ev st => (Ok (random_suffix ev), st).

(** What [res.status(code).json(body)] sends. *)
Record http_response := {
  status_code : Z;
  body : value
}.

End World.

Declare Scope js_scope.
Delimit Scope js_scope with js.
Notation "x <- m ;; k" := (World.mbind m (fun x => k))
  (at level 61, m at next level, right associativity) : js_scope.
Notation "m ;;; k" := (World.mbind m (fun _ => k))
  (at level 61, right associativity) : js_scope.

Local Open Scope js_scope.

(* ===================================================================== *)
(** * The instrumented server (src/unnamed/part_000)                      *)
(* ===================================================================== *)

Module Instrumented.
Import JsString JsNumber Js Regex World.

(** ** Config *)

Definition MODEL : JsString.t := lit "gpt-4.1-mini".
Definition COST_PER_1K_INPUT_TOKENS : number := decimal 15 5.   (* 0.00015 *)
Definition COST_PER_1K_OUTPUT_TOKENS : number := decimal 6 4.   (* 0.0006 *)

(** ** Logger *)

Definition LogLevel_DEBUG : JsString.t := lit "DEBUG".
Definition LogLevel_INFO : JsString.t := lit "INFO".
Definition LogLevel_WARN : JsString.t := lit "WARN".
Definition LogLevel_ERROR : JsString.t := lit "ERROR".

Definition log (level event : JsString.t)
    (data : list (JsString.t * log_datum)) : M unit :=
  timestamp <- Date_now ;;
  write_console
    (LogEntry
       (if JsString.eqb level LogLevel_ERROR || JsString.eqb level LogLevel_WARN
        then Stderr else Stdout)
       timestamp level event data).

(** ** Helpers *)

Definition is_word_char (c : code_unit) : bool :=
  ((97 <=? c) && (c <=? 122) || (65 <=? c) && (c <=? 90)
   || (48 <=? c) && (c <=? 57) || (c =? 95))%N.

(** The tail [\w*;base64,] of the data-URI pattern at the head of [s], run
    by backtracking, greedy in the word characters.  The result is the
    text after the match. *)
Fixpoint star_w_base64 (s : JsString.t) : option JsString.t :=
  match s with
  | [] => None
  | c :: s' =>
      match (if is_word_char c then star_w_base64 s' else None) with
      | Some rest => Some rest
      | None => strip_prefix (lit ";base64,") s
      end
  end.

(** [/^data:image\/\w+;base64,/] on [s]: the text after the match. *)
Definition match_data_uri_prefix (s : JsString.t) : option JsString.t :=
  match strip_prefix (lit "data:image/") s with
  | Some (c :: s') => if is_word_char c then star_w_base64 s' else None
  | _ => None
  end.

(** [base64String.replace(/^data:image\/\w+;base64,/, "")]. *)
Definition strip_data_uri (s : JsString.t) : JsString.t :=
  match match_data_uri_prefix s with
  | Some rest => rest
  | None => s
  end.

(** Estimate base64 image size in KB.  The argument is whatever the
    request carried; only a string has a [replace] method. *)
Definition estimateImageSizeKB (base64String : value) : result number :=
  match base64String with
  | VString s =>
      let base := strip_data_uri s in
      Ok (Math_round
            (div (div (mul (of_Z (Z.of_nat (length base))) (of_Z 3))
                      (of_Z 4))
                 (of_Z 1024)))
  | _ => Throw JsTypeError
  end.

(** Calculate token cost estimate. *)
Definition calcTokenCost (inputTokens outputTokens : number) : number :=
  let inputCost := mul (div inputTokens (of_Z 1000)) COST_PER_1K_INPUT_TOKENS in
  let outputCost := mul (div outputTokens (of_Z 1000)) COST_PER_1K_OUTPUT_TOKENS in
  parseFloat_toFixed 6 (add inputCost outputCost).

(** Determine processing status from parsed result. *)
Definition deriveStatus (parsed : value) : result JsString.t :=
  bind (get parsed (lit "transactionId")) (fun transactionId =>
  let hasTransaction := truthy transactionId in
  bind (get parsed (lit "toAccountNumber")) (fun toAccountNumber =>
  let hasAccount := truthy toAccountNumber in
  if hasTransaction && hasAccount then Ok (lit "complete")
  else if hasTransaction || hasAccount then Ok (lit "partial")
  else Ok (lit "empty"))).

(** Clean and extract JSON from AI response. *)
Definition extractJSON (JSON_parse : JsString.t -> option value)
    (raw : JsString.t) : result value :=
  let cleaned :=
    trim (replace_all (lit "```") []
            (replace_all (lit "```json") [] raw)) in
  match match_brace_object cleaned with
  | None => Throw (JsError (lit "No JSON object found in AI response"))
  | Some match0 =>
      match JSON_parse match0 with
      | Some v => Ok v
      | None => Throw JsSyntaxError
      end
  end.

(** The confidence score sent back: the parsed score held within 0 and
    100 when [typeof] says it is a number, [null] otherwise. *)
Definition normalize_confidence (score : value) : value :=
  match score with
  | VNumber x => VNumber (Math_min [of_Z 100; Math_max [of_Z 0; x]])
  | _ => VNull
  end.

(** ** Route: POST /parse-slip *)

(** A time value in a template literal: its decimal digits. *)
Definition time_toString (t : Z) : JsString.t :=
  (if (t <? 0)%Z then [45%N] else []) ++ decimal_digits (Z.abs_N t).

(** [a - b] on two clock readings. *)
Definition elapsed (a b : Z) : value := VNumber (sub (of_Z a) (of_Z b)).

Definition error_body (requestId error : JsString.t) (processTimeMs : value)
  : value :=
  VObject [ (lit "requestId", VString requestId);
            (lit "status", VString (lit "error"));
            (lit "error", VString error);
            (lit "processTimeMs", processTimeMs) ].

(** The part of the handler after a reply was parsed. *)
Definition respond_success (requestId : JsString.t) (startTime : Z)
    (imageSizeKB : number) (aiTimeMs : value)
    (response : openai_response) (parsed : value) : M http_response :=
  (* Token and cost tracking *)
  let usage :=
    match resp_usage response with
    | Some u => u
    | None => {| input_tokens := None; output_tokens := None |}
    end in
  let inputTokens :=
    match input_tokens usage with Some n => n | None => of_Z 0 end in
  let outputTokens :=
    match output_tokens usage with Some n => n | None => of_Z 0 end in
  let totalTokens := add inputTokens outputTokens in
  let estimatedCostUSD := calcTokenCost inputTokens outputTokens in
  (* Derived fields *)
  now <- Date_now ;;
  let processTimeMs := elapsed now startTime in
  status <- lift (deriveStatus parsed) ;;
  score <- lift (get parsed (lit "confidenceScore")) ;;
  let confidenceScore := normalize_confidence score in
  transactionId <- lift (get parsed (lit "transactionId")) ;;
  toAccountNumber <- lift (get parsed (lit "toAccountNumber")) ;;
  log LogLevel_INFO (lit "parse_slip.success")
    [ (lit "requestId", Datum (VString requestId));
      (lit "status", Datum (VString status));
      (lit "confidenceScore", Datum confidenceScore);
      (lit "processTimeMs", Datum processTimeMs);
      (lit "aiTimeMs", Datum aiTimeMs);
      (lit "totalTokens", Datum (VNumber totalTokens));
      (lit "estimatedCostUSD", Datum (VNumber estimatedCostUSD));
      (lit "imageSizeKB", Datum (VNumber imageSizeKB));
      (lit "hasTransactionId", Datum (VBool (truthy transactionId)));
      (lit "hasAccountNumber", Datum (VBool (truthy toAccountNumber))) ] ;;;
  (* Response *)
  transactionId <- lift (get parsed (lit "transactionId")) ;;
  toAccountNumber <- lift (get parsed (lit "toAccountNumber")) ;;
  rawText <- lift (get parsed (lit "rawText")) ;;
  ret {| status_code := 200;
         body :=
           VObject
             [ (lit "requestId", VString requestId);
               (lit "status", VString status);
               (lit "data",
                VObject
                  [ (lit "transactionId", or_else transactionId VNull);
                    (lit "toAccountNumber", or_else toAccountNumber VNull);
                    (lit "rawText", or_else rawText VNull) ]);
               (lit "aiScore", confidenceScore);
               (lit "meta",
                VObject
                  [ (lit "processTimeMs", processTimeMs);
                    (lit "aiTimeMs", aiTimeMs);
                    (lit "imageSizeKB", VNumber imageSizeKB);
                    (lit "model", VString MODEL);
                    (lit "tokens",
                     VObject
                       [ (lit "input", VNumber inputTokens);
                         (lit "output", VNumber outputTokens);
                         (lit "total", VNumber totalTokens);
                         (lit "estimatedCostUSD",
                          VNumber estimatedCostUSD) ]) ]) ] |}.

(** The body of the outer [try]. *)
Definition parse_slip_try (requestId : JsString.t) (startTime : Z)
    (req_body : value) : M http_response :=
  base64Image <- lift (get req_body (lit "base64Image")) ;;
  if negb (truthy base64Image) then
    log LogLevel_WARN (lit "parse_slip.missing_image")
      [ (lit "requestId", Datum (VString requestId)) ] ;;;
    now <- Date_now ;;
    ret {| status_code := 400;
           body := error_body requestId (lit "Missing image")
                     (elapsed now startTime) |}
  else
    imageSizeKB <- lift (estimateImageSizeKB base64Image) ;;
    log LogLevel_DEBUG (lit "parse_slip.image_received")
      [ (lit "requestId", Datum (VString requestId));
        (lit "imageSizeKB", Datum (VNumber imageSizeKB)) ] ;;;
    (* AI call *)
    aiStart <- Date_now ;;
    response <- await_openai
                  {| req_model := MODEL; req_image_url := base64Image |} ;;
    now <- Date_now ;;
    let aiTimeMs := elapsed now aiStart in
    log LogLevel_DEBUG (lit "parse_slip.ai_response_received")
      [ (lit "requestId", Datum (VString requestId));
        (lit "aiTimeMs", Datum aiTimeMs);
        (lit "model", Datum (VString MODEL)) ] ;;;
    (* Parse response *)
    let rawOutput := output_text response in
    JSON_parse <- get_JSON_parse ;;
    match extractJSON JSON_parse rawOutput with
    | Throw parseErr =>
        log LogLevel_ERROR (lit "parse_slip.json_parse_failed")
          [ (lit "requestId", Datum (VString requestId));
            (lit "error", MessageOf parseErr);
            (lit "rawOutput", Datum (VString rawOutput)) ] ;;;
        now <- Date_now ;;
        ret {| status_code := 500;
               body := error_body requestId (lit "Invalid AI response format")
                         (elapsed now startTime) |}
    | Ok parsed =>
        respond_success requestId startTime imageSizeKB aiTimeMs
          response parsed
    end.

(** The identifier that a request started in state [st] is given, and
    the clock reading taken as its start. *)
Definition request_id (ev : env) (st : state) : JsString.t :=
  lit "req_" ++ time_toString (date_now ev (clock_reads st)) ++ lit "_"
  ++ random_suffix ev.

Definition start_time (ev : env) (st : state) : Z :=
  date_now ev (S (clock_reads st)).

Definition parse_slip (req_body : value) : M http_response :=
  stamp <- Date_now ;;
  suffix <- Math_random_suffix ;;
  let requestId := lit "req_" ++ time_toString stamp ++ lit "_" ++ suffix in
  startTime <- Date_now ;;
  log LogLevel_INFO (lit "parse_slip.start")
    [ (lit "requestId", Datum (VString requestId)) ] ;;;
  try_catch (parse_slip_try requestId startTime req_body)
    (fun error =>
       now <- Date_now ;;
       let processTimeMs := elapsed now startTime in
       log LogLevel_ERROR (lit "parse_slip.unhandled_error")
         [ (lit "requestId", Datum (VString requestId));
           (lit "error", MessageOf error);
           (lit "stack", StackOf error);
           (lit "processTimeMs", Datum processTimeMs) ] ;;;
       ret {| status_code := 500;
              body := error_body requestId (lit "OCR processing failed")
                        processTimeMs |}).

End Instrumented.

(* ===================================================================== *)
(** * The minimal worker (src/server.js)                                  *)
(* ===================================================================== *)

Module Worker.
Import JsString JsNumber Js Regex World.

Definition simple_error (error : JsString.t) : value :=
  VObject [ (lit "error", VString error) ].

(** [output.replace(...).replace(...).trim()]. *)
Definition clean (output : JsString.t) : JsString.t :=
  trim (replace_all (lit "```") [] (replace_all (lit "```json") [] output)).

(** The body of the [try]. *)
Definition parse_slip_try (req_body : value) : M http_response :=
  base64Image <- lift (get req_body (lit "base64Image")) ;;
  if negb (truthy base64Image) then
    ret {| status_code := 400; body := simple_error (lit "Missing image") |}
  else
    response <- await_openai
                  {| req_model := lit "gpt-4.1-mini";
                     req_image_url := base64Image |} ;;
    let output := output_text response in
    let cleaned := clean output in
    let jsonMatch := match_brace_object cleaned in
    match jsonMatch with
    | None =>
        ret {| status_code := 500;
               body := simple_error (lit "Invalid AI response") |}
    | Some match0 =>
        JSON_parse <- get_JSON_parse ;;
        parsed <- lift (match JSON_parse match0 with
                        | Some v => Ok v
                        | None => Throw JsSyntaxError
                        end) ;;
        transactionId <- lift (get parsed (lit "transactionId")) ;;
        toAccountNumber <- lift (get parsed (lit "toAccountNumber")) ;;
        rawText <- lift (get parsed (lit "rawText")) ;;
        ret {| status_code := 200;
               body :=
                 VObject
                   [ (lit "transactionId", or_else transactionId VNull);
                     (lit "toAccountNumber", or_else toAccountNumber VNull);
                     (lit "text", or_else rawText VNull) ] |}
    end.

Definition parse_slip (req_body : value) : M http_response :=
  try_catch (parse_slip_try req_body)
    (fun error =>
       write_console (ConsoleError (lit "OCR Worker error:") error) ;;;
       ret {| status_code := 500;
              body := simple_error (lit "OCR processing failed") |}).

End Worker.

(* ===================================================================== *)
(** * The extraction algorithm in the words of the specification          *)
(* ===================================================================== *)

Module Reference.
Import JsString Js Regex.

Definition fence_json : JsString.t := lit "```json".
Definition fence : JsString.t := lit "```".

(** Deleting every occurrence of the marker [p], found from the left:
    [skip] counts the code units of a marker that are still to be dropped. *)
Fixpoint remove_from (p : JsString.t) (skip : nat) (s : JsString.t)
  : JsString.t :=
  match s with
  | [] => []
  | c :: s' =>
      match skip with
      | S k => remove_from p k s'
      | O =>
          if starts_with p s then remove_from p (length p - 1) s'
          else c :: remove_from p 0 s'
      end
  end.

Definition remove_all (p s : JsString.t) : JsString.t := remove_from p 0 s.

(** Step 1: remove every opening fence tagged json, then every bare
    fence, wherever they stand. *)
Definition remove_fences (raw : JsString.t) : JsString.t :=
  remove_all fence (remove_all fence_json raw).

(** Step 3: the substring from the first opening brace to the last
    closing brace, when the latter comes after the former. *)
Definition outer_braces (cleaned : JsString.t) : option JsString.t :=
  match index_of LBRACE cleaned, last_index_of RBRACE cleaned with
  | Some i, Some j =>
      if (i <? j)%nat then Some (slice cleaned i (S j)) else None
  | _, _ => None
  end.

(** Some substring of [s] starts at an opening brace and ends at a later
    closing brace. *)
Definition has_brace_pair (s : JsString.t) : Prop :=
  exists a mid b, s = a ++ LBRACE :: mid ++ RBRACE :: b.

(** Steps 1 to 5. *)
Definition extract (JSON_parse : JsString.t -> option value)
    (raw : JsString.t) : result value :=
  let cleaned := trim (remove_fences raw) in
  match outer_braces cleaned with
  | None => Throw (JsError (lit "No JSON object found in AI response"))
  | Some sub =>
      match JSON_parse sub with
      | Some v => Ok v
      | None => Throw JsSyntaxError
      end
  end.

End Reference.

(* ===================================================================== *)
(** * How a request can end                                               *)
(* ===================================================================== *)

Module Outcome.
Import JsString JsNumber Js Regex World.

(** ** Instrumented server *)

(** Answered 400: the image was missing and the model was not called. *)
Definition rejected (ev : env) (st : state) (req : value)
    (resp : http_response) (st' : state) : Prop :=
  status_code resp = 400%Z /\
  (exists v, get req (lit "base64Image") = Ok v /\ truthy v = false) /\
  (exists now,
      body resp = Instrumented.error_body (Instrumented.request_id ev st)
                    (lit "Missing image")
                    (Instrumented.elapsed now (Instrumented.start_time ev st))) /\
  model_calls st' = model_calls st.

(** Answered 500. *)
Definition failed (ev : env) (st : state) (resp : http_response) : Prop :=
  status_code resp = 500%Z /\
  exists error now,
    body resp = Instrumented.error_body (Instrumented.request_id ev st) error
                  (Instrumented.elapsed now (Instrumented.start_time ev st)).

(** Answered 200, from a reply of the model that was parsed. *)
Definition succeeded (ev : env) (st : state) (req : value)
    (resp : http_response) : Prop :=
  status_code resp = 200%Z /\
  exists image reply parsed transactionId toAccountNumber rawText score,
    get req (lit "base64Image") = Ok image /\ truthy image = true /\
    openai_create ev {| req_model := Instrumented.MODEL;
                        req_image_url := image |} = Ok reply /\
    Instrumented.extractJSON (JSON_parse ev) (output_text reply)
      = Ok parsed /\
    get parsed (lit "transactionId") = Ok transactionId /\
    get parsed (lit "toAccountNumber") = Ok toAccountNumber /\
    get parsed (lit "rawText") = Ok rawText /\
    get parsed (lit "confidenceScore") = Ok score /\
    field (body resp) (lit "requestId")
      = VString (Instrumented.request_id ev st) /\
    field (body resp) (lit "data") =
      VObject [ (lit "transactionId", or_else transactionId VNull);
                (lit "toAccountNumber", or_else toAccountNumber VNull);
                (lit "rawText", or_else rawText VNull) ] /\
    field (body resp) (lit "aiScore")
      = Instrumented.normalize_confidence score /\
    exists status,
      Instrumented.deriveStatus parsed = Ok status /\
      field (body resp) (lit "status") = VString status.

(** ** Minimal worker *)

Definition worker_rejected (req : value) (st : state)
    (resp : http_response) (st' : state) : Prop :=
  status_code resp = 400%Z /\
  (exists v, get req (lit "base64Image") = Ok v /\ truthy v = false) /\
  body resp = Worker.simple_error (lit "Missing image") /\
  model_calls st' = model_calls st.

Definition worker_failed (resp : http_response) : Prop :=
  status_code resp = 500%Z /\
  exists error, body resp = Worker.simple_error error.

Definition worker_succeeded (ev : env) (req : value)
    (resp : http_response) : Prop :=
  status_code resp = 200%Z /\
  exists image reply match0 parsed transactionId toAccountNumber rawText,
    get req (lit "base64Image") = Ok image /\ truthy image = true /\
    openai_create ev {| req_model := lit "gpt-4.1-mini";
                        req_image_url := image |} = Ok reply /\
    match_brace_object (Worker.clean (output_text reply)) = Some match0 /\
    JSON_parse ev match0 = Some parsed /\
    get parsed (lit "transactionId") = Ok transactionId /\
    get parsed (lit "toAccountNumber") = Ok toAccountNumber /\
    get parsed (lit "rawText") = Ok rawText /\
    body resp =
      VObject [ (lit "transactionId", or_else transactionId VNull);
                (lit "toAccountNumber", or_else toAccountNumber VNull);
                (lit "text", or_else rawText VNull) ].

End Outcome.

(* ===================================================================== *)
(** * Sample requests, replies and surroundings                           *)
(* ===================================================================== *)

Module Sample.
Import JsString JsNumber Js World.

(** The slip object that the model is asked for. *)
Definition slip_json : JsString.t :=
  lit "{" ++ quoted (lit "transactionId") ++ lit ":" ++ quoted (lit "T1")
  ++ lit "," ++ quoted (lit "toAccountNumber") ++ lit ":" ++ quoted (lit "A1")
  ++ lit "}".

(** A reply with prose around the object. *)
Definition chatty_reply : JsString.t :=
  lit "Sure! " ++ slip_json ++ lit " Thanks".

(** A reply inside a fenced block. *)
Definition fenced_reply : JsString.t :=
  lit "```json" ++ [10%N] ++ slip_json ++ [10%N] ++ lit "```".

(** A reply with an empty account number and no raw text. *)
Definition partial_reply : JsString.t :=
  lit "{" ++ quoted (lit "transactionId") ++ lit ":" ++ quoted (lit "T1")
  ++ lit "," ++ quoted (lit "toAccountNumber") ++ lit ":" ++ quoted []
  ++ lit "," ++ quoted (lit "rawText") ++ lit ":null}".

(** A reply without any brace. *)
Definition refusal_reply : JsString.t := lit "I cannot read this image.".

Definition slip : value :=
  VObject [ (lit "transactionId", VString (lit "T1"));
            (lit "toAccountNumber", VString (lit "A1")) ].

Definition image : value := VString (lit "data:image/png;base64,AAAA").

Definition request : value := VObject [ (lit "base64Image", image) ].

(** A clock that advances seven milliseconds per reading, a model that
    answers [reply] and reports its token usage. *)
Definition surroundings (reply : JsString.t) : env :=
  {| date_now := fun k => (1700000000000 + 7 * Z.of_nat k)%Z;
     random_suffix := lit "k3x9q";
     openai_create := fun _ =>
       Ok {| output_text := reply;
             resp_usage := Some {| input_tokens := Some (of_Z 2000);
                                   output_tokens := Some (of_Z 500) |} |};
     JSON_parse := Json.parse |}.

(** The same, with a model endpoint that fails. *)
Definition outage : env :=
  {| date_now := fun k => (1700000000000 + 7 * Z.of_nat k)%Z;
     random_suffix := lit "k3x9q";
     openai_create := fun _ => Throw (UpstreamError (lit "503"));
     JSON_parse := Json.parse |}.

End Sample.

(* ===================================================================== *)
(** * What a request leaves on the console                                *)
(* ===================================================================== *)

Module Trace.
Import JsString Js World.

(** The stream a line goes to: the logger sends WARN and ERROR entries
    through [console.error], and so does the worker's handler. *)
Definition to_stderr (l : console_line) : bool :=
  match l with
  | LogEntry Stderr _ _ _ _ => true
  | LogEntry Stdout _ _ _ _ => false
  | ConsoleError _ _ => true
  end.

Definition level_of (l : console_line) : JsString.t :=
  match l with
  | LogEntry _ _ level _ _ => level
  | ConsoleError _ _ => []
  end.

Definition event_of (l : console_line) : JsString.t :=
  match l with
  | LogEntry _ _ _ event _ => event
  | ConsoleError _ _ => []
  end.

Fixpoint datum (data : list (JsString.t * log_datum)) (k : JsString.t)
  : option log_datum :=
  match data with
  | [] => None
  | (k', d) :: rest => if JsString.eqb k' k then Some d else datum rest k
  end.

(** The datum that a log entry carries under the key [k]. *)
Definition datum_of (l : console_line) (k : JsString.t) : option log_datum :=
  match l with
  | LogEntry _ _ _ _ data => datum data k
  | ConsoleError _ _ => None
  end.

(** The keys that [log] writes itself, before it spreads the data of the
    call over the entry. *)
Definition reserved_key (k : JsString.t) : bool :=
  JsString.eqb k (lit "timestamp") || JsString.eqb k (lit "level")
  || JsString.eqb k (lit "event").

(** No datum of the entry replaces one of the logger's own fields. *)
Definition keeps_reserved (l : console_line) : bool :=
  match l with
  | LogEntry _ _ _ _ data =>
      forallb (fun kv => negb (reserved_key (fst kv))) data
  | ConsoleError _ _ => true
  end.

End Trace.

(* ===================================================================== *)
(** * Facts about strings and the regular expressions                     *)
(* ===================================================================== *)

Module StringFacts.
Import JsString Regex Reference.

Lemma eqb_eq a b : eqb a b = true <-> a = b.
Proof.
  revert b. induction a as [|x a IH]; intros [|y b]; simpl;
    try (split; [discriminate | intros H; discriminate H]);
    [split; reflexivity|].
  rewrite andb_true_iff, N.eqb_eq, IH.
  split; [intros [-> ->]; reflexivity | intros H; injection H; auto].
Qed.

Lemma strip_prefix_Some p : forall s r,
  strip_prefix p s = Some r <-> s = p ++ r.
Proof.
  induction p as [|a p IH]; intros s r; simpl.
  - split; congruence.
  - destruct s as [|b s].
    + split; [discriminate | intros H; discriminate H].
    + destruct (N.eqb_spec a b) as [->|Hne].
      * rewrite IH. split; [intros ->; reflexivity | intros H; injection H; auto].
      * split; [discriminate | intros H; injection H; intros; congruence].
Qed.

Lemma class_sS_any c : class_sS c = true.
Proof. unfold class_sS, class_s, class_S. apply orb_negb_r. Qed.

(** The greedy tail stops at the last closing brace. *)
Lemma star_sS_rbrace_last s :
  star_sS_rbrace s =
  match last_index_of RBRACE s with
  | Some j => Some (firstn (S j) s)
  | None => None
  end.
Proof.
  induction s as [|c s IH]; [reflexivity|].
  cbn [star_sS_rbrace last_index_of]. rewrite class_sS_any, IH.
  destruct (last_index_of RBRACE s) as [j|]; [reflexivity|].
  destruct (N.eqb c RBRACE); reflexivity.
Qed.

(** The first match of the brace pattern is the substring from the first
    opening brace to the last closing brace. *)
Lemma match_brace_object_outer s :
  match_brace_object s = outer_braces s.
Proof.
  induction s as [|c s IH]; [reflexivity|].
  cbn [match_brace_object brace_object_at]. unfold outer_braces in *.
  cbn [index_of last_index_of]. rewrite star_sS_rbrace_last.
  destruct (N.eqb_spec c LBRACE) as [->|Hc].
  - destruct (last_index_of RBRACE s) as [j|] eqn:Hl.
    + reflexivity.
    + rewrite IH. destruct (index_of LBRACE s); reflexivity.
  - rewrite IH.
    destruct (index_of LBRACE s) as [i|].
    + destruct (last_index_of RBRACE s) as [j|].
      * change (S i <? S j)%nat with (i <? j)%nat.
        destruct (i <? j)%nat; reflexivity.
      * destruct (N.eqb c RBRACE); reflexivity.
    + destruct (last_index_of RBRACE s) as [j|]; [reflexivity|].
      destruct (N.eqb c RBRACE); reflexivity.
Qed.

(** ** What remains after the fences are removed *)

(** ** Replacing by nothing is deleting *)

Lemma remove_from_replace_all a p' : forall s k,
  remove_from (a :: p') k s = replace_all (a :: p') [] (skipn k s).
Proof.
  induction s as [|c s IH]; intros k.
  - destruct k; reflexivity.
  - destruct k as [|k]; cbn [remove_from skipn].
    + simp replace_all. destruct (starts_with (a :: p') (c :: s)).
      * replace (length (a :: p') - 1) with (length p') by (simpl; lia).
        apply IH.
      * f_equal. apply (IH 0).
    + apply IH.
Qed.

Lemma remove_fences_replace raw :
  remove_fences raw
  = replace_all (lit "```") [] (replace_all (lit "```json") [] raw).
Proof.
  unfold remove_fences, remove_all.
  change fence_json with (96%N :: lit "``json").
  change fence with (96%N :: lit "``").
  now rewrite !remove_from_replace_all.
Qed.

Lemma fence_ticks : fence = [TICK; TICK; TICK].
Proof. reflexivity. Qed.

Lemma fence_json_ticks : fence_json = fence ++ lit "json".
Proof. reflexivity. Qed.

Lemma starts_with_prefix p s :
  starts_with p s = true <-> exists r, s = p ++ r.
Proof.
  unfold starts_with. destruct (strip_prefix p s) as [r|] eqn:E.
  - apply strip_prefix_Some in E. split; eauto.
  - split; [discriminate|]. intros [r Hr].
    apply strip_prefix_Some in Hr. congruence.
Qed.

Lemma starts_with_fence s :
  starts_with fence s = true <-> 3 <= leading_ticks s.
Proof.
  rewrite starts_with_prefix, fence_ticks. split.
  - intros [r ->]. simpl. lia.
  - destruct s as [|a [|b [|c r]]]; simpl;
      repeat match goal with
             | |- context [N.eqb ?x TICK] =>
                 destruct (N.eqb_spec x TICK); subst
             end; try lia.
    intros _. exists r. reflexivity.
Qed.

Lemma leading_ticks_skip2 s :
  2 <= leading_ticks s -> leading_ticks (skipn 2 s) + 2 = leading_ticks s.
Proof.
  destruct s as [|a [|b r]]; simpl; try lia.
  - destruct (N.eqb a TICK); lia.
  - destruct (N.eqb a TICK); [|lia]. destruct (N.eqb b TICK); lia.
Qed.

(** Removing fences never lengthens the run of backticks at the head. *)
Lemma replace_fence_leading s :
  leading_ticks (replace_all fence [] s) <= leading_ticks s.
Proof.
  rewrite fence_ticks.
  apply (replace_all_elim
           (fun p r s res => p = [TICK; TICK; TICK] -> r = [] ->
                             leading_ticks res <= leading_ticks s));
    try discriminate; try reflexivity.
  intros a p' r c s' IH1 IH2 Hp Hr. injection Hp as -> ->. subst r.
    specialize (IH1 eq_refl eq_refl). specialize (IH2 eq_refl eq_refl).
    change [TICK; TICK; TICK] with fence in *.
    change (length [TICK; TICK]) with 2 in *.
    destruct (starts_with fence (c :: s')) eqn:E.
    + apply starts_with_fence in E.
      pose proof (leading_ticks_skip2 s') as Hk. simpl in *.
      destruct (N.eqb c TICK); lia.
    + simpl. destruct (N.eqb c TICK); lia.
Qed.

Lemma occurs_cons p c s :
  occurs p (c :: s) -> starts_with p (c :: s) = true \/ occurs p s.
Proof.
  intros [a [b H]]. destruct a as [|x a].
  - left. apply starts_with_prefix. exists b. exact H.
  - right. injection H as _ H. exists a, b. exact H.
Qed.

Lemma occurs_nil_fence : ~ occurs fence [].
Proof.
  intros [a [b H]]. destruct a; discriminate H.
Qed.

(** After the second replacement no fence is left in the text. *)
Lemma replace_fence_clean s : ~ occurs fence (replace_all fence [] s).
Proof.
  rewrite fence_ticks at 2.
  apply (replace_all_elim
           (fun p r s res => p = [TICK; TICK; TICK] -> r = [] ->
                             ~ occurs fence res));
    try discriminate; try reflexivity.
  - intros; apply occurs_nil_fence.
  - intros a p' r c s' IH1 IH2 Hp Hr. injection Hp as -> ->. subst r.
    specialize (IH1 eq_refl eq_refl). specialize (IH2 eq_refl eq_refl).
    change [TICK; TICK; TICK] with fence in *.
    change (length [TICK; TICK]) with 2 in *.
    destruct (starts_with fence (c :: s')) eqn:E; [exact IH1|].
    intros Hocc. apply occurs_cons in Hocc. destruct Hocc as [Hs|Ho].
    + apply starts_with_fence in Hs.
      assert (Hn : ~ 3 <= leading_ticks (c :: s')).
      { intros H3. apply starts_with_fence in H3. congruence. }
      pose proof (replace_fence_leading s') as Hle.
      simpl in Hs, Hn. destruct (N.eqb c TICK); lia.
    + exact (IH2 Ho).
Qed.

Lemma occurs_app_l p a s : occurs p s -> occurs p (a ++ s).
Proof.
  intros [x [y ->]]. exists (a ++ x), y. now rewrite app_assoc.
Qed.

Lemma occurs_app_r p s b : occurs p s -> occurs p (s ++ b).
Proof.
  intros [x [y ->]]. exists x, (y ++ b). now rewrite <- !app_assoc.
Qed.

Lemma trim_start_suffix s : exists a, s = a ++ trim_start s.
Proof.
  induction s as [|c s [a IH]]; [exists []; reflexivity|].
  simpl. destruct (is_white_space c).
  - exists (c :: a). simpl. now rewrite <- IH.
  - exists []. reflexivity.
Qed.

Lemma trim_end_prefix s : exists b, s = trim_end s ++ b.
Proof.
  unfold trim_end. destruct (trim_start_suffix (rev s)) as [a Ha].
  exists (rev a). rewrite <- rev_app_distr, <- Ha. now rewrite rev_involutive.
Qed.

Lemma occurs_trim p s : occurs p (trim s) -> occurs p s.
Proof.
  unfold trim. intros H.
  destruct (trim_start_suffix s) as [a Ha].
  destruct (trim_end_prefix (trim_start s)) as [b Hb].
  rewrite Ha, Hb. apply occurs_app_l, occurs_app_r, H.
Qed.

(** The cleaned text holds neither fence marker. *)
Lemma cleaned_has_no_fence raw :
  ~ occurs fence (trim (remove_fences raw)) /\
  ~ occurs fence_json (trim (remove_fences raw)).
Proof.
  assert (H : ~ occurs fence (trim (remove_fences raw))).
  { intros H. apply occurs_trim in H. rewrite remove_fences_replace in H.
    exact (replace_fence_clean _ H). }
  split; [exact H|].
  intros [a [b Hab]]. apply H. exists a, (lit "json" ++ b).
  rewrite Hab, fence_json_ticks, <- app_assoc. reflexivity.
Qed.

(** ** Shape of a brace match *)

Lemma star_sS_rbrace_None s :
  star_sS_rbrace s = None <-> ~ In RBRACE s.
Proof.
  induction s as [|c s IH]; simpl; [tauto|].
  rewrite class_sS_any.
  destruct (star_sS_rbrace s) as [m|].
  - split; [discriminate|]. intros H. exfalso.
    assert (Hs : ~ In RBRACE s) by tauto.
    apply IH in Hs. discriminate.
  - destruct (N.eqb_spec c RBRACE) as [->|Hc].
    + split; [discriminate|]. intros H. exfalso. apply H. now left.
    + split; [|reflexivity]. intros _ [H|H]; [congruence|].
      now apply (proj1 IH).
Qed.

Lemma star_sS_rbrace_Some s m :
  star_sS_rbrace s = Some m ->
  exists mid b, s = mid ++ RBRACE :: b /\ m = mid ++ [RBRACE]
                /\ ~ In RBRACE b.
Proof.
  revert m. induction s as [|c s IH]; intros m; simpl; [discriminate|].
  rewrite class_sS_any.
  destruct (star_sS_rbrace s) as [m'|] eqn:E.
  - intros H. injection H as <-.
    destruct (IH m' eq_refl) as [mid [b [-> [-> Hb]]]].
    exists (c :: mid), b. repeat split; auto.
  - destruct (N.eqb_spec c RBRACE) as [->|Hc]; [|discriminate].
    intros H. injection H as <-. exists [], s.
    repeat split. now apply star_sS_rbrace_None.
Qed.

Lemma star_sS_rbrace_app mid post :
  ~ In RBRACE post ->
  star_sS_rbrace (mid ++ RBRACE :: post) = Some (mid ++ [RBRACE]).
Proof.
  intros Hp. induction mid as [|c mid IH]; cbn [app star_sS_rbrace].
  - rewrite class_sS_any.
    apply star_sS_rbrace_None in Hp. rewrite Hp.
    now rewrite N.eqb_refl.
  - now rewrite class_sS_any, IH.
Qed.

(** A match is an opening brace with none before it, a closing brace
    with none after it, and whatever stands between them. *)
Lemma match_brace_object_Some s m :
  match_brace_object s = Some m ->
  exists a mid b,
    s = a ++ LBRACE :: mid ++ RBRACE :: b /\
    m = LBRACE :: mid ++ [RBRACE] /\
    ~ In LBRACE a /\ ~ In RBRACE b.
Proof.
  induction s as [|c s IH]; [discriminate|].
  cbn [match_brace_object brace_object_at].
  destruct (N.eqb_spec c LBRACE) as [->|Hc].
  - destruct (star_sS_rbrace s) as [m'|] eqn:E.
    + intros H. injection H as <-.
      destruct (star_sS_rbrace_Some _ E) as [mid [b [-> [-> Hb]]]].
      exists [], mid, b. repeat split; auto.
    + intros H. destruct (IH H) as [a [mid [b [-> _]]]].
      apply star_sS_rbrace_None in E. exfalso. apply E.
      apply in_or_app. right. right. apply in_or_app. right. now left.
  - intros H. destruct (IH H) as [a [mid [b [-> [-> [Ha Hb]]]]]].
    exists (c :: a), mid, b. repeat split; auto.
    intros [H1|H1]; [congruence|auto].
Qed.

Lemma match_brace_object_app pre mid post :
  ~ In LBRACE pre -> ~ In RBRACE post ->
  match_brace_object (pre ++ LBRACE :: mid ++ RBRACE :: post)
  = Some (LBRACE :: mid ++ [RBRACE]).
Proof.
  intros Hpre Hpost. induction pre as [|c pre IH].
  - cbn [app match_brace_object brace_object_at].
    rewrite N.eqb_refl.
    now rewrite star_sS_rbrace_app.
  - cbn [app match_brace_object brace_object_at].
    destruct (N.eqb_spec c LBRACE) as [->|Hc].
    + exfalso. apply Hpre. now left.
    + apply IH. intros H. apply Hpre. now right.
Qed.

(** ** Cleaning only deletes code units *)

Lemma In_skipn {A} (x : A) n l : In x (skipn n l) -> In x l.
Proof.
  intros H. rewrite <- (firstn_skipn n l). apply in_or_app. now right.
Qed.

Lemma In_replace_all_nil p x s :
  In x (replace_all p [] s) -> In x s.
Proof.
  apply (replace_all_elim
           (fun p r s res => r = [] -> In x res -> In x s)); auto.
  - intros r -> H. exact H.
  - intros r c s' IH -> H. simpl in H. destruct H as [H|H]; [now left|].
    right. now apply IH.
  - intros a p' r c s' IH1 IH2 -> H.
    destruct (starts_with (a :: p') (c :: s')).
    + simpl in H. right. eapply In_skipn. now apply IH1.
    + destruct H as [H|H]; [now left|]. right. now apply IH2.
Qed.

Lemma In_trim x s : In x (trim s) -> In x s.
Proof.
  unfold trim. intros H.
  destruct (trim_start_suffix s) as [a Ha].
  destruct (trim_end_prefix (trim_start s)) as [b Hb].
  rewrite Ha, Hb. apply in_or_app. right. apply in_or_app. now left.
Qed.

Lemma In_cleaned x raw : In x (trim (remove_fences raw)) -> In x raw.
Proof.
  intros H. apply In_trim in H. rewrite remove_fences_replace in H.
  now apply In_replace_all_nil, In_replace_all_nil in H.
Qed.

End StringFacts.


(* ===================================================================== *)
(** * Facts about the handlers                                            *)
(* ===================================================================== *)

Module HandlerFacts.
Import JsString JsNumber Js Regex World Outcome.
Import StringFacts.

#[local] Arguments Instrumented.elapsed : simpl never.
#[local] Arguments Instrumented.time_toString : simpl never.
#[local] Arguments JsString.lit : simpl never.
#[local] Arguments Instrumented.extractJSON : simpl never.
#[local] Arguments Instrumented.estimateImageSizeKB : simpl never.
#[local] Arguments Instrumented.deriveStatus : simpl never.
#[local] Arguments Instrumented.calcTokenCost : simpl never.
#[local] Arguments Instrumented.normalize_confidence : simpl never.
#[local] Arguments Instrumented.error_body : simpl never.
#[local] Arguments Worker.simple_error : simpl never.
#[local] Arguments Worker.clean : simpl never.
#[local] Arguments Regex.match_brace_object : simpl never.
#[local] Arguments Js.get : simpl never.
#[local] Arguments Js.truthy : simpl never.

Ltac run :=
  unfold Instrumented.parse_slip, Instrumented.parse_slip_try,
    Instrumented.respond_success, Instrumented.log,
    Worker.parse_slip, Worker.parse_slip_try,
    try_catch, mbind, lift, Date_now, Math_random_suffix, get_JSON_parse,
    await_openai, write_console, ret in *.

Ltac fail500 :=
  eexists _, _; split; [reflexivity|]; right; left;
  split; [reflexivity | eexists _, _; reflexivity].

Ltac worker_fail500 :=
  eexists _, _; split; [reflexivity|]; right; left;
  split; [reflexivity | eexists; reflexivity].

(** Every request to the instrumented server is answered, in one of the
    three ways; no exception leaves the handler. *)
Lemma parse_slip_outcome ev st req :
  exists resp st',
    Instrumented.parse_slip req ev st = (Ok resp, st') /\
    (rejected ev st req resp st' \/ failed ev st resp
     \/ succeeded ev st req resp).
Proof.
  unfold rejected, failed, succeeded, Instrumented.request_id,
    Instrumented.start_time. run.
  destruct (get req (lit "base64Image")) as [img|e] eqn:Hget; cbn;
    [|fail500].
  destruct (truthy img) eqn:Himg; cbn;
    [|eexists _, _; split; [reflexivity|]; left; cbn;
      split; [reflexivity|]; split; [eauto|];
      split; [eexists; reflexivity | reflexivity]].
  destruct (Instrumented.estimateImageSizeKB img) as [kb|e] eqn:Hkb; cbn;
    [|fail500].
  match goal with
  | |- context [openai_create ev ?rq] =>
      destruct (openai_create ev rq) as [reply|e] eqn:Hai
  end; cbn; [|fail500].
  destruct (Instrumented.extractJSON (JSON_parse ev) (output_text reply))
    as [parsed|e] eqn:Hex; cbn; [|fail500].
  destruct (Instrumented.deriveStatus parsed) as [status|e] eqn:Hst; cbn;
    [|fail500].
  destruct (get parsed (lit "confidenceScore")) as [cs|e] eqn:Hcs; cbn;
    [|fail500].
  destruct (get parsed (lit "transactionId")) as [tid|e] eqn:Htid; cbn;
    [|fail500].
  destruct (get parsed (lit "toAccountNumber")) as [acc|e] eqn:Hacc; cbn;
    [|fail500].
  destruct (get parsed (lit "rawText")) as [raw|e] eqn:Hraw; cbn;
    [|fail500].
  eexists _, _; split; [reflexivity|]. right; right. cbn.
  split; [reflexivity|].
  exists img, reply, parsed, tid, acc, raw, cs.
  repeat match goal with |- _ /\ _ => split end; auto.
  exists status. split; [exact Hst | reflexivity].
Qed.

(** The same for the worker. *)
Lemma worker_parse_slip_outcome ev st req :
  exists resp st',
    Worker.parse_slip req ev st = (Ok resp, st') /\
    (worker_rejected req st resp st' \/ worker_failed resp
     \/ worker_succeeded ev req resp).
Proof.
  unfold worker_rejected, worker_failed, worker_succeeded. run.
  destruct (get req (lit "base64Image")) as [img|e] eqn:Hget; cbn;
    [|worker_fail500].
  destruct (truthy img) eqn:Himg; cbn;
    [|eexists _, _; split; [reflexivity|]; left; cbn;
      split; [reflexivity|]; split; [eauto|]; split; reflexivity].
  match goal with
  | |- context [openai_create ev ?rq] =>
      destruct (openai_create ev rq) as [reply|e] eqn:Hai
  end; cbn; [|worker_fail500].
  destruct (match_brace_object (Worker.clean (output_text reply)))
    as [m|] eqn:Hm; cbn; [|worker_fail500].
  destruct (JSON_parse ev m) as [parsed|] eqn:Hp; cbn; [|worker_fail500].
  destruct (get parsed (lit "transactionId")) as [tid|e] eqn:Htid; cbn;
    [|worker_fail500].
  destruct (get parsed (lit "toAccountNumber")) as [acc|e] eqn:Hacc; cbn;
    [|worker_fail500].
  destruct (get parsed (lit "rawText")) as [raw|e] eqn:Hraw; cbn;
    [|worker_fail500].
  eexists _, _; split; [reflexivity|]. right; right. cbn.
  split; [reflexivity|].
  exists img, reply, m, parsed, tid, acc, raw.
  repeat split; auto.
Qed.

(** What the handlers do with a request whose image is falsy. *)
Lemma parse_slip_missing ev st req v :
  get req (lit "base64Image") = Ok v -> truthy v = false ->
  Instrumented.parse_slip req ev st =
  (Ok {| status_code := 400;
         body := Instrumented.error_body (Instrumented.request_id ev st)
                   (lit "Missing image")
                   (Instrumented.elapsed
                      (date_now ev (4 + clock_reads st))
                      (Instrumented.start_time ev st)) |},
   {| clock_reads := 5 + clock_reads st;
      console :=
        (console st ++
         [ LogEntry Stdout (date_now ev (2 + clock_reads st))
             Instrumented.LogLevel_INFO (lit "parse_slip.start")
             [ (lit "requestId",
                Datum (VString (Instrumented.request_id ev st))) ] ]) ++
         [ LogEntry Stderr (date_now ev (3 + clock_reads st))
             Instrumented.LogLevel_WARN (lit "parse_slip.missing_image")
             [ (lit "requestId",
                Datum (VString (Instrumented.request_id ev st))) ] ];
      model_calls := model_calls st |}).
Proof.
  intros Hget Hv. run. rewrite Hget. cbn. rewrite Hv. reflexivity.
Qed.

(** The worker's answer when no brace pair is found in the reply. *)
Lemma worker_parse_slip_no_match ev st req image reply :
  get req (lit "base64Image") = Ok image -> truthy image = true ->
  openai_create ev {| req_model := lit "gpt-4.1-mini";
                      req_image_url := image |} = Ok reply ->
  match_brace_object (Worker.clean (output_text reply)) = None ->
  Worker.parse_slip req ev st =
  (Ok {| status_code := 500;
         body := Worker.simple_error (lit "Invalid AI response") |},
   {| clock_reads := clock_reads st;
      console := console st;
      model_calls := model_calls st ++
                     [ {| req_model := lit "gpt-4.1-mini";
                          req_image_url := image |} ] |}).
Proof.
  intros Hget Hv Hai Hm. run. rewrite Hget. cbn. rewrite Hv. cbn.
  rewrite Hai. cbn. now rewrite Hm.
Qed.

Lemma worker_parse_slip_missing ev st req v :
  get req (lit "base64Image") = Ok v -> truthy v = false ->
  Worker.parse_slip req ev st =
  (Ok {| status_code := 400;
         body := Worker.simple_error (lit "Missing image") |}, st).
Proof.
  intros Hget Hv. run. rewrite Hget. cbn. rewrite Hv. reflexivity.
Qed.




(** A field of the parsed reply as it surfaces in a response. *)
Lemma or_else_null v :
  or_else v VNull = (if truthy v then v else VNull)
  /\ or_else v VNull <> VString []
  /\ (or_else v VNull = VNull \/ (or_else v VNull = v /\ truthy v = true)).
Proof.
  unfold or_else. destruct (truthy v) eqn:E.
  - repeat split; auto. intros ->. discriminate E.
  - repeat split; auto. discriminate.
Qed.

(** ** The data-URI prefix *)

Lemma star_w_base64_mime mime body :
  forallb Instrumented.is_word_char mime = true ->
  Instrumented.star_w_base64 (mime ++ lit ";base64," ++ body) = Some body.
Proof.
  induction mime as [|c mime IH]; intros Hw.
  - reflexivity.
  - simpl in Hw. apply andb_true_iff in Hw. destruct Hw as [Hc Hw].
    cbn [app Instrumented.star_w_base64]. now rewrite Hc, IH.
Qed.

Lemma strip_data_uri_prefix mime body :
  mime <> [] -> forallb Instrumented.is_word_char mime = true ->
  Instrumented.strip_data_uri (lit "data:image/" ++ mime ++ lit ";base64," ++ body)
  = body.
Proof.
  intros Hne Hw. unfold Instrumented.strip_data_uri,
    Instrumented.match_data_uri_prefix.
  assert (Hp : strip_prefix (lit "data:image/")
                 (lit "data:image/" ++ mime ++ lit ";base64," ++ body)
               = Some (mime ++ lit ";base64," ++ body))
    by (now apply strip_prefix_Some).
  rewrite Hp. destruct mime as [|c mime]; [congruence|].
  simpl in Hw. apply andb_true_iff in Hw. destruct Hw as [Hc Hw].
  cbn [app]. now rewrite Hc, star_w_base64_mime.
Qed.

End HandlerFacts.

(* ===================================================================== *)
(** * Facts about numbers                                                 *)
(* ===================================================================== *)

Module NumberFacts.
Import JsNumber.

Lemma SFcompare_antisym x y c :
  SFcompare x y = Some c -> SFcompare y x = Some (CompOpp c).
Proof.
  destruct x as [sx|sx| |sx mx ex], y as [sy|sy| |sy my ey]; simpl;
    try discriminate;
    try (intros H; injection H as <-;
         repeat match goal with b : bool |- _ => destruct b end;
         reflexivity).
  intros H; injection H as <-.
  change (PosDef.Pos.compare_cont Eq my mx) with (my ?= mx)%positive.
  change (PosDef.Pos.compare_cont Eq mx my) with (mx ?= my)%positive.
  rewrite (Z.compare_antisym ex ey), (Pos.compare_antisym mx my).
  destruct sx, sy; simpl; try reflexivity;
    destruct (ex ?= ey)%Z; simpl; try reflexivity;
    destruct (mx ?= my)%positive; reflexivity.
Qed.

Lemma SFcompare_finite_eq s m e m' e' :
  SFcompare (S754_finite s m e) (S754_finite s m' e') = Some Eq ->
  m = m' /\ e = e'.
Proof.
  simpl. destruct s; destruct (Z.compare_spec e e'); try discriminate;
    subst; intros H; injection H as H; split; auto.
  - apply Pos.compare_eq. change (Pos.compare_cont Eq m m') with (m ?= m')%positive in H.
    destruct (m ?= m')%positive; simpl in H; congruence.
  - apply Pos.compare_eq. exact H.
Qed.


Lemma of_Z_100 : of_Z 100 = hundred.
Proof. vm_compute. reflexivity. Qed.

Lemma of_Z_0 : of_Z 0 = pos_zero.
Proof. reflexivity. Qed.


Lemma Math_max_zero x :
  is_nan x = false ->
  Math_max [pos_zero; x] = if ltb pos_zero x then x else pos_zero.
Proof.
  intros Hx. unfold Math_max. cbn [fold_left max_step].
  change (is_nan pos_zero) with false.
  change (is_pos_zero pos_zero && is_neg_zero neg_infinity) with false.
  change (ltb neg_infinity pos_zero) with true.
  cbv iota. unfold max_step. rewrite Hx.
  change (is_neg_zero pos_zero) with false. rewrite andb_false_r.
  destruct (ltb pos_zero x); reflexivity.
Qed.

Lemma Math_min_hundred y :
  is_nan y = false ->
  Math_min [hundred; y] = if ltb y hundred then y else hundred.
Proof.
  intros Hy. unfold Math_min. cbn [fold_left min_step].
  change (is_nan hundred) with false.
  change (is_neg_zero hundred && is_pos_zero pos_infinity) with false.
  change (ltb hundred pos_infinity) with true.
  cbv iota. unfold min_step. rewrite Hy.
  change (is_pos_zero hundred) with false. rewrite andb_false_r.
  destruct (ltb y hundred); reflexivity.
Qed.

Lemma clamp_spec x :
  is_nan x = false ->
  let r := Math_min [of_Z 100; Math_max [of_Z 0; x]] in
  leb (of_Z 0) r = true /\ leb r (of_Z 100) = true /\
  (ltb x (of_Z 0) = true -> r = of_Z 0) /\
  (ltb (of_Z 100) x = true -> r = of_Z 100) /\
  (leb (of_Z 0) x = true -> leb x (of_Z 100) = true ->
   r = x \/ (x = neg_zero /\ r = pos_zero)).
Proof.
  intros Hx. rewrite of_Z_100, of_Z_0. cbv zeta.
  rewrite (Math_max_zero _ Hx).
  destruct x as [s|s| |s m e]; try discriminate.
  - destruct s; vm_compute; repeat split; auto; try discriminate.
  - destruct s; vm_compute; repeat split; auto; try discriminate.
  - destruct s.
    + change (ltb pos_zero (S754_finite true m e)) with false. cbv iota.
      change (Math_min [hundred; pos_zero]) with pos_zero.
      repeat split; auto; try discriminate.
    + change (ltb pos_zero (S754_finite false m e)) with true. cbv iota.
      rewrite Math_min_hundred by reflexivity.
      unfold ltb, leb, SFltb, SFleb.
      destruct (SFcompare (S754_finite false m e) hundred) as [c|] eqn:E;
        [|discriminate E].
      rewrite (@SFcompare_antisym _ _ _ E).
      destruct c; simpl CompOpp; cbv iota.
      * apply (@SFcompare_finite_eq false) in E. destruct E as [-> ->].
        repeat split; auto; try discriminate.
      * rewrite E. repeat split; auto; try discriminate.
      * repeat split; auto; try discriminate.
Qed.

End NumberFacts.


(* ===================================================================== *)
(** * Exact binary64 arithmetic                                           *)
(* ===================================================================== *)

Module ExactFacts.
Import JsNumber.
Local Open Scope Z_scope.

(** ** Bit lengths *)

Lemma digits2_size p : digits2_pos p = Pos.size p.
Proof. induction p; simpl; congruence. Qed.

Lemma digits2_log2 p : Zpos (digits2_pos p) = Z.log2 (Zpos p) + 1.
Proof.
  rewrite digits2_size. destruct p; simpl; try reflexivity;
    rewrite Pos.add_1_r; destruct p; reflexivity.
Qed.

Lemma digits2_bounds p :
  2 ^ (Zpos (digits2_pos p) - 1) <= Zpos p < 2 ^ Zpos (digits2_pos p).
Proof.
  rewrite digits2_log2.
  replace (Z.log2 (Zpos p) + 1 - 1) with (Z.log2 (Zpos p)) by lia.
  pose proof (Z.log2_spec (Zpos p) eq_refl) as H.
  unfold Z.succ in H. exact H.
Qed.

Lemma digits2_unique p d :
  2 ^ (d - 1) <= Zpos p < 2 ^ d -> Zpos (digits2_pos p) = d.
Proof.
  intros H. rewrite digits2_log2.
  assert (Hd : 0 < d).
  { destruct (Z.lt_trichotomy d 0) as [Hn|[->|Hp]]; auto.
    - rewrite (Z.pow_neg_r 2 d Hn) in H. lia.
    - simpl in H. lia. }
  rewrite (Z.log2_unique (Zpos p) (d - 1)); try lia.
  replace (Z.succ (d - 1)) with d by lia. exact H.
Qed.

Lemma digits2_mul_pow2 p k q :
  0 <= k -> Zpos q = Zpos p * 2 ^ k ->
  Zpos (digits2_pos q) = Zpos (digits2_pos p) + k.
Proof.
  intros Hk Hq. rewrite !digits2_log2, Hq.
  rewrite Z.log2_mul_pow2; lia.
Qed.

(** ** Shifts *)

Lemma iter_xO p k : Zpos (Pos.iter xO p k) = Zpos p * 2 ^ Zpos k.
Proof.
  induction k as [|k IH] using Pos.peano_ind.
  - simpl. lia.
  - rewrite Pos.iter_succ, Pos2Z.inj_succ, Z.pow_succ_r by lia.
    rewrite Pos2Z.inj_xO, IH. lia.
Qed.

Lemma iter_pos_nat {A} (f : A -> A) n x :
  iter_pos f n x = Nat.iter (Pos.to_nat n) f x.
Proof.
  revert x. induction n as [n IH|n IH|]; intros x; cbn [iter_pos].
  - rewrite !IH, Pos2Nat.inj_xI, Nat.iter_succ_r.
    replace (2 * Pos.to_nat n)%nat with (Pos.to_nat n + Pos.to_nat n)%nat
      by lia.
    now rewrite Nat.iter_add.
  - rewrite !IH, Pos2Nat.inj_xO.
    replace (2 * Pos.to_nat n)%nat with (Pos.to_nat n + Pos.to_nat n)%nat
      by lia.
    now rewrite Nat.iter_add.
  - reflexivity.
Qed.

Lemma shr_1_even m : 0 < m -> shr_1 (exact (2 * m)) = exact m.
Proof. destruct m; try lia. intros _. reflexivity. Qed.

Lemma iter_shr_exact (k : nat) m :
  0 < m ->
  Nat.iter k shr_1 (exact (m * 2 ^ Z.of_nat k)) = exact m.
Proof.
  intros Hm. revert m Hm. induction k as [|k IH]; intros m Hm.
  - simpl. f_equal. lia.
  - rewrite Nat.iter_succ_r.
    replace (m * 2 ^ Z.of_nat (S k)) with (2 * (m * 2 ^ Z.of_nat k)).
    + rewrite shr_1_even by (pose proof (Z.pow_pos_nonneg 2 (Z.of_nat k)); nia).
      now apply IH.
    + rewrite Nat2Z.inj_succ, Z.pow_succ_r by lia. lia.
Qed.

(** ** Rounding a value that needs none *)

Lemma fexp_eq x : fexp prec emax x = Z.max (x - 53) (-1074).
Proof. reflexivity. Qed.

Lemma shr_exact (m q : positive) e k :
  0 <= k -> Zpos m = Zpos q * 2 ^ k ->
  shr (exact (Zpos m)) e k = (exact (Zpos q), e + k).
Proof.
  intros Hk Hm. destruct k as [|p|p]; try lia.
  - unfold shr. f_equal; [f_equal|]; lia.
  - unfold shr. f_equal.
    rewrite iter_pos_nat, Hm.
    rewrite <- (positive_nat_Z p) at 1.
    apply iter_shr_exact. lia.
Qed.

(** A mantissa with [k] spare zero bits, where the format wants the
    exponent [e + k]: rounding only drops the zeros. *)
Lemma round_aux_exact s (m q : positive) e k :
  0 <= k -> Zpos m = Zpos q * 2 ^ k ->
  fexp prec emax (Zpos (digits2_pos m) + e) = e + k ->
  e + k <= emax - prec ->
  binary_round_aux prec emax s (Zpos m) e loc_Exact = S754_finite s q (e + k).
Proof.
  intros Hk Hm Hf He.
  assert (Hd : Zpos (digits2_pos m) = Zpos (digits2_pos q) + k)
    by (apply digits2_mul_pow2; assumption).
  unfold binary_round_aux, shr_fexp.
  change (Zdigits2 (Zpos m)) with (Zpos (digits2_pos m)).
  change (shr_record_of_loc (Zpos m) loc_Exact) with (exact (Zpos m)).
  rewrite Hf. replace (e + k - e) with k by lia.
  rewrite (@shr_exact m q e k Hk Hm).
  change (round_nearest_even (shr_m (exact (Zpos q)))
            (loc_of_shr_record (exact (Zpos q)))) with (Zpos q).
  change (Zdigits2 (Zpos q)) with (Zpos (digits2_pos q)).
  change (shr_record_of_loc (Zpos q) loc_Exact) with (exact (Zpos q)).
  replace (Zpos (digits2_pos q) + (e + k)) with (Zpos (digits2_pos m) + e)
    by lia.
  rewrite Hf, Z.sub_diag.
  change (shr (exact (Zpos q)) (e + k) 0) with (exact (Zpos q), e + k).
  cbv beta iota. change (shr_m (exact (Zpos q))) with (Zpos q). cbv iota.
  apply Z.leb_le in He. now rewrite He.
Qed.

(** ** Integers as Numbers *)

Lemma canon_mantissa n :
  Zpos (digits2_pos n) <= 53 ->
  Zpos (Z.to_pos (Zpos n * 2 ^ (53 - Zpos (digits2_pos n))))
  = Zpos n * 2 ^ (53 - Zpos (digits2_pos n)).
Proof.
  intros H. rewrite Z2Pos.id; [reflexivity|].
  pose proof (Z.pow_pos_nonneg 2 (53 - Zpos (digits2_pos n))). nia.
Qed.

Lemma canon_digits n :
  Zpos (digits2_pos n) <= 53 ->
  Zpos (digits2_pos (Z.to_pos (Zpos n * 2 ^ (53 - Zpos (digits2_pos n)))))
  = 53.
Proof.
  intros H.
  pose proof (@digits2_mul_pow2 n (53 - Zpos (digits2_pos n)) _
                ltac:(lia) (canon_mantissa n H)) as Hd.
  lia.
Qed.

Lemma of_Z_canon n :
  Zpos (digits2_pos n) <= 53 -> of_Z (Zpos n) = canon n 0.
Proof.
  intros H. unfold of_Z, binary_normalize, binary_round, shl_align.
  rewrite fexp_eq, Z.add_0_r.
  pose proof (Pos2Z.is_pos (digits2_pos n)) as Hpos.
  rewrite Z.max_l by lia. rewrite Z.sub_0_r.
  unfold canon. rewrite Z.sub_0_r.
  pose proof (canon_mantissa n H) as Hm.
  pose proof (canon_digits n H) as Hd.
  set (q := Z.to_pos (Zpos n * 2 ^ (53 - Zpos (digits2_pos n)))) in *.
  destruct (Zpos (digits2_pos n) - 53) as [|d|d] eqn:E; try lia.
  - assert (q = n) as ->.
    { apply Pos2Z.inj. rewrite Hm. replace (53 - Zpos (digits2_pos n)) with 0 by lia. lia. }
    rewrite <- (Z.add_0_r 0) at 2.
    apply round_aux_exact;
      try (rewrite fexp_eq); unfold emax, prec; lia.
  - assert (Pos.iter xO n d = q) as ->.
    { apply Pos2Z.inj. rewrite iter_xO, Hm. f_equal. f_equal. lia. }
    rewrite <- (Z.add_0_r (Zneg d)) at 2.
    apply round_aux_exact;
      try (rewrite fexp_eq); unfold emax, prec; lia.
Qed.

Lemma digits2_mul_lower a b :
  Zpos (digits2_pos a) + Zpos (digits2_pos b) - 1
  <= Zpos (digits2_pos (a * b)).
Proof.
  pose proof (digits2_bounds a) as [Ha _].
  pose proof (digits2_bounds b) as [Hb _].
  pose proof (digits2_bounds (a * b)) as [_ Hab].
  pose proof (Pos2Z.is_pos (digits2_pos a)).
  pose proof (Pos2Z.is_pos (digits2_pos b)).
  assert (H2 : 2 ^ (Zpos (digits2_pos a) - 1 + (Zpos (digits2_pos b) - 1))
               <= Zpos (a * b)).
  { rewrite Z.pow_add_r by lia. rewrite Pos2Z.inj_mul.
    apply Z.mul_le_mono_nonneg; try assumption;
      apply Z.pow_nonneg; lia. }
  assert (H3 : Zpos (digits2_pos a) - 1 + (Zpos (digits2_pos b) - 1)
               < Zpos (digits2_pos (a * b))).
  { apply (Z.pow_lt_mono_r_iff 2); lia. }
  lia.
Qed.

Lemma digits2_mul_le_l a b :
  Zpos (digits2_pos a) <= Zpos (digits2_pos (a * b)).
Proof.
  pose proof (digits2_mul_lower a b).
  pose proof (Pos2Z.is_pos (digits2_pos b)). lia.
Qed.

(** A product that fits in 53 bits is exact. *)
Lemma mul_canon a b :
  Zpos (digits2_pos (a * b)) <= 53 ->
  mul (canon a 0) (canon b 0) = canon (a * b) 0.
Proof.
  intros Hab.
  pose proof (digits2_mul_lower a b) as Hlow.
  pose proof (digits2_mul_le_l a b) as Hla.
  pose proof (digits2_mul_le_l b a) as Hlb. rewrite Pos.mul_comm in Hlb.
  assert (Ha : Zpos (digits2_pos a) <= 53) by lia.
  assert (Hb : Zpos (digits2_pos b) <= 53) by lia.
  unfold mul, SFmul, canon. rewrite !Z.sub_0_r. cbn [xorb].
  pose proof (canon_mantissa a Ha) as Hma.
  pose proof (canon_mantissa b Hb) as Hmb.
  pose proof (canon_mantissa (a * b) Hab) as Hmab.
  pose proof (canon_digits (a * b) Hab) as Hdab.
  set (ma := Z.to_pos (Zpos a * 2 ^ (53 - Zpos (digits2_pos a)))) in *.
  set (mb := Z.to_pos (Zpos b * 2 ^ (53 - Zpos (digits2_pos b)))) in *.
  set (q := Z.to_pos (Zpos (a * b) * 2 ^ (53 - Zpos (digits2_pos (a * b)))))
    in *.
  set (La := Zpos (digits2_pos a)) in *.
  set (Lb := Zpos (digits2_pos b)) in *.
  set (Lab := Zpos (digits2_pos (a * b))) in *.
  set (k := 53 + Lab - La - Lb).
  assert (Hm : Zpos (ma * mb) = Zpos q * 2 ^ k).
  { rewrite Pos2Z.inj_mul, Hma, Hmb, Hmab, Pos2Z.inj_mul.
    replace (Zpos a * Zpos b * 2 ^ (53 - Lab) * 2 ^ k)
      with (Zpos a * Zpos b * (2 ^ (53 - Lab) * 2 ^ k)) by ring.
    rewrite <- Z.pow_add_r by lia.
    replace (Zpos a * 2 ^ (53 - La) * (Zpos b * 2 ^ (53 - Lb)))
      with (Zpos a * Zpos b * (2 ^ (53 - La) * 2 ^ (53 - Lb))) by ring.
    rewrite <- Z.pow_add_r by lia.
    f_equal. f_equal. unfold k. lia. }
  replace (Lab - 53) with (La - 53 + (Lb - 53) + k) by (unfold k; lia).
  apply round_aux_exact; try (unfold k; lia); try exact Hm.
  - rewrite fexp_eq.
    rewrite (@digits2_mul_pow2 q k (ma * mb)) by (try exact Hm; unfold k; lia).
    rewrite Hdab. unfold k.
    pose proof (Pos2Z.is_pos (digits2_pos (a * b))). fold Lab in H. lia.
  - unfold emax, prec, k. lia.
Qed.

Lemma div_eucl_mul q b : 0 < b -> Z.div_eucl (q * b) b = (q, 0).
Proof.
  intros Hb.
  assert (H : Z.div_eucl (q * b) b = ((q * b) / b, (q * b) mod b)).
  { unfold Z.div, Z.modulo. now destruct (Z.div_eucl (q * b) b). }
  rewrite H, Z.div_mul, Z.mod_mul by lia. reflexivity.
Qed.

(** Dividing a 53-bit mantissa by a power of two lowers the exponent. *)
Lemma div_pow2 m e i :
  Zpos (digits2_pos m) = 53 ->
  -1073 <= e - i -> e - i <= 971 ->
  div (S754_finite false m e) (S754_finite false two52 (i - 52))
  = S754_finite false m (e - i).
Proof.
  intros Hd Hlo Hhi. unfold div, SFdiv, SFdiv_core_binary. cbn [xorb].
  change (Zdigits2 (Zpos m)) with (Zpos (digits2_pos m)). rewrite Hd.
  change (Zdigits2 (Zpos two52)) with 53.
  rewrite fexp_eq.
  replace (Z.min (Z.max (53 + e - (53 + (i - 52)) - 53) (-1074))
             (e - (i - 52))) with (e - i - 1) by lia.
  replace (e - (i - 52) - (e - i - 1)) with 53 by lia.
  cbv iota. rewrite Z.shiftl_mul_pow2 by lia.
  replace (Zpos m * 2 ^ 53) with (Zpos (2 * m) * Zpos two52)
    by (unfold two52; rewrite Pos2Z.inj_mul; lia).
  rewrite div_eucl_mul by lia.
  change (new_location (Zpos two52) 0) with loc_Exact.
  replace (e - i) with (e - i - 1 + 1) at 2 by lia.
  apply round_aux_exact; try lia.
  - rewrite fexp_eq.
    rewrite (@digits2_mul_pow2 m 1 (2 * m)) by lia.
    rewrite Hd. lia.
  - unfold emax, prec. lia.
Qed.

(** [Math.round] of [n / 2^j]. *)
Lemma Math_round_canon n j :
  Zpos (digits2_pos n) <= 53 -> 1 <= j ->
  Math_round (canon n j) = of_Z ((Zpos n + 2 ^ (j - 1)) / 2 ^ j).
Proof.
  intros Hn Hj. unfold Math_round, canon.
  pose proof (canon_mantissa n Hn) as Hm.
  set (M := Z.to_pos (Zpos n * 2 ^ (53 - Zpos (digits2_pos n)))) in *.
  set (L := Zpos (digits2_pos n)) in *.
  destruct (Z.leb_spec 0 (L - 53 - j)) as [H0|H0]; [lia|].
  cbn [cond_Zopp].
  assert (Hz : (2 * Zpos M + 2 ^ (- (L - 53 - j)))
               / 2 ^ (- (L - 53 - j) + 1)
               = (Zpos n + 2 ^ (j - 1)) / 2 ^ j).
  { rewrite Hm.
    replace (- (L - 53 - j)) with ((53 - L + 1) + (j - 1)) by lia.
    replace (53 - L + 1 + (j - 1) + 1) with ((53 - L + 1) + j) by lia.
    rewrite !Z.pow_add_r by lia.
    replace (2 * (Zpos n * 2 ^ (53 - L)) + 2 ^ (53 - L) * 2 ^ 1 * 2 ^ (j - 1))
      with (2 ^ (53 - L) * 2 ^ 1 * (Zpos n + 2 ^ (j - 1)))
      by (change (2 ^ 1) with 2; ring).
    apply Z.div_mul_cancel_l.
    - pose proof (Z.pow_pos_nonneg 2 j). lia.
    - pose proof (Z.pow_pos_nonneg 2 (53 - L)). change (2 ^ 1) with 2. lia. }
  rewrite Hz.
  destruct (Z.eqb_spec ((Zpos n + 2 ^ (j - 1)) / 2 ^ j) 0) as [->|_];
    reflexivity.
Qed.

Lemma digits2_le_53 n : Zpos n < 2 ^ 53 -> Zpos (digits2_pos n) <= 53.
Proof.
  intros H. pose proof (digits2_bounds n) as [Hl _].
  assert (Zpos (digits2_pos n) - 1 < 53); [|lia].
  apply (Z.pow_lt_mono_r_iff 2); lia.
Qed.

Lemma of_Z_4 : of_Z 4 = S754_finite false two52 (2 - 52).
Proof. vm_compute. reflexivity. Qed.

Lemma of_Z_1024 : of_Z 1024 = S754_finite false two52 (10 - 52).
Proof. vm_compute. reflexivity. Qed.

(** The size estimate is computed without any rounding error. *)
Lemma image_size_exact len :
  0 <= len -> 3 * len < 2 ^ 53 ->
  Math_round (div (div (mul (of_Z len) (of_Z 3)) (of_Z 4)) (of_Z 1024))
  = of_Z ((3 * len + 2048) / 4096).
Proof.
  intros H0 H53. destruct len as [|n|n]; try lia.
  - vm_compute. reflexivity.
  - assert (Hn3 : Zpos (digits2_pos (n * 3)) <= 53)
      by (apply digits2_le_53; lia).
    assert (Hn : Zpos (digits2_pos n) <= 53)
      by (apply digits2_le_53; lia).
    rewrite (of_Z_canon n Hn).
    rewrite (of_Z_canon 3) by (vm_compute; discriminate).
    rewrite (mul_canon n 3 Hn3), of_Z_4, of_Z_1024.
    pose proof (canon_digits (n * 3) Hn3) as Hd.
    pose proof (Pos2Z.is_pos (digits2_pos (n * 3))) as Hp.
    unfold canon at 1. rewrite Z.sub_0_r.
    rewrite div_pow2 by (try exact Hd; lia).
    rewrite div_pow2 by (try exact Hd; lia).
    replace (Zpos (digits2_pos (n * 3)) - 53 - 2 - 10)
      with (Zpos (digits2_pos (n * 3)) - 53 - 12) by lia.
    fold (canon (n * 3) 12).
    rewrite Math_round_canon by (try exact Hn3; lia).
    f_equal. f_equal. lia.
Qed.

End ExactFacts.


(* ===================================================================== *)
(** * Decimal text: printing and reading back                             *)
(* ===================================================================== *)

Module DecimalFacts.
Import JsString JsNumber.
Local Open Scope N_scope.



Lemma is_digit_digit_char d : d < 10 -> is_digit (digit_char d) = true.
Proof.
  intros H. unfold is_digit, digit_char.
  apply andb_true_iff. split; apply N.leb_le; lia.
Qed.


(** ** The digits of a number *)

Lemma decimal_digits_fuel_app f : forall n acc,
  decimal_digits_fuel f n acc = decimal_digits_fuel f n [] ++ acc.
Proof.
  induction f as [|f IH]; intros n acc; [reflexivity|].
  cbn [decimal_digits_fuel]. destruct (n / 10 =? 0); [reflexivity|].
  rewrite (IH (n / 10) (_ :: acc)), (IH (n / 10) [_]).
  now rewrite <- app_assoc.
Qed.

Lemma fold_digits_app a b acc :
  fold_left digits_step (a ++ b) acc
  = fold_left digits_step b (fold_left digits_step a acc).
Proof. apply fold_left_app. Qed.

Lemma decimal_digits_fuel_spec f : forall n,
  n < 2 ^ N.of_nat f ->
  digits_value (decimal_digits_fuel f n []) = n
  /\ forallb is_digit (decimal_digits_fuel f n []) = true
  /\ (f <> O -> decimal_digits_fuel f n [] <> []).
Proof.
  induction f as [|f IH]; intros n Hn.
  - simpl in Hn. assert (n = 0) by lia. subst. repeat split. congruence.
  - cbn [decimal_digits_fuel].
    assert (Hmod : n mod 10 < 10) by (apply N.mod_lt; lia).
    destruct (N.eqb_spec (n / 10) 0) as [Hz|Hz].
    + assert (Hlt : n < 10) by (apply N.div_small_iff in Hz; lia).
      rewrite (N.mod_small n 10 Hlt).
      repeat split.
      * unfold digits_value, digits_step, digit_char. cbn [fold_left]. lia.
      * cbn [forallb]. now rewrite is_digit_digit_char.
      * discriminate.
    + rewrite decimal_digits_fuel_app.
      assert (Hdiv : n / 10 < 2 ^ N.of_nat f).
      { rewrite Nat2N.inj_succ, N.pow_succ_r' in Hn.
        apply N.Div0.div_lt_upper_bound.
        pose proof (N.pow_nonzero 2 (N.of_nat f)). lia. }
      destruct (IH (n / 10) Hdiv) as [Hv [Hd _]].
      repeat split.
      * unfold digits_value in *. rewrite fold_digits_app, Hv.
        unfold digits_step, digit_char. cbn [fold_left].
        pose proof (N.div_mod n 10 ltac:(discriminate)) as Hdm.
        generalize dependent (n / 10). generalize dependent (n mod 10).
        intros; lia.
      * rewrite forallb_app, Hd. cbn [forallb andb].
        now rewrite is_digit_digit_char.
      * intros _ H. apply app_eq_nil in H. destruct H as [_ H]. discriminate H.
Qed.

Lemma decimal_digits_spec n :
  digits_value (decimal_digits n) = n
  /\ forallb is_digit (decimal_digits n) = true
  /\ decimal_digits n <> [].
Proof.
  unfold decimal_digits.
  destruct (@decimal_digits_fuel_spec (S (N.to_nat (N.log2 n))) n)
    as [Hv [Hd Hne]].
  - rewrite Nat2N.inj_succ, N2Nat.id.
    destruct n as [|p]; [reflexivity|].
    apply N.log2_spec. reflexivity.
  - repeat split; auto.
Qed.

(** ** Fixed-point text *)










End DecimalFacts.

(* ===================================================================== *)
(** * Magnitudes in binary64 arithmetic                                   *)
(* ===================================================================== *)

Module MagnitudeFacts.
Import JsNumber ExactFacts.
Local Open Scope Z_scope.


Lemma Zdigits2_nonneg m : 0 <= Zdigits2 m.
Proof. destruct m; simpl; lia. Qed.




Lemma Zdigits2_lt_pow2 m : 0 <= m -> m < 2 ^ Zdigits2 m.
Proof.
  intros Hm. destruct m as [|p|p]; try lia; [reflexivity|].
  apply digits2_bounds.
Qed.


(** ** Shifting right *)






(** ** Rounding does not raise the magnitude by more than one bit *)


(** ** Magnitudes of products, quotients and sums *)




Lemma shl_align_spec mx ex ex' :
  Zpos (digits2_pos (fst (shl_align mx ex ex'))) + snd (shl_align mx ex ex')
  = Zpos (digits2_pos mx) + ex
  /\ Zpos (fst (shl_align mx ex ex'))
     = Zpos mx * 2 ^ (ex - snd (shl_align mx ex ex'))
  /\ snd (shl_align mx ex ex') = Z.min ex ex'.
Proof.
  unfold shl_align. destruct (ex' - ex) as [|d|d] eqn:E; cbn [fst snd].
  - rewrite Z.sub_diag. simpl. lia.
  - rewrite Z.sub_diag. simpl. lia.
  - assert (Hm : Zpos (Pos.iter xO mx d) = Zpos mx * 2 ^ (ex - ex')).
    { rewrite iter_xO. f_equal. f_equal. lia. }
    rewrite (@digits2_mul_pow2 mx (ex - ex') _ ltac:(lia) Hm). lia.
Qed.



(** ** The cost of a count of tokens *)





End MagnitudeFacts.

(* ===================================================================== *)
(** * Sums and differences of integers are exact                          *)
(* ===================================================================== *)

Module IntegerFacts.
Import JsNumber ExactFacts MagnitudeFacts.
Local Open Scope Z_scope.

(** Rounding [n * 2^k] at the exponent [-k], for [n] of at most 53 bits,
    gives the Number that holds [n]. *)
Lemma round_scaled s (n m : positive) k :
  0 <= k -> Zpos m = Zpos n * 2 ^ k -> Zpos (digits2_pos n) <= 53 ->
  binary_round prec emax s m (- k)
  = S754_finite s (Z.to_pos (Zpos n * 2 ^ (53 - Zpos (digits2_pos n))))
      (Zpos (digits2_pos n) - 53).
Proof.
  intros Hk Hm Hn. unfold binary_round.
  pose proof (Pos2Z.is_pos (digits2_pos n)) as Hp.
  assert (Hdm : Zpos (digits2_pos m) = Zpos (digits2_pos n) + k)
    by (apply digits2_mul_pow2; assumption).
  rewrite Hdm, fexp_eq.
  replace (Zpos (digits2_pos n) + k + - k) with (Zpos (digits2_pos n)) by lia.
  rewrite Z.max_l by lia.
  destruct (shl_align_spec m (- k) (Zpos (digits2_pos n) - 53))
    as [Hd [Hv He]].
  destruct (shl_align m (- k) (Zpos (digits2_pos n) - 53)) as [mz ez].
  cbn [fst snd] in *.
  pose proof (canon_mantissa n Hn) as HQ.
  set (Q := Z.to_pos (Zpos n * 2 ^ (53 - Zpos (digits2_pos n)))) in *.
  set (L := Zpos (digits2_pos n)) in *.
  cbv beta iota.
  replace (L - 53) with (ez + (L - 53 - ez)) by lia.
  apply round_aux_exact.
  - lia.
  - rewrite Hv, Hm, HQ.
    rewrite <- !Z.mul_assoc, <- !Z.pow_add_r by lia.
    f_equal. f_equal. lia.
  - rewrite Hd, Hdm, fexp_eq. lia.
  - unfold emax, prec. lia.
Qed.

Lemma of_Z_neg n :
  Zpos (digits2_pos n) <= 53 ->
  of_Z (Zneg n)
  = S754_finite true (Z.to_pos (Zpos n * 2 ^ (53 - Zpos (digits2_pos n))))
      (Zpos (digits2_pos n) - 53).
Proof.
  intros Hn. unfold of_Z, binary_normalize.
  change 0 with (- 0). apply round_scaled; lia.
Qed.

Lemma of_Z_pos n :
  Zpos (digits2_pos n) <= 53 ->
  of_Z (Zpos n)
  = S754_finite false (Z.to_pos (Zpos n * 2 ^ (53 - Zpos (digits2_pos n))))
      (Zpos (digits2_pos n) - 53).
Proof.
  intros Hn. unfold of_Z, binary_normalize.
  change 0 with (- 0). apply round_scaled; lia.
Qed.

(** The mantissas of two integers, brought to the lower exponent. *)
Lemma aligned_integer (n : positive) ez :
  Zpos (digits2_pos n) <= 53 -> ez <= Zpos (digits2_pos n) - 53 ->
  Zpos (fst (shl_align
               (Z.to_pos (Zpos n * 2 ^ (53 - Zpos (digits2_pos n))))
               (Zpos (digits2_pos n) - 53) ez))
  = Zpos n * 2 ^ (- ez).
Proof.
  intros Hn He.
  destruct (shl_align_spec
              (Z.to_pos (Zpos n * 2 ^ (53 - Zpos (digits2_pos n))))
              (Zpos (digits2_pos n) - 53) ez) as [_ [Hv Hs]].
  rewrite Hv, Hs, canon_mantissa by assumption.
  rewrite Z.min_r by lia.
  rewrite <- Z.mul_assoc, <- Z.pow_add_r by lia.
  f_equal. f_equal. lia.
Qed.

(** Normalizing [z * 2^k] at the exponent [-k] gives the Number of [z]. *)
Lemma normalize_scaled z e :
  e <= 0 -> - 2 ^ 53 < z < 2 ^ 53 ->
  binary_normalize prec emax (z * 2 ^ (- e)) e false = of_Z z.
Proof.
  intros He Hz. rewrite <- (Z.opp_involutive e) at 2.
  set (k := - e). assert (Hk : 0 <= k) by (unfold k; lia).
  clearbody k. clear He. pose proof (Z.pow_pos_nonneg 2 k ltac:(lia) Hk) as Hpow.
  destruct z as [|n|n].
  - reflexivity.
  - assert (Hn : Zpos (digits2_pos n) <= 53) by (apply digits2_le_53; lia).
    rewrite (of_Z_pos n Hn).
    destruct (Zpos n * 2 ^ k) as [|m|m] eqn:E; try lia.
    unfold binary_normalize. apply round_scaled; auto.
  - assert (Hn : Zpos (digits2_pos n) <= 53) by (apply digits2_le_53; lia).
    rewrite (of_Z_neg n Hn).
    destruct (Zneg n * 2 ^ k) as [|m|m] eqn:E; try lia.
    unfold binary_normalize. apply round_scaled; auto. lia.
Qed.

(** The difference of two non-negative integers below 2^53. *)
Lemma sub_integers a b :
  0 <= a < 2 ^ 53 -> 0 <= b < 2 ^ 53 ->
  sub (of_Z a) (of_Z b) = of_Z (a - b).
Proof.
  intros Ha Hb.
  destruct a as [|a|a]; try lia; destruct b as [|b|b]; try lia.
  - reflexivity.
  - assert (Hn : Zpos (digits2_pos b) <= 53) by (apply digits2_le_53; lia).
    change (0 - Zpos b) with (Zneg b).
    rewrite (of_Z_pos b Hn), (of_Z_neg b Hn). reflexivity.
  - rewrite Z.sub_0_r.
    assert (Hn : Zpos (digits2_pos a) <= 53) by (apply digits2_le_53; lia).
    rewrite (of_Z_pos a Hn). reflexivity.
  - assert (Hda : Zpos (digits2_pos a) <= 53) by (apply digits2_le_53; lia).
    assert (Hdb : Zpos (digits2_pos b) <= 53) by (apply digits2_le_53; lia).
    rewrite (of_Z_pos a Hda), (of_Z_pos b Hdb).
    unfold sub, SFsub. cbn [cond_Zopp].
    set (ez := Z.min (Zpos (digits2_pos a) - 53) (Zpos (digits2_pos b) - 53)).
    rewrite !aligned_integer by (unfold ez; lia).
    rewrite <- Z.mul_sub_distr_r.
    apply normalize_scaled; unfold ez; lia.
Qed.

(** The sum of two non-negative integers, when it is below 2^53. *)
Lemma add_integers a b :
  0 <= a -> 0 <= b -> a + b < 2 ^ 53 ->
  add (of_Z a) (of_Z b) = of_Z (a + b).
Proof.
  intros Ha Hb Hab.
  destruct a as [|a|a]; try lia; destruct b as [|b|b]; try lia.
  - reflexivity.
  - assert (Hn : Zpos (digits2_pos b) <= 53) by (apply digits2_le_53; lia).
    change (0 + Zpos b) with (Zpos b).
    rewrite (of_Z_pos b Hn). reflexivity.
  - rewrite Z.add_0_r.
    assert (Hn : Zpos (digits2_pos a) <= 53) by (apply digits2_le_53; lia).
    rewrite (of_Z_pos a Hn). reflexivity.
  - assert (Hda : Zpos (digits2_pos a) <= 53) by (apply digits2_le_53; lia).
    assert (Hdb : Zpos (digits2_pos b) <= 53) by (apply digits2_le_53; lia).
    rewrite (of_Z_pos a Hda), (of_Z_pos b Hdb).
    unfold add, SFadd. cbn [cond_Zopp].
    set (ez := Z.min (Zpos (digits2_pos a) - 53) (Zpos (digits2_pos b) - 53)).
    rewrite !aligned_integer by (unfold ez; lia).
    rewrite <- Z.mul_add_distr_r.
    apply normalize_scaled; unfold ez; lia.
Qed.

End IntegerFacts.

(* ===================================================================== *)
(** * More about cleaning, trimming and the data-URI prefix               *)
(* ===================================================================== *)

Module TextFacts.
Import JsString Regex Reference.
Import StringFacts HandlerFacts.

(** ** Replacing a marker that does not occur *)

Lemma replace_all_absent a p' s :
  ~ occurs (a :: p') s -> replace_all (a :: p') [] s = s.
Proof.
  induction s as [|c s IH]; intros Hno; simp replace_all; [reflexivity|].
  destruct (starts_with (a :: p') (c :: s)) eqn:E.
  - exfalso. apply Hno. apply starts_with_prefix in E.
    destruct E as [r Hr]. exists [], r. exact Hr.
  - f_equal. apply IH. intros H. apply Hno.
    apply (occurs_app_l [c]) in H. exact H.
Qed.

Lemma occurs_In p s c : occurs p s -> In c p -> In c s.
Proof.
  intros [a [b ->]] Hc. apply in_or_app. right. apply in_or_app. now left.
Qed.

(** ** Replacing around a code unit that the marker does not hold *)

Lemma starts_with_cut p c u b :
  ~ In c p -> starts_with p (u ++ c :: b) = starts_with p u.
Proof.
  unfold starts_with. revert u.
  induction p as [|a p IH]; intros u Hc; [reflexivity|].
  destruct u as [|x u]; cbn [app strip_prefix].
  - destruct (N.eqb_spec a c) as [->|_]; [|reflexivity].
    exfalso. apply Hc. now left.
  - destruct (N.eqb a x); [|reflexivity].
    apply IH. intros H. apply Hc. now right.
Qed.

Lemma starts_with_length p s :
  starts_with p s = true -> length p <= length s.
Proof.
  intros H. apply starts_with_prefix in H. destruct H as [r ->].
  rewrite length_app. lia.
Qed.

Lemma replace_all_cut a p' c b : forall s,
  ~ In c (a :: p') ->
  replace_all (a :: p') [] (s ++ c :: b)
  = replace_all (a :: p') [] s ++ c :: replace_all (a :: p') [] b.
Proof.
  intros s Hc. remember (length s) as n eqn:Hn. revert s Hn.
  induction n as [n IH] using lt_wf_ind. intros s Hn.
  destruct s as [|x s].
  - cbn [app]. simp replace_all.
    rewrite <- (app_nil_l (c :: b)) at 1.
    rewrite starts_with_cut by exact Hc. reflexivity.
  - cbn [app]. simp replace_all.
    change (x :: s ++ c :: b) with ((x :: s) ++ c :: b).
    rewrite starts_with_cut by exact Hc.
    destruct (starts_with (a :: p') (x :: s)) eqn:E.
    + apply starts_with_length in E. cbn [length] in E.
      rewrite skipn_app.
      replace (length p' - length s) with 0 by lia.
      cbn [skipn app].
      apply (IH (length (skipn (length p') s))); [|reflexivity].
      rewrite length_skipn. cbn [length] in Hn. lia.
    + cbn [app]. f_equal.
      apply (IH (length s)); [|reflexivity]. cbn [length] in Hn. lia.
Qed.

(** ** Trimming *)

Lemma trim_start_cut a c r :
  is_white_space c = false ->
  trim_start (a ++ c :: r) = trim_start a ++ c :: r.
Proof.
  intros Hc. induction a as [|x a IH]; cbn [app trim_start].
  - now rewrite Hc.
  - destruct (is_white_space x); [exact IH | reflexivity].
Qed.

Lemma trim_end_cut u d b :
  is_white_space d = false ->
  trim_end (u ++ d :: b) = u ++ d :: trim_end b.
Proof.
  intros Hd. unfold trim_end.
  rewrite rev_app_distr. cbn [rev]. rewrite <- app_assoc. cbn [app].
  rewrite trim_start_cut by exact Hd.
  rewrite rev_app_distr. cbn [rev]. rewrite rev_involutive.
  now rewrite <- app_assoc.
Qed.

Lemma trim_start_head s :
  trim_start s = [] \/
  exists c r, trim_start s = c :: r /\ is_white_space c = false.
Proof.
  induction s as [|x s IH]; [now left|]. cbn [trim_start].
  destruct (is_white_space x) eqn:E; [exact IH|]. right. eauto.
Qed.

Lemma trim_start_fixed c r :
  is_white_space c = false -> trim_start (c :: r) = c :: r.
Proof. intros H. cbn [trim_start]. now rewrite H. Qed.

Lemma trim_start_idem s : trim_start (trim_start s) = trim_start s.
Proof.
  destruct (trim_start_head s) as [->|[c [r [-> Hc]]]]; [reflexivity|].
  now apply trim_start_fixed.
Qed.

Lemma trim_end_idem s : trim_end (trim_end s) = trim_end s.
Proof.
  unfold trim_end. now rewrite rev_involutive, trim_start_idem.
Qed.

(** Trimming the end leaves a text that starts as before. *)
Lemma trim_start_trim_end s :
  trim_start (trim_end (trim_start s)) = trim_end (trim_start s).
Proof.
  destruct (trim_start_head s) as [->|[c [r [-> Hc]]]]; [reflexivity|].
  destruct (trim_end_prefix (c :: r)) as [b Hb].
  destruct (trim_end (c :: r)) as [|c' r'] eqn:E; [reflexivity|].
  cbn [app] in Hb. injection Hb as -> _.
  now apply trim_start_fixed.
Qed.

Lemma trim_idem s : trim (trim s) = trim s.
Proof.
  unfold trim. now rewrite trim_start_trim_end, trim_end_idem.
Qed.

(** Trimming a text whose first and last code units of interest are not
    white space. *)
Lemma trim_cut a c m d b :
  is_white_space c = false -> is_white_space d = false ->
  trim (a ++ c :: m ++ d :: b) = trim_start a ++ c :: m ++ d :: trim_end b.
Proof.
  intros Hc Hd. unfold trim. rewrite trim_start_cut by exact Hc.
  replace (trim_start a ++ c :: m ++ d :: b)
    with ((trim_start a ++ c :: m) ++ d :: b)
    by (now rewrite <- app_assoc).
  rewrite trim_end_cut by exact Hd. now rewrite <- app_assoc.
Qed.

(** ** Texts cut at a separator *)

Lemma cut_at_separator (c : code_unit) : forall a b x y : JsString.t,
  ~ In c a -> ~ In c b -> a ++ c :: x = b ++ c :: y -> a = b /\ x = y.
Proof.
  induction a as [|u a IH]; intros [|v b] x y Ha Hb H; cbn [app] in H.
  - injection H as ->. now split.
  - injection H as <- _. exfalso. apply Hb. now left.
  - injection H as -> _. exfalso. apply Ha. now left.
  - injection H as -> H.
    destruct (IH b x y) as [-> ->]; auto.
    + intros Hin. apply Ha. now right.
    + intros Hin. apply Hb. now right.
Qed.

(** ** The data-URI prefix *)

Lemma star_w_base64_Some : forall s rest,
  Instrumented.star_w_base64 s = Some rest ->
  exists mime,
    forallb Instrumented.is_word_char mime = true
    /\ s = mime ++ lit ";base64," ++ rest.
Proof.
  induction s as [|c s IH]; intros rest; [discriminate|].
  cbn [Instrumented.star_w_base64].
  destruct (Instrumented.is_word_char c) eqn:Hc.
  - destruct (Instrumented.star_w_base64 s) as [r|] eqn:E.
    + intros H. injection H as <-.
      destruct (IH r eq_refl) as [mime [Hw ->]].
      exists (c :: mime). cbn [forallb]. now rewrite Hc, Hw.
    + intros H. apply strip_prefix_Some in H.
      injection H as -> _. discriminate Hc.
  - intros H. apply strip_prefix_Some in H. exists []. now split.
Qed.

(** What the data-URI pattern matches. *)
Lemma match_data_uri_prefix_shape s rest :
  Instrumented.match_data_uri_prefix s = Some rest ->
  exists mime,
    mime <> [] /\ forallb Instrumented.is_word_char mime = true
    /\ s = lit "data:image/" ++ mime ++ lit ";base64," ++ rest.
Proof.
  unfold Instrumented.match_data_uri_prefix.
  destruct (strip_prefix (lit "data:image/") s) as [[|c s']|] eqn:E;
    try discriminate.
  apply strip_prefix_Some in E.
  destruct (Instrumented.is_word_char c) eqn:Hc; [|discriminate].
  intros H. destruct (star_w_base64_Some _ H) as [mime [Hw ->]].
  exists (c :: mime). split; [discriminate|]. split.
  - cbn [forallb]. now rewrite Hc, Hw.
  - exact E.
Qed.

(** ** Clock readings in a request identifier *)

Lemma digits_not_in (c : code_unit) ds :
  JsNumber.is_digit c = false -> forallb JsNumber.is_digit ds = true ->
  ~ In c ds.
Proof.
  intros Hc Hds Hin. rewrite forallb_forall in Hds.
  rewrite (Hds _ Hin) in Hc. discriminate Hc.
Qed.

Lemma time_toString_chars t :
  ~ In 95%N (Instrumented.time_toString t).
Proof.
  unfold Instrumented.time_toString. intros H.
  destruct (DecimalFacts.decimal_digits_spec (Z.abs_N t)) as [_ [Hd _]].
  apply in_app_or in H. destruct H as [H|H].
  - destruct (t <? 0)%Z; [|contradiction H].
    destruct H as [H|[]]. discriminate H.
  - now apply (@digits_not_in 95%N _ eq_refl Hd).
Qed.

Lemma decimal_digits_inj a b :
  JsNumber.decimal_digits a = JsNumber.decimal_digits b -> a = b.
Proof.
  intros H.
  destruct (DecimalFacts.decimal_digits_spec a) as [Ha _].
  destruct (DecimalFacts.decimal_digits_spec b) as [Hb _].
  rewrite <- Ha, <- Hb. now rewrite H.
Qed.

Lemma time_toString_inj a b :
  Instrumented.time_toString a = Instrumented.time_toString b -> a = b.
Proof.
  unfold Instrumented.time_toString. intros H.
  destruct (DecimalFacts.decimal_digits_spec (Z.abs_N a)) as [_ [Hda Hna]].
  destruct (DecimalFacts.decimal_digits_spec (Z.abs_N b)) as [_ [Hdb Hnb]].
  destruct (Z.ltb_spec a 0) as [Ha|Ha], (Z.ltb_spec b 0) as [Hb|Hb];
    cbn [app] in H.
  - injection H as H. apply decimal_digits_inj in H. lia.
  - exfalso. rewrite <- H in Hdb. discriminate Hdb.
  - exfalso. rewrite H in Hda. discriminate Hda.
  - apply decimal_digits_inj in H. lia.
Qed.

End TextFacts.

(* ===================================================================== *)
(** * Running the handlers path by path                                   *)
(* ===================================================================== *)

Module RunFacts.
Import JsString JsNumber Js Regex World.
Import StringFacts HandlerFacts.

(** A parsed reply either is null or undefined, and then every property
    access throws, or it yields a status and a value for every key. *)
Lemma parsed_cases parsed :
  ((parsed = VNull \/ parsed = VUndefined)
   /\ Instrumented.deriveStatus parsed = Throw JsTypeError
   /\ forall k, get parsed k = Throw JsTypeError)
  \/ (parsed <> VNull /\ parsed <> VUndefined
      /\ (exists status, Instrumented.deriveStatus parsed = Ok status)
      /\ forall k, exists v, get parsed k = Ok v).
Proof.
  destruct parsed; try (left; repeat split; auto; fail);
    right; (split; [discriminate|]); (split; [discriminate|]);
    (split; [|intros k; eexists; reflexivity]);
    unfold Instrumented.deriveStatus, get, bind;
    repeat match goal with
           | |- context [if ?b then _ else _] => destruct b
           end; eexists; reflexivity.
Qed.

Lemma estimate_string v kb :
  Instrumented.estimateImageSizeKB v = Ok kb -> exists s, v = VString s.
Proof. destruct v; try discriminate. eauto. Qed.

Lemma estimate_other v e :
  Instrumented.estimateImageSizeKB v = Throw e ->
  e = JsTypeError /\ forall s, v <> VString s.
Proof.
  destruct v; try discriminate; intros H; injection H as <-;
    split; auto; discriminate.
Qed.

#[local] Arguments Instrumented.elapsed : simpl never.
#[local] Arguments Instrumented.time_toString : simpl never.
#[local] Arguments JsString.lit : simpl never.
#[local] Arguments Instrumented.extractJSON : simpl never.
#[local] Arguments Instrumented.estimateImageSizeKB : simpl never.
#[local] Arguments Instrumented.deriveStatus : simpl never.
#[local] Arguments Instrumented.calcTokenCost : simpl never.
#[local] Arguments Instrumented.normalize_confidence : simpl never.
#[local] Arguments Instrumented.error_body : simpl never.
#[local] Arguments Worker.simple_error : simpl never.
#[local] Arguments Worker.clean : simpl never.
#[local] Arguments Regex.match_brace_object : simpl never.
#[local] Arguments Js.get : simpl never.
#[local] Arguments Js.truthy : simpl never.

(** The ways through the instrumented handler, from the last to the first
    point at which it can leave. *)
Ltac split_on_parsed :=
  match goal with
  | |- context [Instrumented.deriveStatus ?p] =>
      destruct (parsed_cases p)
        as [[Hnull [Hst Hprop]]|[Hn1 [Hn2 [[status Hst] Hprop]]]]
  end;
  match goal with
  | H : Instrumented.deriveStatus _ = _ |- _ => rewrite H
  end; cbn;
  [ | repeat match goal with
             | H : forall k, exists v, get _ k = Ok v
               |- context [get ?p ?k] =>
                 let v := fresh "v" in
                 let Hv := fresh "Hv" in
                 destruct (H k) as [v Hv]; rewrite Hv; cbn
             end ].

Ltac instrumented_paths :=
  run;
  match goal with
  | |- context [get ?req (lit "base64Image")] =>
      destruct (get req (lit "base64Image")) as [img|e] eqn:Hget
  end; cbn;
  [ match goal with
    | |- context [truthy ?i] => destruct (truthy i) eqn:Himg
    end; cbn;
    [ match goal with
      | |- context [Instrumented.estimateImageSizeKB ?i] =>
          destruct (Instrumented.estimateImageSizeKB i) as [kb|e] eqn:Hkb
      end; cbn;
      [ match goal with
        | |- context [openai_create ?ev ?rq] =>
            destruct (openai_create ev rq) as [reply|e] eqn:Hai
        end; cbn;
        [ match goal with
          | |- context [Instrumented.extractJSON ?p ?t] =>
              destruct (Instrumented.extractJSON p t) as [parsed|e] eqn:Hex
          end; cbn;
          [ split_on_parsed | ]
        | ]
      | ]
    | ]
  | ].

Ltac split_on_worker_parsed :=
  match goal with
  | |- context [get ?p (lit "transactionId")] =>
      destruct (parsed_cases p)
        as [[Hnull [Hst Hprop]]|[Hn1 [Hn2 [[status Hst] Hprop]]]]
  end;
  [ match goal with
    | H : forall k, get _ k = Throw JsTypeError |- _ => rewrite !H
    end; cbn
  | repeat match goal with
           | H : forall k, exists v, get _ k = Ok v
             |- context [get ?p ?k] =>
               let v := fresh "v" in
               let Hv := fresh "Hv" in
               destruct (H k) as [v Hv]; rewrite Hv; cbn
           end ].

(** The ways through the worker's handler. *)
Ltac worker_paths :=
  run;
  match goal with
  | |- context [get ?req (lit "base64Image")] =>
      destruct (get req (lit "base64Image")) as [img|e] eqn:Hget
  end; cbn;
  [ match goal with
    | |- context [truthy ?i] => destruct (truthy i) eqn:Himg
    end; cbn;
    [ match goal with
      | |- context [openai_create ?ev ?rq] =>
          destruct (openai_create ev rq) as [reply|e] eqn:Hai
      end; cbn;
      [ match goal with
        | |- context [match_brace_object ?c] =>
            destruct (match_brace_object c) as [match0|] eqn:Hmatch
        end; cbn;
        [ match goal with
          | |- context [JSON_parse ?ev ?m] =>
              destruct (JSON_parse ev m) as [parsed|] eqn:Hparse
          end; cbn;
          [ split_on_worker_parsed | ]
        | ]
      | ]
    | ]
  | ].

Ltac image_facts :=
  try match goal with
      | H : Instrumented.estimateImageSizeKB _ = Ok _ |- _ =>
          let s := fresh "s" in
          destruct (@estimate_string _ _ H) as [s ->]
      end;
  try match goal with
      | H : Instrumented.estimateImageSizeKB _ = Throw _ |- _ =>
          destruct (@estimate_other _ _ H) as [-> Hnostr]
      end.

(** Facts that cannot hold together on one way through the handler. *)
Ltac clash :=
  repeat match goal with
         | H : exists _, _ |- _ => destruct H
         | H : _ /\ _ |- _ => destruct H
         end;
  repeat match goal with
         | H : Ok _ = Ok _ |- _ => injection H as H; subst
         | H : Throw _ = Ok _ |- _ => discriminate H
         | H : Ok _ = Throw _ |- _ => discriminate H
         | H : Throw _ = Throw _ |- _ => injection H as H; subst
         | H1 : ?x = Ok ?a, H2 : ?x = Ok ?b |- _ =>
             assert (a = b) by congruence; clear H2; subst
         | H1 : ?x = Ok _, H2 : ?x = Throw _ |- _ =>
             rewrite H1 in H2; discriminate H2
         | H1 : ?x = true, H2 : ?x = false |- _ =>
             rewrite H1 in H2; discriminate H2
         end;
  try match goal with
      | H : truthy (VString ?s) = false, Hs : ?s <> [] |- _ =>
          destruct s; [now contradiction Hs | discriminate H]
      end;
  try match goal with
      | H : forall s, VString ?x <> VString s |- _ =>
          now contradiction (H x)
      end;
  try match goal with
      | H : _ = VNull \/ _ = VUndefined |- _ => destruct H; congruence
      end;
  try congruence.



End RunFacts.

(* ===================================================================== *)
(** * What the JSON parser returns for a text in braces                   *)
(* ===================================================================== *)

Module JsonFacts.
Import JsString JsNumber Js Regex.

(** The members of an object, once read, make an object. *)
Lemma parse_members_object : forall fuel s acc v rest,
  Json.parse_members fuel s acc = Some (v, rest) ->
  exists props, v = VObject props.
Proof.
  induction fuel as [|fuel IH]; intros s acc v rest; [discriminate|].
  cbn [Json.parse_members].
  destruct (Json.skip_ws s) as [|c r]; [discriminate|].
  destruct (c =? 34)%N; [|discriminate].
  destruct (Json.string_chars r []) as [[k rest1]|]; [|discriminate].
  destruct (Json.skip_ws rest1) as [|c1 rest2]; [discriminate|].
  destruct (c1 =? 58)%N; [|discriminate].
  destruct (Json.parse_value fuel rest2) as [[v0 rest3]|]; [|discriminate].
  destruct (Json.skip_ws rest3) as [|c3 rest4]; [discriminate|].
  destruct (c3 =? 44)%N; [apply IH|].
  destruct (c3 =? 125)%N; [|discriminate].
  intros H. injection H as <- _. eauto.
Qed.

(** A text that starts with an opening brace parses to an object, if it
    parses at all. *)
Lemma parse_brace_object text v :
  Json.parse (LBRACE :: text) = Some v -> exists props, v = VObject props.
Proof.
  unfold Json.parse.
  destruct (Json.parse_value _ _) as [[v0 rest]|] eqn:E; [|discriminate].
  destruct (Json.skip_ws rest); [|discriminate].
  intros H. injection H as <-.
  revert E. generalize (2 * length (LBRACE :: text) + 2)%nat. intros fuel.
  destruct fuel as [|fuel]; [discriminate|].
  cbn [Json.parse_value]. change (Json.skip_ws (LBRACE :: text)) with (LBRACE :: text).
  change (LBRACE =? 123)%N with true. cbv iota.
  destruct (Json.skip_ws text) as [|c2 rest2]; [discriminate|].
  destruct (c2 =? 125)%N.
  - intros H. injection H as <- _. eauto.
  - apply parse_members_object.
Qed.

End JsonFacts.

(* ===================================================================== *)
(** * The claims                                                          *)
(* ===================================================================== *)

Import JsString JsNumber Js Regex World Outcome.
Import StringFacts HandlerFacts NumberFacts ExactFacts DecimalFacts.
Import MagnitudeFacts.
Import Reference.

(** ** Response Extractor *)

(** C1.  For every raw reply, [extractJSON] is the reference algorithm:
    remove every json-tagged fence and every bare fence, trim, take the
    text from the first opening brace to the last closing brace, parse it.
    The worker locates the same substring.  No fence marker is left in the
    cleaned text, and prose before the first opening brace or after the
    last closing brace does not prevent extraction. *)
Theorem extractJSON_refines_reference :
  forall (JSON_parse : JsString.t -> option value) (raw : JsString.t),
    let cleaned := trim (Reference.remove_fences raw) in
    Instrumented.extractJSON JSON_parse raw = Reference.extract JSON_parse raw
    /\ match_brace_object (Worker.clean raw) = Reference.outer_braces cleaned
    /\ ~ occurs Reference.fence cleaned
    /\ ~ occurs Reference.fence_json cleaned
    /\ (forall pre mid post,
          cleaned = pre ++ LBRACE :: mid ++ RBRACE :: post ->
          ~ In LBRACE pre -> ~ In RBRACE post ->
          Instrumented.extractJSON JSON_parse raw =
          match JSON_parse (LBRACE :: mid ++ [RBRACE]) with
          | Some v => Ok v
          | None => Throw JsSyntaxError
          end).
Proof.
  intros JSON_parse raw cleaned.
  assert (Hex : Instrumented.extractJSON JSON_parse raw
                = Reference.extract JSON_parse raw).
  { unfold Instrumented.extractJSON, Reference.extract.
    now rewrite <- remove_fences_replace, match_brace_object_outer. }
  split; [exact Hex|].
  split; [unfold Worker.clean; rewrite <- remove_fences_replace;
          apply match_brace_object_outer|].
  destruct (cleaned_has_no_fence raw) as [Hf Hj].
  split; [exact Hf|]. split; [exact Hj|].
  intros pre mid post Hc Hpre Hpost.
  unfold Instrumented.extractJSON. rewrite <- remove_fences_replace.
  fold cleaned. now rewrite Hc, match_brace_object_app.
Qed.

Lemma extractJSON_refines_reference_witness :
  Instrumented.extractJSON Json.parse Sample.chatty_reply = Ok Sample.slip.
Proof.
  destruct (extractJSON_refines_reference Json.parse Sample.chatty_reply)
    as [_ [_ [_ [_ H]]]].
  rewrite (H (lit "Sure! ")
             (removelast (tl Sample.slip_json))
             (lit " Thanks")).
  - vm_compute. reflexivity.
  - vm_compute. reflexivity.
  - vm_compute. intros H0.
    repeat (destruct H0 as [H0|H0]; [discriminate H0|]). exact H0.
  - vm_compute. intros H0.
    repeat (destruct H0 as [H0|H0]; [discriminate H0|]). exact H0.
Defined.

(** C2.  When the cleaned text has no substring from an opening brace to a
    later closing brace, and in particular when the reply has no opening
    brace at all, extraction returns no object: [extractJSON] throws its
    own error, which is not the parser's SyntaxError and does not depend on
    the parser; the worker finds no match and answers 500 with its own
    message for this case. *)
Theorem extractJSON_no_object :
  forall (JSON_parse : JsString.t -> option value) (raw : JsString.t),
    let not_found :=
      Instrumented.extractJSON JSON_parse raw
        = Throw (JsError (lit "No JSON object found in AI response"))
      /\ Instrumented.extractJSON JSON_parse raw <> Throw JsSyntaxError
      /\ (forall v, Instrumented.extractJSON JSON_parse raw <> Ok v)
      /\ match_brace_object (Worker.clean raw) = None
      /\ (forall ev st req image reply,
            get req (lit "base64Image") = Ok image -> truthy image = true ->
            openai_create ev {| req_model := lit "gpt-4.1-mini";
                                req_image_url := image |} = Ok reply ->
            output_text reply = raw ->
            exists st',
              Worker.parse_slip req ev st =
              (Ok {| status_code := 500;
                     body := Worker.simple_error (lit "Invalid AI response") |},
               st')) in
    (~ Reference.has_brace_pair (trim (Reference.remove_fences raw)) ->
     not_found)
    /\ (~ In LBRACE raw -> not_found).
Proof.
  intros JSON_parse raw not_found.
  assert (H1 : ~ Reference.has_brace_pair (trim (Reference.remove_fences raw))
               -> not_found).
  { intros Hno.
    assert (Hm : match_brace_object (trim (Reference.remove_fences raw)) = None).
    { destruct (match_brace_object (trim (Reference.remove_fences raw)))
        as [m|] eqn:E; [|reflexivity].
      exfalso. apply Hno.
      destruct (match_brace_object_Some _ E) as [a [mid [b [Hs _]]]].
      exists a, mid, b. exact Hs. }
    assert (Hw : match_brace_object (Worker.clean raw) = None).
    { unfold Worker.clean. now rewrite <- remove_fences_replace. }
    unfold not_found, Instrumented.extractJSON.
    rewrite <- remove_fences_replace, Hm.
    repeat match goal with |- _ /\ _ => split end; try congruence.
    intros ev st req image reply Hget Hv Hai Hout. eexists.
    apply (worker_parse_slip_no_match ev st req Hget Hv Hai).
    now rewrite Hout. }
  split; [exact H1|].
  intros Hno. apply H1. intros [a [mid [b Hs]]]. apply Hno.
  apply In_cleaned. rewrite Hs. apply in_or_app. right. now left.
Qed.

Lemma extractJSON_no_object_witness :
  Instrumented.extractJSON Json.parse Sample.refusal_reply
  = Throw (JsError (lit "No JSON object found in AI response")).
Proof.
  destruct (extractJSON_no_object Json.parse Sample.refusal_reply) as [_ H].
  apply H. vm_compute. intros H0.
  repeat (destruct H0 as [H0|H0]; [discriminate H0|]). exact H0.
Defined.

(** ** Result Normalizer *)

(** C3.  For every parsed object, [deriveStatus] returns complete when
    [transactionId] and [toAccountNumber] are both truthy, partial when
    exactly one of them is, and empty when neither is; the two examples of
    the specification are instances, and the status of a successful
    response is what [deriveStatus] returns on the parsed reply. *)
Theorem deriveStatus_classifies :
  forall props : list (JsString.t * value),
    let hasTransaction := truthy (lookup props (lit "transactionId")) in
    let hasAccount := truthy (lookup props (lit "toAccountNumber")) in
    (hasTransaction = true -> hasAccount = true ->
     Instrumented.deriveStatus (VObject props) = Ok (lit "complete"))
    /\ (xorb hasTransaction hasAccount = true ->
        Instrumented.deriveStatus (VObject props) = Ok (lit "partial"))
    /\ (hasTransaction = false -> hasAccount = false ->
        Instrumented.deriveStatus (VObject props) = Ok (lit "empty"))
    /\ Instrumented.deriveStatus
         (VObject [ (lit "transactionId", VString (lit "T1"));
                    (lit "toAccountNumber", VNull) ]) = Ok (lit "partial")
    /\ Instrumented.deriveStatus
         (VObject [ (lit "transactionId", VNull);
                    (lit "toAccountNumber", VNull) ]) = Ok (lit "empty")
    /\ (forall ev st st' req resp,
          Instrumented.parse_slip req ev st = (Ok resp, st') ->
          status_code resp = 200%Z ->
          exists reply parsed status,
            Instrumented.extractJSON (JSON_parse ev) (output_text reply)
              = Ok parsed
            /\ Instrumented.deriveStatus parsed = Ok status
            /\ field (body resp) (lit "status") = VString status).
Proof.
  intros props hasTransaction hasAccount.
  assert (H : Instrumented.deriveStatus (VObject props) =
              Ok (if hasTransaction && hasAccount then lit "complete"
                  else if hasTransaction || hasAccount then lit "partial"
                  else lit "empty")).
  { unfold Instrumented.deriveStatus, get, bind.
    fold hasTransaction hasAccount.
    destruct hasTransaction, hasAccount; reflexivity. }
  rewrite H.
  repeat match goal with |- _ /\ _ => split end; try reflexivity.
  - intros -> ->. reflexivity.
  - destruct hasTransaction, hasAccount; simpl; intros; congruence.
  - intros -> ->. reflexivity.
  - intros ev st st' req resp Hrun Hs.
    destruct (parse_slip_outcome ev st req) as [resp0 [st0 [Hrun0 Hcase]]].
    rewrite Hrun in Hrun0. injection Hrun0 as <- <-.
    destruct Hcase as [[H4 _]|[[H5 _]|[_ Hok]]]; [congruence|congruence|].
    destruct Hok as (image & reply & parsed & tid & acc & raw & score & _ & _
                     & _ & Hex & _ & _ & _ & _ & _ & _ & _ & status & Hst & Hf).
    exists reply, parsed, status. auto.
Qed.

Lemma deriveStatus_classifies_witness :
  Instrumented.deriveStatus Sample.slip = Ok (lit "complete").
Proof.
  destruct (deriveStatus_classifies
              [ (lit "transactionId", VString (lit "T1"));
                (lit "toAccountNumber", VString (lit "A1")) ])
    as [H _].
  apply H; reflexivity.
Defined.

(** C4.  For every parsed object, the normalized confidence score is the
    parsed [confidenceScore] held within the closed interval from 0 to 100
    when that field is a number, and null when the field is absent or is
    not a number; 150 becomes 100, the text high becomes null, and a score
    within the interval is returned as it is (a negative zero as zero).
    This is the [aiScore] of every successful response.  A parsed reply
    holds no NaN. *)
Theorem confidence_is_clamped :
  forall props : list (JsString.t * value),
    let score := lookup props (lit "confidenceScore") in
    (forall x, score = VNumber x -> is_nan x = false ->
       exists r,
         Instrumented.normalize_confidence score = VNumber r
         /\ leb (of_Z 0) r = true /\ leb r (of_Z 100) = true
         /\ (ltb x (of_Z 0) = true -> r = of_Z 0)
         /\ (ltb (of_Z 100) x = true -> r = of_Z 100)
         /\ (leb (of_Z 0) x = true -> leb x (of_Z 100) = true ->
             r = x \/ (x = neg_zero /\ r = pos_zero)))
    /\ ((forall x, score <> VNumber x) ->
        Instrumented.normalize_confidence score = VNull)
    /\ Instrumented.normalize_confidence VUndefined = VNull
    /\ Instrumented.normalize_confidence (VNumber (of_Z 150))
       = VNumber (of_Z 100)
    /\ Instrumented.normalize_confidence (VString (lit "high")) = VNull
    /\ (forall ev st st' req resp,
          Instrumented.parse_slip req ev st = (Ok resp, st') ->
          status_code resp = 200%Z ->
          exists reply parsed confidenceScore,
            Instrumented.extractJSON (JSON_parse ev) (output_text reply)
              = Ok parsed
            /\ get parsed (lit "confidenceScore") = Ok confidenceScore
            /\ field (body resp) (lit "aiScore")
               = Instrumented.normalize_confidence confidenceScore).
Proof.
  intros props score.
  repeat match goal with |- _ /\ _ => split end.
  - intros x Hs Hx. rewrite Hs. unfold Instrumented.normalize_confidence.
    eexists. split; [reflexivity|]. exact (clamp_spec x Hx).
  - intros Hn. destruct score; try reflexivity. exfalso. eapply Hn. reflexivity.
  - reflexivity.
  - vm_compute. reflexivity.
  - reflexivity.
  - intros ev st st' req resp Hrun Hs.
    destruct (parse_slip_outcome ev st req) as [resp0 [st0 [Hrun0 Hcase]]].
    rewrite Hrun in Hrun0. injection Hrun0 as <- <-.
    destruct Hcase as [[H4 _]|[[H5 _]|[_ Hok]]]; [congruence|congruence|].
    destruct Hok as (image & reply & parsed & tid & acc & raw & cs & _ & _
                     & _ & Hex & _ & _ & _ & Hcs & _ & _ & Hscore & _).
    exists reply, parsed, cs. auto.
Qed.

Lemma confidence_is_clamped_witness :
  exists r,
    Instrumented.normalize_confidence (VNumber (decimal 875 1)) = VNumber r
    /\ r = decimal 875 1.
Proof.
  destruct (confidence_is_clamped [ (lit "confidenceScore", VNumber (decimal 875 1)) ])
    as [H _].
  destruct (H (decimal 875 1) eq_refl eq_refl) as [r [Hr [_ [_ [_ [_ Hin]]]]]].
  exists r. split; [exact Hr|].
  destruct Hin as [Hin|[Hin _]].
  - vm_compute. reflexivity.
  - vm_compute. reflexivity.
  - exact Hin.
  - vm_compute in Hin. discriminate Hin.
Defined.

(** ** Responses *)

(** C5.  In every successful response each extracted field is the truthy
    value of the parsed reply or null, never an empty string: a field that
    is absent, null or empty in the parsed reply surfaces as null.  The
    parsed reply is what the program extracted from the reply that the
    model gave for the image of this request.  The instrumented server
    sends the three fields, and nothing else, under [data]; the worker
    sends them at the top level, the raw text under the key text. *)
Theorem success_fields_truthy_or_null :
  forall (ev : env) (st st' : state) (req : value) (resp : http_response),
    status_code resp = 200%Z ->
    let surfaces (parsed sent : value) (k k' : JsString.t) :=
      exists v,
        get parsed k = Ok v
        /\ field sent k' = (if truthy v then v else VNull)
        /\ field sent k' <> VString []
        /\ (v = VUndefined \/ v = VNull \/ v = VString [] ->
            field sent k' = VNull) in
    (Instrumented.parse_slip req ev st = (Ok resp, st') ->
     exists image reply parsed,
       get req (lit "base64Image") = Ok image
       /\ openai_create ev {| req_model := lit "gpt-4.1-mini";
                              req_image_url := image |} = Ok reply
       /\ Instrumented.extractJSON (JSON_parse ev) (output_text reply)
          = Ok parsed
       /\ (exists a b c,
              field (body resp) (lit "data")
              = VObject [ (lit "transactionId", a);
                          (lit "toAccountNumber", b);
                          (lit "rawText", c) ])
       /\ forall k, In k [lit "transactionId"; lit "toAccountNumber";
                          lit "rawText"] ->
          surfaces parsed (field (body resp) (lit "data")) k k)
    /\ (Worker.parse_slip req ev st = (Ok resp, st') ->
        exists image reply match0 parsed,
          get req (lit "base64Image") = Ok image
          /\ openai_create ev {| req_model := lit "gpt-4.1-mini";
                                 req_image_url := image |} = Ok reply
          /\ match_brace_object (Worker.clean (output_text reply))
             = Some match0
          /\ JSON_parse ev match0 = Some parsed
          /\ (exists a b c,
                 body resp
                 = VObject [ (lit "transactionId", a);
                             (lit "toAccountNumber", b);
                             (lit "text", c) ])
          /\ forall k k',
               In (k, k') [ (lit "transactionId", lit "transactionId");
                            (lit "toAccountNumber", lit "toAccountNumber");
                            (lit "rawText", lit "text") ] ->
               surfaces parsed (body resp) k k').
Proof.
  intros ev st st' req resp Hs surfaces.
  assert (Hsurf : forall v,
             or_else v VNull = (if truthy v then v else VNull)
             /\ or_else v VNull <> VString []
             /\ (v = VUndefined \/ v = VNull \/ v = VString [] ->
                 or_else v VNull = VNull)).
  { intros v. destruct (or_else_null v) as [H1 [H2 _]].
    split; [exact H1|]. split; [exact H2|].
    intros [->|[->| ->]]; reflexivity. }
  split.
  - intros Hrun.
    destruct (parse_slip_outcome ev st req) as [resp0 [st0 [Hrun0 Hcase]]].
    rewrite Hrun in Hrun0. injection Hrun0 as <- <-.
    destruct Hcase as [[H4 _]|[[H5 _]|[_ Hok]]]; [congruence|congruence|].
    destruct Hok as (image & reply & parsed & tid & acc & raw & score & Hget & _
                     & Hai & Hex & Htid & Hacc & Hraw & _ & _ & Hdata & _).
    exists image, reply, parsed.
    split; [exact Hget|]. split; [exact Hai|]. split; [exact Hex|].
    rewrite Hdata. split; [eexists _, _, _; reflexivity|].
    intros k Hk. unfold surfaces.
    destruct Hk as [<-|[<-|[<-|[]]]].
    + exists tid. split; [exact Htid|].
      change (field _ (lit "transactionId")) with (or_else tid VNull).
      apply Hsurf.
    + exists acc. split; [exact Hacc|].
      change (field _ (lit "toAccountNumber")) with (or_else acc VNull).
      apply Hsurf.
    + exists raw. split; [exact Hraw|].
      change (field _ (lit "rawText")) with (or_else raw VNull).
      apply Hsurf.
  - intros Hrun.
    destruct (worker_parse_slip_outcome ev st req)
      as [resp0 [st0 [Hrun0 Hcase]]].
    rewrite Hrun in Hrun0. injection Hrun0 as <- <-.
    destruct Hcase as [[H4 _]|[[H5 _]|[_ Hok]]]; [congruence|congruence|].
    destruct Hok as (image & reply & m & parsed & tid & acc & raw & Hget & _
                     & Hai & Hm & Hp & Htid & Hacc & Hraw & Hbody).
    exists image, reply, m, parsed.
    split; [exact Hget|]. split; [exact Hai|]. split; [exact Hm|].
    split; [exact Hp|].
    rewrite Hbody. split; [eexists _, _, _; reflexivity|].
    intros k k' Hk. unfold surfaces.
    destruct Hk as [Hk|[Hk|[Hk|[]]]]; injection Hk as <- <-.
    + exists tid. split; [exact Htid|].
      change (field _ (lit "transactionId")) with (or_else tid VNull).
      apply Hsurf.
    + exists acc. split; [exact Hacc|].
      change (field _ (lit "toAccountNumber")) with (or_else acc VNull).
      apply Hsurf.
    + exists raw. split; [exact Hraw|].
      change (field _ (lit "text")) with (or_else raw VNull).
      apply Hsurf.
Qed.

Lemma success_fields_truthy_or_null_witness :
  exists resp st',
    Instrumented.parse_slip Sample.request
      (Sample.surroundings Sample.partial_reply) World.initial = (Ok resp, st')
    /\ status_code resp = 200%Z
    /\ field (body resp) (lit "data")
       = VObject [ (lit "transactionId", VString (lit "T1"));
                   (lit "toAccountNumber", VNull);
                   (lit "rawText", VNull) ]
    /\ exists image reply parsed,
         get Sample.request (lit "base64Image") = Ok image
         /\ openai_create (Sample.surroundings Sample.partial_reply)
              {| req_model := lit "gpt-4.1-mini"; req_image_url := image |}
            = Ok reply
         /\ Instrumented.extractJSON Json.parse (output_text reply) = Ok parsed
         /\ (exists a b c,
                field (body resp) (lit "data")
                = VObject [ (lit "transactionId", a);
                            (lit "toAccountNumber", b);
                            (lit "rawText", c) ])
         /\ forall k, In k [lit "transactionId"; lit "toAccountNumber";
                            lit "rawText"] ->
            exists v,
              get parsed k = Ok v
              /\ field (field (body resp) (lit "data")) k
                 = (if truthy v then v else VNull)
              /\ field (field (body resp) (lit "data")) k <> VString []
              /\ (v = VUndefined \/ v = VNull \/ v = VString [] ->
                  field (field (body resp) (lit "data")) k = VNull).
Proof.
  eexists _, _. split; [vm_compute; reflexivity|].
  split; [reflexivity|]. split; [vm_compute; reflexivity|].
  refine (proj1 (@success_fields_truthy_or_null
                   (Sample.surroundings Sample.partial_reply) World.initial _
                   Sample.request _ _) _).
  - reflexivity.
  - vm_compute. reflexivity.
Defined.






(** C10.  A request whose [base64Image] is falsy (the empty string, zero,
    false or null) is treated exactly like a request without the field:
    same answer, same log, and the model is never called. *)
Theorem falsy_image_is_missing_image :
  forall (ev : env) (st : state) (req : value) (v : value),
    get req (lit "base64Image") = Ok v ->
    truthy v = false ->
    Instrumented.parse_slip req ev st
      = Instrumented.parse_slip (VObject []) ev st
    /\ Worker.parse_slip req ev st = Worker.parse_slip (VObject []) ev st
    /\ (exists resp st',
          Instrumented.parse_slip req ev st = (Ok resp, st')
          /\ status_code resp = 400%Z
          /\ field (body resp) (lit "error") = VString (lit "Missing image")
          /\ model_calls st' = model_calls st)
    /\ (exists resp st',
          Worker.parse_slip req ev st = (Ok resp, st')
          /\ status_code resp = 400%Z
          /\ field (body resp) (lit "error") = VString (lit "Missing image")
          /\ model_calls st' = model_calls st)
    /\ truthy (VString []) = false
    /\ truthy (VNumber (of_Z 0)) = false
    /\ truthy (VNumber neg_zero) = false
    /\ truthy (VBool false) = false
    /\ truthy VNull = false.
Proof.
  intros ev st req v Hget Hv.
  assert (Habs : get (VObject []) (lit "base64Image") = Ok VUndefined)
    by reflexivity.
  rewrite (parse_slip_missing ev st req Hget Hv).
  rewrite (parse_slip_missing ev st (VObject []) Habs eq_refl).
  rewrite (worker_parse_slip_missing ev st req Hget Hv).
  rewrite (worker_parse_slip_missing ev st (VObject []) Habs eq_refl).
  repeat split.
  - eexists _, _. repeat split.
  - eexists _, _. repeat split.
Qed.

Lemma falsy_image_is_missing_image_witness :
  Instrumented.parse_slip (VObject [ (lit "base64Image", VString []) ])
    (Sample.surroundings Sample.chatty_reply) World.initial
  = Instrumented.parse_slip (VObject [])
      (Sample.surroundings Sample.chatty_reply) World.initial.
Proof.
  exact (proj1 (@falsy_image_is_missing_image
                  (Sample.surroundings Sample.chatty_reply) World.initial
                  (VObject [ (lit "base64Image", VString []) ]) (VString [])
                  eq_refl eq_refl)).
Defined.

(** ** Telemetry *)

(** C8, as the code has it.  For every string, [estimateImageSizeKB]
    removes a leading prefix [data:image/<type>;base64,] whose type is one
    or more letters, digits or underscores, and nothing else: a string that
    is not of this shape is measured whole.  It returns the length of what
    remains times 3, divided by 4 and by 1024, rounded to the nearest
    integer (halves upwards); a remainder of 1368 code units gives 1.  The
    prefix of an SVG image is not removed, so that 670 code units after it
    give 1.  The bound on the length holds for every string an engine can
    hold. *)
Theorem estimateImageSizeKB_rounds :
  forall s : JsString.t,
    let base := Instrumented.strip_data_uri s in
    let len := Z.of_nat (length base) in
    (3 * len < 2 ^ 53)%Z ->
    let kb := ((3 * len + 2048) / 4096)%Z in
    Instrumented.estimateImageSizeKB (VString s) = Ok (of_Z kb)
    /\ ((2 * kb - 1) * 4096 <= 2 * (3 * len) < (2 * kb + 1) * 4096)%Z
    /\ (forall mime body,
          mime <> [] -> forallb Instrumented.is_word_char mime = true ->
          s = lit "data:image/" ++ mime ++ lit ";base64," ++ body ->
          base = body)
    /\ (base = s
        \/ exists mime,
             mime <> [] /\ forallb Instrumented.is_word_char mime = true
             /\ s = lit "data:image/" ++ mime ++ lit ";base64," ++ base)
    /\ (length base = 1368 ->
        Instrumented.estimateImageSizeKB (VString s) = Ok (of_Z 1))
    /\ Instrumented.estimateImageSizeKB
         (VString (lit "data:image/svg+xml;base64," ++ repeat 65%N 670))
       = Ok (of_Z 1).
Proof.
  intros s base len Hlen kb.
  assert (Hkb : Instrumented.estimateImageSizeKB (VString s) = Ok (of_Z kb)).
  { unfold Instrumented.estimateImageSizeKB. fold base. fold len.
    rewrite image_size_exact; [reflexivity| lia | exact Hlen]. }
  split; [exact Hkb|]. split; [|split; [|split; [|split]]].
  - unfold kb.
    pose proof (Z.div_mod (3 * len + 2048) 4096 ltac:(lia)) as Hdm.
    pose proof (Z.mod_pos_bound (3 * len + 2048) 4096 ltac:(lia)) as Hb.
    lia.
  - intros mime body Hne Hw ->. unfold base.
    now apply strip_data_uri_prefix.
  - unfold base, Instrumented.strip_data_uri.
    destruct (Instrumented.match_data_uri_prefix s) as [rest|] eqn:E;
      [|now left].
    right. exact (TextFacts.match_data_uri_prefix_shape _ E).
  - intros H1368. rewrite Hkb. unfold kb, len. rewrite H1368. reflexivity.
  - vm_compute. reflexivity.
Qed.

Lemma estimateImageSizeKB_rounds_witness :
  Instrumented.estimateImageSizeKB
    (VString (lit "data:image/png;base64," ++ repeat 65%N 1368))
  = Ok (of_Z 1).
Proof.
  refine (proj1 (proj2 (proj2 (proj2 (proj2
            (@estimateImageSizeKB_rounds
               (lit "data:image/png;base64," ++ repeat 65%N 1368) _))))) _).
  - vm_compute. reflexivity.
  - vm_compute. reflexivity.
Defined.

(** C8, as stated, fails on a data URI whose media type (a text without
    semicolon or comma) holds a character other than a letter, a digit or
    an underscore: the prefix of an SVG image stays, and the 670 code
    units after it, which alone round to 0, are estimated as 1. *)
Lemma svg_prefix_is_not_stripped :
  ~ (forall mime body : JsString.t,
       ~ In 59%N mime -> ~ In 44%N mime ->
       Instrumented.estimateImageSizeKB
         (VString (lit "data:image/" ++ mime ++ lit ";base64," ++ body))
       = Ok (Math_round
               (div (div (mul (of_Z (Z.of_nat (length body))) (of_Z 3))
                         (of_Z 4))
                    (of_Z 1024)))).
Proof.
  intros H.
  specialize (H (lit "svg+xml") (repeat 65%N 670)).
  assert (Hs : ~ In 59%N (lit "svg+xml")).
  { vm_compute. intros H0.
    repeat (destruct H0 as [H0|H0]; [discriminate H0|]). exact H0. }
  assert (Hc : ~ In 44%N (lit "svg+xml")).
  { vm_compute. intros H0.
    repeat (destruct H0 as [H0|H0]; [discriminate H0|]). exact H0. }
  specialize (H Hs Hc). vm_compute in H. discriminate H.
Qed.


(** At an exact decimal half the double-precision sum may lie on either
    side of it: 2 and 12 tokens cost 0.0000075 and give 0.000007, 2 and 2
    tokens cost 0.0000015 and give 0.000002. *)
Remark calcTokenCost_at_decimal_halves :
  Instrumented.calcTokenCost (of_Z 2) (of_Z 12) = decimal 7 6
  /\ Instrumented.calcTokenCost (of_Z 2) (of_Z 2) = decimal 2 6.
Proof. split; vm_compute; reflexivity. Qed.


(* ===================================================================== *)
(** * The programs on sample requests                                     *)
(* ===================================================================== *)

(** A fenced reply is parsed like the bare object. *)
Example fenced_reply_is_extracted :
  Instrumented.extractJSON Json.parse Sample.fenced_reply = Ok Sample.slip.
Proof. vm_compute. reflexivity. Qed.

(** Braces in the prose after the object spoil the match: the substring
    then runs to the last closing brace and does not parse. *)
Example stray_brace_breaks_extraction :
  Instrumented.extractJSON Json.parse (Sample.slip_json ++ lit " :-}")
  = Throw JsSyntaxError.
Proof. vm_compute. reflexivity. Qed.

(** The parser lists the keys of an object as the engine does: array
    indices first, in ascending order; a key that comes twice keeps its
    first place and its last value. *)
Example keys_are_listed_as_the_engine_does :
  Json.parse (lit "{" ++ quoted (lit "b") ++ lit ":1,"
              ++ quoted (lit "2") ++ lit ":2,"
              ++ quoted (lit "01") ++ lit ":3,"
              ++ quoted (lit "1") ++ lit ":4,"
              ++ quoted (lit "b") ++ lit ":5}")
  = Some (VObject [ (lit "1", VNumber (of_Z 4));
                    (lit "2", VNumber (of_Z 2));
                    (lit "b", VNumber (of_Z 5));
                    (lit "01", VNumber (of_Z 3)) ]).
Proof. vm_compute. reflexivity. Qed.

(** A complete slip: status complete, no score, the cost of 2000 and 500
    tokens, one call of the model, nine readings of the clock. *)
Example complete_slip_is_answered :
  exists resp st',
    Instrumented.parse_slip Sample.request
      (Sample.surroundings Sample.chatty_reply) World.initial = (Ok resp, st')
    /\ status_code resp = 200%Z
    /\ field (body resp) (lit "requestId")
       = VString (lit "req_1700000000000_k3x9q")
    /\ field (body resp) (lit "status") = VString (lit "complete")
    /\ field (body resp) (lit "aiScore") = VNull
    /\ field (field (field (body resp) (lit "meta")) (lit "tokens"))
         (lit "estimatedCostUSD") = VNumber (decimal 6 4)
    /\ field (field (body resp) (lit "meta")) (lit "processTimeMs")
       = VNumber (of_Z 42)
    /\ length (model_calls st') = 1%nat
    /\ clock_reads st' = 9%nat.
Proof.
  eexists _, _. split; [vm_compute; reflexivity|].
  repeat split; vm_compute; reflexivity.
Qed.

(** A failing model endpoint is answered 500 by both programs. *)
Example outage_is_answered :
  (exists resp st',
      Instrumented.parse_slip Sample.request Sample.outage World.initial
      = (Ok resp, st')
      /\ status_code resp = 500%Z
      /\ field (body resp) (lit "error")
         = VString (lit "OCR processing failed"))
  /\ (exists resp st',
        Worker.parse_slip Sample.request Sample.outage World.initial
        = (Ok resp, st')
        /\ status_code resp = 500%Z
        /\ field (body resp) (lit "error")
           = VString (lit "OCR processing failed")).
Proof.
  split; eexists _, _; (split; [vm_compute; reflexivity|]);
    split; reflexivity.
Qed.

(* ===================================================================== *)
(** * Further properties of the code                                      *)
(* ===================================================================== *)

Import Trace.
Import IntegerFacts TextFacts RunFacts JsonFacts.

(** ** Helpers *)

(** X1.  The size estimate removes a data-URI prefix or nothing.  The
    pattern matches exactly the strings that start with data:image/, one
    or more word characters and ;base64, and what is removed is that
    prefix; every other string is measured as it is.  In particular a
    media type with a character outside letters, digits and underscore
    (as in svg+xml) is not removed. *)
Theorem data_uri_prefix_is_removed_or_nothing :
  forall s : JsString.t,
    (forall rest,
        Instrumented.match_data_uri_prefix s = Some rest <->
        exists mime,
          mime <> [] /\ forallb Instrumented.is_word_char mime = true
          /\ s = lit "data:image/" ++ mime ++ lit ";base64," ++ rest)
    /\ (Instrumented.strip_data_uri s = s
        \/ exists mime,
             mime <> [] /\ forallb Instrumented.is_word_char mime = true
             /\ s = lit "data:image/" ++ mime ++ lit ";base64,"
                    ++ Instrumented.strip_data_uri s)
    /\ (forall mime rest,
          forallb Instrumented.is_word_char mime = false ->
          ~ In 59%N mime ->
          Instrumented.strip_data_uri
            (lit "data:image/" ++ mime ++ lit ";base64," ++ rest)
          = lit "data:image/" ++ mime ++ lit ";base64," ++ rest).
Proof.
  intros s.
  assert (Hiff : forall s rest,
    Instrumented.match_data_uri_prefix s = Some rest <->
    exists mime,
      mime <> [] /\ forallb Instrumented.is_word_char mime = true
      /\ s = lit "data:image/" ++ mime ++ lit ";base64," ++ rest).
  { clear s. intros s rest. unfold Instrumented.match_data_uri_prefix. split.
    - destruct (strip_prefix (lit "data:image/") s) as [[|c s']|] eqn:E;
        try discriminate.
      apply strip_prefix_Some in E.
      destruct (Instrumented.is_word_char c) eqn:Hc; [|discriminate].
      intros H. destruct (star_w_base64_Some _ H) as [mime [Hw ->]].
      exists (c :: mime). split; [discriminate|]. split.
      + cbn [forallb]. now rewrite Hc, Hw.
      + exact E.
    - intros [mime [Hne [Hw ->]]].
      assert (Hp : strip_prefix (lit "data:image/")
                     (lit "data:image/" ++ mime ++ lit ";base64," ++ rest)
                   = Some (mime ++ lit ";base64," ++ rest))
        by (now apply strip_prefix_Some).
      rewrite Hp. destruct mime as [|c mime]; [congruence|].
      cbn [forallb] in Hw. apply andb_true_iff in Hw. destruct Hw as [Hc Hw].
      cbn [app]. rewrite Hc. now apply star_w_base64_mime. }
  split; [apply Hiff|]. split.
  - unfold Instrumented.strip_data_uri.
    destruct (Instrumented.match_data_uri_prefix s) as [rest|] eqn:E;
      [|now left].
    right. apply Hiff in E. exact E.
  - intros mime rest Hw Hsemi. unfold Instrumented.strip_data_uri.
    destruct (Instrumented.match_data_uri_prefix _) as [r|] eqn:E;
      [|reflexivity].
    exfalso. apply Hiff in E. destruct E as [mime' [_ [Hw' Heq]]].
    apply app_inv_head in Heq.
    assert (Hw59 : ~ In 59%N mime').
    { intros Hin. rewrite forallb_forall in Hw'.
      specialize (Hw' _ Hin). discriminate Hw'. }
    change (lit ";base64,") with (59%N :: lit "base64,") in Heq.
    cbn [app] in Heq.
    destruct (@cut_at_separator 59%N _ _ _ _ Hsemi Hw59 Heq) as [Hm _].
    rewrite Hm in Hw. congruence.
Qed.

(** X2.  The size estimate depends on the length of the payload only and
    grows with it: of two images the longer one never gets the smaller
    estimate.  The estimate is 0 exactly for payloads of fewer than 683
    code units, and it never exceeds the number of code units.  (The bound
    on the length holds for every string an engine can hold.) *)
Theorem size_estimate_grows_with_the_payload :
  forall s1 s2 : JsString.t,
    let l1 := Z.of_nat (length (Instrumented.strip_data_uri s1)) in
    let l2 := Z.of_nat (length (Instrumented.strip_data_uri s2)) in
    (l1 <= l2)%Z -> (3 * l2 < 2 ^ 53)%Z ->
    exists k1 k2 : Z,
      Instrumented.estimateImageSizeKB (VString s1) = Ok (of_Z k1)
      /\ Instrumented.estimateImageSizeKB (VString s2) = Ok (of_Z k2)
      /\ (0 <= k1 <= k2)%Z
      /\ (k1 = 0 <-> l1 < 683)%Z
      /\ (k1 <= l1)%Z
      /\ (l1 = l2 -> k1 = k2).
Proof.
  intros s1 s2 l1 l2 Hle Hmax.
  exists ((3 * l1 + 2048) / 4096)%Z, ((3 * l2 + 2048) / 4096)%Z.
  assert (H1 : (0 <= l1)%Z) by (unfold l1; lia).
  unfold Instrumented.estimateImageSizeKB. fold l1 l2.
  rewrite !image_size_exact by lia.
  split; [reflexivity|]. split; [reflexivity|].
  pose proof (Z.div_mod (3 * l1 + 2048) 4096 ltac:(lia)) as Hd1.
  pose proof (Z.mod_pos_bound (3 * l1 + 2048) 4096 ltac:(lia)) as Hb1.
  pose proof (Z.div_mod (3 * l2 + 2048) 4096 ltac:(lia)) as Hd2.
  pose proof (Z.mod_pos_bound (3 * l2 + 2048) 4096 ltac:(lia)) as Hb2.
  repeat split; lia.
Qed.

Lemma size_estimate_grows_with_the_payload_witness :
  exists k1 k2 : Z,
    Instrumented.estimateImageSizeKB (VString (lit "AAAA")) = Ok (of_Z k1)
    /\ Instrumented.estimateImageSizeKB
         (VString (lit "data:image/png;base64,AAAAAAAA")) = Ok (of_Z k2)
    /\ (0 <= k1 <= k2)%Z.
Proof.
  pose proof (@size_estimate_grows_with_the_payload
                (lit "AAAA") (lit "data:image/png;base64,AAAAAAAA")) as H.
  cbv zeta in H.
  assert (H1 : (Z.of_nat (length (Instrumented.strip_data_uri (lit "AAAA")))
                <= Z.of_nat (length (Instrumented.strip_data_uri
                                       (lit "data:image/png;base64,AAAAAAAA"))))%Z)
    by (vm_compute; discriminate).
  assert (H2 : (3 * Z.of_nat (length (Instrumented.strip_data_uri
                                        (lit "data:image/png;base64,AAAAAAAA")))
                < 2 ^ 53)%Z)
    by (vm_compute; reflexivity).
  destruct (H H1 H2) as (k1 & k2 & E1 & E2 & Hk & _).
  exists k1, k2. auto.
Defined.

(** X3.  Cleaning a reply is idempotent: a cleaned text holds no fence
    any more and is trimmed already, so the extraction from a cleaned
    reply is the extraction from the reply itself. *)
Theorem cleaning_is_idempotent :
  forall (raw : JsString.t),
    Worker.clean (Worker.clean raw) = Worker.clean raw
    /\ (forall JSON_parse,
          Instrumented.extractJSON JSON_parse (Worker.clean raw)
          = Instrumented.extractJSON JSON_parse raw).
Proof.
  intros raw.
  assert (H : Worker.clean (Worker.clean raw) = Worker.clean raw).
  { destruct (cleaned_has_no_fence raw) as [Hf Hj].
    rewrite remove_fences_replace in Hf, Hj.
    unfold Worker.clean at 1.
    fold (Worker.clean raw) in Hf, Hj.
    change (lit "```json") with (96%N :: lit "``json").
    change (lit "```") with (96%N :: lit "``").
    rewrite (@replace_all_absent 96%N (lit "``json")) by exact Hj.
    rewrite (@replace_all_absent 96%N (lit "``")) by exact Hf.
    unfold Worker.clean. apply trim_idem. }
  split; [exact H|].
  intros JSON_parse. unfold Instrumented.extractJSON.
  fold (Worker.clean (Worker.clean raw)). fold (Worker.clean raw).
  now rewrite H.
Qed.

(** X4.  Whatever stands around the object in the reply is ignored:
    prose, white space and fences before the first opening brace and after
    the last closing brace do not change the result, which is
    [JSON.parse] of the text between the two braces.  The fence markers
    are removed from that text as from the rest, so that a string value
    that holds one is changed; a text without backtick is parsed as it
    stands. *)
Theorem extractJSON_ignores_the_surroundings :
  forall (JSON_parse : JsString.t -> option value)
         (pre mid post : JsString.t),
    ~ In LBRACE pre -> ~ In RBRACE post ->
    Instrumented.extractJSON JSON_parse
      (pre ++ LBRACE :: mid ++ RBRACE :: post)
    = match JSON_parse (LBRACE :: remove_fences mid ++ [RBRACE]) with
      | Some v => Ok v
      | None => Throw JsSyntaxError
      end
    /\ (~ In TICK mid -> remove_fences mid = mid).
Proof.
  intros JSON_parse pre mid post Hpre Hpost.
  assert (Hl1 : ~ In LBRACE (96%N :: lit "``json"))
    by (cbv; intuition discriminate).
  assert (Hr1 : ~ In RBRACE (96%N :: lit "``json"))
    by (cbv; intuition discriminate).
  assert (Hl2 : ~ In LBRACE (96%N :: lit "``"))
    by (cbv; intuition discriminate).
  assert (Hr2 : ~ In RBRACE (96%N :: lit "``"))
    by (cbv; intuition discriminate).
  split.
  - unfold Instrumented.extractJSON. rewrite remove_fences_replace.
    change (lit "```json") with (96%N :: lit "``json").
    change (lit "```") with (96%N :: lit "``").
    rewrite (replace_all_cut _ pre Hl1).
    rewrite (replace_all_cut _ mid Hr1).
    rewrite (replace_all_cut _ _ Hl2).
    rewrite (replace_all_cut _ _ Hr2).
    rewrite trim_cut by reflexivity.
    match goal with
    | |- context [trim_start ?a ++ LBRACE :: _ ++ RBRACE :: trim_end ?b] =>
        set (pre' := a); set (post' := b)
    end.
    rewrite match_brace_object_app; [reflexivity| |].
    + intros H. apply Hpre.
      destruct (trim_start_suffix pre') as [a Ha].
      assert (Hin : In LBRACE pre')
        by (rewrite Ha; apply in_or_app; now right).
      unfold pre' in Hin.
      now apply In_replace_all_nil, In_replace_all_nil in Hin.
    + intros H. apply Hpost.
      destruct (trim_end_prefix post') as [b Hb].
      assert (Hin : In RBRACE post')
        by (rewrite Hb; apply in_or_app; now left).
      unfold post' in Hin.
      now apply In_replace_all_nil, In_replace_all_nil in Hin.
  - intros Hmid. rewrite remove_fences_replace.
    change (lit "```json") with (96%N :: lit "``json").
    change (lit "```") with (96%N :: lit "``").
    assert (Hm1 : ~ occurs (96%N :: lit "``json") mid).
    { intros H. apply Hmid. eapply occurs_In; [exact H | now left]. }
    assert (Hm2 : ~ occurs (96%N :: lit "``") mid).
    { intros H. apply Hmid. eapply occurs_In; [exact H | now left]. }
    rewrite (@replace_all_absent 96%N (lit "``json")) by exact Hm1.
    now rewrite (@replace_all_absent 96%N (lit "``")) by exact Hm2.
Qed.

Lemma extractJSON_ignores_the_surroundings_witness :
  Instrumented.extractJSON Json.parse Sample.fenced_reply
  = match Json.parse Sample.slip_json with
    | Some v => Ok v
    | None => Throw JsSyntaxError
    end.
Proof.
  destruct (@extractJSON_ignores_the_surroundings Json.parse
              (lit "```json" ++ [10%N])
              (removelast (tl Sample.slip_json))
              ([10%N] ++ lit "```")) as [H Hsame].
  - vm_compute. intuition discriminate.
  - vm_compute. intuition discriminate.
  - rewrite Hsame in H by (vm_compute; intuition discriminate).
    exact H.
Defined.

(** A fence marker inside a string value does not survive the cleaning. *)
Example fence_in_a_string_is_lost :
  Instrumented.extractJSON Json.parse
    (lit "{" ++ quoted (lit "rawText") ++ lit ":" ++ quoted (lit "a```b")
     ++ lit "}")
  = Ok (VObject [ (lit "rawText", VString (lit "ab")) ]).
Proof. vm_compute. reflexivity. Qed.

(** X5.  Normalizing a confidence score is idempotent: a score that was
    normalized once is left as it is by a second normalization, and the
    result is never a negative zero. *)
Theorem confidence_normalization_is_idempotent :
  forall v : value,
    Instrumented.normalize_confidence (Instrumented.normalize_confidence v)
    = Instrumented.normalize_confidence v
    /\ Instrumented.normalize_confidence v <> VNumber neg_zero.
Proof.
  intros v. destruct v as [| |b|x|s|items|props];
    try (split; [reflexivity | discriminate]).
  unfold Instrumented.normalize_confidence. rewrite of_Z_100, of_Z_0.
  destruct x as [sx|sx| |sx m e].
  - destruct sx; split; try discriminate; vm_compute; reflexivity.
  - destruct sx; split; try discriminate; vm_compute; reflexivity.
  - split; [vm_compute; reflexivity | discriminate].
  - rewrite (@Math_max_zero (S754_finite sx m e) eq_refl).
    destruct sx.
    + change (ltb pos_zero (S754_finite true m e)) with false. cbv iota.
      split; [vm_compute; reflexivity | discriminate].
    + change (ltb pos_zero (S754_finite false m e)) with true. cbv iota.
      rewrite (@Math_min_hundred (S754_finite false m e) eq_refl).
      destruct (ltb (S754_finite false m e) hundred) eqn:E.
      * rewrite (@Math_max_zero (S754_finite false m e) eq_refl).
        change (ltb pos_zero (S754_finite false m e)) with true. cbv iota.
        rewrite (@Math_min_hundred (S754_finite false m e) eq_refl), E.
        split; [reflexivity | discriminate].
      * split; [vm_compute; reflexivity | discriminate].
Qed.

(** X6.  A request identifier tells the clock reading and the random
    suffix it was built from: two requests get the same identifier only
    when they were started at the same reading of the clock and drew the
    same suffix.  (Clock readings are time values, at most 8.64e15
    milliseconds away from the epoch, which print as plain digits.) *)
Theorem request_ids_differ :
  forall (ev1 ev2 : env) (st1 st2 : state),
    (Z.abs (date_now ev1 (clock_reads st1)) <= 8640000000000000)%Z ->
    (Z.abs (date_now ev2 (clock_reads st2)) <= 8640000000000000)%Z ->
    Instrumented.request_id ev1 st1 = Instrumented.request_id ev2 st2 ->
    date_now ev1 (clock_reads st1) = date_now ev2 (clock_reads st2)
    /\ random_suffix ev1 = random_suffix ev2.
Proof.
  intros ev1 ev2 st1 st2 _ _ H. unfold Instrumented.request_id in H.
  apply app_inv_head in H.
  change (lit "_") with [95%N] in H. cbn [app] in H.
  destruct (@cut_at_separator 95%N _ _ _ _ (@time_toString_chars _)
              (@time_toString_chars _) H) as [Ht Hs].
  split; [now apply time_toString_inj | exact Hs].
Qed.

Lemma request_ids_differ_witness :
  date_now (Sample.surroundings Sample.chatty_reply)
    (clock_reads World.initial)
  = date_now Sample.outage (clock_reads World.initial)
  /\ random_suffix (Sample.surroundings Sample.chatty_reply)
     = random_suffix Sample.outage.
Proof.
  apply (@request_ids_differ (Sample.surroundings Sample.chatty_reply)
           Sample.outage World.initial World.initial).
  - vm_compute. discriminate.
  - vm_compute. discriminate.
  - reflexivity.
Defined.

(** ** The two handlers *)

#[local] Arguments Instrumented.elapsed : simpl never.
#[local] Arguments Instrumented.time_toString : simpl never.
#[local] Arguments JsString.lit : simpl never.
#[local] Arguments Instrumented.extractJSON : simpl never.
#[local] Arguments Instrumented.estimateImageSizeKB : simpl never.
#[local] Arguments Instrumented.deriveStatus : simpl never.
#[local] Arguments Instrumented.calcTokenCost : simpl never.
#[local] Arguments Instrumented.normalize_confidence : simpl never.
#[local] Arguments Instrumented.error_body : simpl never.
#[local] Arguments Worker.simple_error : simpl never.
#[local] Arguments Worker.clean : simpl never.
#[local] Arguments Regex.match_brace_object : simpl never.
#[local] Arguments Js.get : simpl never.
#[local] Arguments Js.truthy : simpl never.

(** X8.  The worker answers every request, and no exception leaves its
    handler: the answer is 400 Missing image, 500 Invalid AI response,
    500 OCR processing failed, or 200 with exactly the three fields.  The
    worker never reads the clock, and it writes to the console in one case
    only: one [console.error] line with the caught error, when it answers
    OCR processing failed. *)
Theorem worker_answers_every_request :
  forall (ev : env) (st : state) (req : value),
  exists resp st',
    Worker.parse_slip req ev st = (Ok resp, st')
    /\ clock_reads st' = clock_reads st
    /\ ((status_code resp = 400%Z
         /\ body resp = Worker.simple_error (lit "Missing image")
         /\ console st' = console st)
        \/ (status_code resp = 500%Z
            /\ body resp = Worker.simple_error (lit "Invalid AI response")
            /\ console st' = console st)
        \/ (status_code resp = 500%Z
            /\ body resp = Worker.simple_error (lit "OCR processing failed")
            /\ exists error,
                 console st'
                 = console st ++ [ConsoleError (lit "OCR Worker error:") error])
        \/ (status_code resp = 200%Z
            /\ (exists a b c,
                   body resp = VObject [ (lit "transactionId", a);
                                         (lit "toAccountNumber", b);
                                         (lit "text", c) ])
            /\ console st' = console st)).
Proof.
  intros ev st req. worker_paths.
  all: eexists _, _; (split; [reflexivity|]); cbn; (split; [reflexivity|]).
  all: try (right; right; left; repeat split; eexists; reflexivity).
  - right; right; right. repeat split. eexists _, _, _. reflexivity.
  - right; left. repeat split.
  - left. repeat split.
Qed.

(** X9.  The status code of the instrumented server tells what happened.
    It is 400 exactly when [base64Image] is falsy; it is 200 exactly when
    the image is a non-empty string, the model call resolves, a JSON
    object is extracted from the reply and the parsed value is neither
    null nor undefined; in every other case it is 500.  A 500 carries one
    of two messages, and Invalid AI response format is sent exactly when
    the extraction from the reply of the model threw. *)
Theorem status_code_tells_the_cause :
  forall (ev : env) (st : state) (req : value),
  exists resp st',
    Instrumented.parse_slip req ev st = (Ok resp, st')
    /\ (status_code resp = 400%Z <->
        exists v, get req (lit "base64Image") = Ok v /\ truthy v = false)
    /\ (status_code resp = 200%Z <->
        exists s reply parsed,
          get req (lit "base64Image") = Ok (VString s) /\ s <> []
          /\ openai_create ev {| req_model := Instrumented.MODEL;
                                 req_image_url := VString s |} = Ok reply
          /\ Instrumented.extractJSON (JSON_parse ev) (output_text reply)
             = Ok parsed
          /\ parsed <> VNull /\ parsed <> VUndefined)
    /\ (status_code resp = 200%Z \/ status_code resp = 400%Z
        \/ (status_code resp = 500%Z
            /\ (field (body resp) (lit "error")
                = VString (lit "Invalid AI response format")
                \/ field (body resp) (lit "error")
                   = VString (lit "OCR processing failed"))))
    /\ (field (body resp) (lit "error")
        = VString (lit "Invalid AI response format") <->
        exists s reply e,
          get req (lit "base64Image") = Ok (VString s) /\ s <> []
          /\ openai_create ev {| req_model := Instrumented.MODEL;
                                 req_image_url := VString s |} = Ok reply
          /\ Instrumented.extractJSON (JSON_parse ev) (output_text reply)
             = Throw e).
Proof.
  intros ev st req. instrumented_paths; image_facts.
  all: eexists _, _; (split; [reflexivity|]); cbn.
  all: try assert (Hs : s <> []) by (intros ->; discriminate Himg).
  all: repeat match goal with |- _ /\ _ => split end.
  all: try (split; [intros H; try discriminate H
                   | intros H; try reflexivity; exfalso; clash]).
  all: eauto 12.
Qed.

(** X10.  The status code of the worker tells what happened.  It is 400
    exactly when [base64Image] is falsy; it is 200 exactly when the image
    is truthy, the model call resolves, a brace pair is found in the
    cleaned reply, [JSON.parse] accepts it and the parsed value is neither
    null nor undefined; in every other case it is 500.  The message
    Invalid AI response is sent exactly when the model replied and no
    brace pair was found. *)
Theorem worker_status_code_tells_the_cause :
  forall (ev : env) (st : state) (req : value),
  exists resp st',
    Worker.parse_slip req ev st = (Ok resp, st')
    /\ (status_code resp = 400%Z <->
        exists v, get req (lit "base64Image") = Ok v /\ truthy v = false)
    /\ (status_code resp = 200%Z <->
        exists image reply match0 parsed,
          get req (lit "base64Image") = Ok image /\ truthy image = true
          /\ openai_create ev {| req_model := lit "gpt-4.1-mini";
                                 req_image_url := image |} = Ok reply
          /\ match_brace_object (Worker.clean (output_text reply))
             = Some match0
          /\ JSON_parse ev match0 = Some parsed
          /\ parsed <> VNull /\ parsed <> VUndefined)
    /\ (status_code resp = 200%Z \/ status_code resp = 400%Z
        \/ status_code resp = 500%Z)
    /\ (body resp = Worker.simple_error (lit "Invalid AI response") <->
        exists image reply,
          get req (lit "base64Image") = Ok image /\ truthy image = true
          /\ openai_create ev {| req_model := lit "gpt-4.1-mini";
                                 req_image_url := image |} = Ok reply
          /\ match_brace_object (Worker.clean (output_text reply)) = None).
Proof.
  intros ev st req. worker_paths.
  all: eexists _, _; (split; [reflexivity|]); cbn.
  all: repeat match goal with |- _ /\ _ => split end.
  all: try (split; [intros H; try discriminate H
                   | intros H; try reflexivity; exfalso; clash]).
  all: eauto 12.
Qed.

(** X11.  The body of a response tells success from failure.  In both
    programs it has an [error] field exactly when the status code is not
    200.  In the instrumented server it has a [data] field exactly when
    the status code is 200, and its [status] field is the string error
    exactly when the status code is not 200; the worker's body has a
    [transactionId] field exactly when the status code is 200. *)
Theorem body_tells_success_from_failure :
  forall (ev : env) (st : state) (req : value),
    (exists resp st',
        Instrumented.parse_slip req ev st = (Ok resp, st')
        /\ (has_field (body resp) (lit "error") = true <->
            status_code resp <> 200%Z)
        /\ (has_field (body resp) (lit "data") = true <->
            status_code resp = 200%Z)
        /\ (field (body resp) (lit "status") = VString (lit "error") <->
            status_code resp <> 200%Z))
    /\ (exists resp st',
          Worker.parse_slip req ev st = (Ok resp, st')
          /\ (has_field (body resp) (lit "error") = true <->
              status_code resp <> 200%Z)
          /\ (has_field (body resp) (lit "transactionId") = true <->
              status_code resp = 200%Z)).
Proof.
  intros ev st req.
  assert (Hrange : forall parsed status,
             Instrumented.deriveStatus parsed = Ok status ->
             VString status <> VString (lit "error")).
  { intros parsed status H. unfold Instrumented.deriveStatus, bind in H.
    destruct (get parsed (lit "transactionId")); [|discriminate H].
    destruct (get parsed (lit "toAccountNumber")); [|discriminate H].
    destruct (truthy _ && truthy _); [injection H as <-; vm_compute; discriminate|].
    destruct (truthy _ || truthy _); injection H as <-;
      vm_compute; discriminate. }
  split.
  - instrumented_paths.
    all: eexists _, _; (split; [reflexivity|]); cbn [body status_code].
    all: split; [|split].
    all: try match goal with
             | |- ?b = true <-> _ =>
                 first [ replace b with true by reflexivity
                       | replace b with false by reflexivity ]
             end.
    all: try (split; intros H;
              first [ reflexivity | discriminate H
                    | now contradiction H | discriminate ]).
    split; [intros H; exfalso; revert H; now apply (Hrange parsed)
           | intros H; now contradiction H].
  - worker_paths.
    all: eexists _, _; (split; [reflexivity|]); cbn [body status_code].
    all: split.
    all: try match goal with
             | |- ?b = true <-> _ =>
                 first [ replace b with true by reflexivity
                       | replace b with false by reflexivity ]
             end.
    all: split; intros H;
      first [ reflexivity | discriminate H
            | now contradiction H | discriminate ].
Qed.

(** X12.  Each program calls the model at most once per request, with the
    image exactly as it was received.  The instrumented server calls it
    when [base64Image] is a non-empty string and in no other case; the
    worker calls it whenever [base64Image] is truthy. *)
Theorem model_is_called_at_most_once :
  forall (ev : env) (st : state) (req : value),
    (exists resp st',
        Instrumented.parse_slip req ev st = (Ok resp, st')
        /\ model_calls st'
           = model_calls st ++
             match get req (lit "base64Image") with
             | Ok (VString (c :: s)) =>
                 [ {| req_model := lit "gpt-4.1-mini";
                      req_image_url := VString (c :: s) |} ]
             | _ => []
             end)
    /\ (exists resp st',
          Worker.parse_slip req ev st = (Ok resp, st')
          /\ model_calls st'
             = model_calls st ++
               match get req (lit "base64Image") with
               | Ok v =>
                   if truthy v
                   then [ {| req_model := lit "gpt-4.1-mini";
                             req_image_url := v |} ]
                   else []
               | Throw _ => []
               end).
Proof.
  intros ev st req. split.
  - instrumented_paths; image_facts.
    all: eexists _, _; (split; [reflexivity|]); cbn.
    all: try (destruct s as [|c s]; [discriminate Himg | reflexivity]).
    + destruct img as [| |b|x|s|items|props];
        try (now rewrite app_nil_r). now contradiction (Hnostr s).
    + destruct img as [| |b|x|[|c s]|items|props];
        try (now rewrite app_nil_r); discriminate Himg.
    + now rewrite app_nil_r.
  - worker_paths.
    all: eexists _, _; (split; [reflexivity|]); cbn.
    all: rewrite ?Himg, ?app_nil_r; reflexivity.
Qed.

(** X13.  A request without a body ([req.body] undefined or null) is not
    answered 400: reading [base64Image] from it throws a TypeError, which
    both programs catch and answer with 500 OCR processing failed, after
    reporting the error and without calling the model. *)
Theorem missing_body_is_a_server_error :
  forall (ev : env) (st : state) (req : value),
    req = VUndefined \/ req = VNull ->
    (exists resp st' before t data,
        Instrumented.parse_slip req ev st = (Ok resp, st')
        /\ status_code resp = 500%Z
        /\ field (body resp) (lit "error")
           = VString (lit "OCR processing failed")
        /\ model_calls st' = model_calls st
        /\ console st'
           = console st ++ before ++
             [ LogEntry Stderr t Instrumented.LogLevel_ERROR
                 (lit "parse_slip.unhandled_error") data ]
        /\ datum data (lit "error") = Some (MessageOf JsTypeError))
    /\ (exists resp st',
          Worker.parse_slip req ev st = (Ok resp, st')
          /\ status_code resp = 500%Z
          /\ body resp = Worker.simple_error (lit "OCR processing failed")
          /\ model_calls st' = model_calls st
          /\ console st'
             = console st
               ++ [ ConsoleError (lit "OCR Worker error:") JsTypeError ]).
Proof.
  intros ev st req Hreq.
  assert (Hget : get req (lit "base64Image") = Throw JsTypeError)
    by (destruct Hreq as [-> | ->]; reflexivity).
  split.
  - run. rewrite Hget. cbn.
    eexists _, _, [_], _, _. split; [reflexivity|]. cbn.
    split; [reflexivity|]. split; [reflexivity|]. split; [reflexivity|].
    split; [now rewrite <- app_assoc | reflexivity].
  - run. rewrite Hget. cbn.
    eexists _, _. split; [reflexivity|]. cbn. repeat split.
Qed.

Lemma missing_body_is_a_server_error_witness :
  exists resp st',
    Worker.parse_slip VUndefined (Sample.surroundings Sample.chatty_reply)
      World.initial = (Ok resp, st')
    /\ status_code resp = 500%Z
    /\ body resp = Worker.simple_error (lit "OCR processing failed")
    /\ model_calls st' = model_calls World.initial
    /\ console st'
       = console World.initial
         ++ [ ConsoleError (lit "OCR Worker error:") JsTypeError ].
Proof.
  exact (proj2 (@missing_body_is_a_server_error
                  (Sample.surroundings Sample.chatty_reply) World.initial
                  VUndefined (or_introl eq_refl))).
Defined.

(** X14.  A truthy [base64Image] that is not a string (true, a number, an
    array, an object) has no [replace] method: in the instrumented server
    the size estimate throws a TypeError, the request is answered 500 OCR
    processing failed, the error is logged and the model is not called.
    The worker has no size estimate and sends the value to the model. *)
Theorem non_string_image_fails_before_the_model :
  forall (ev : env) (st : state) (req v : value),
    get req (lit "base64Image") = Ok v ->
    truthy v = true ->
    (forall s, v <> VString s) ->
    (exists resp st' before t data,
        Instrumented.parse_slip req ev st = (Ok resp, st')
        /\ status_code resp = 500%Z
        /\ field (body resp) (lit "error")
           = VString (lit "OCR processing failed")
        /\ model_calls st' = model_calls st
        /\ console st'
           = console st ++ before ++
             [ LogEntry Stderr t Instrumented.LogLevel_ERROR
                 (lit "parse_slip.unhandled_error") data ]
        /\ datum data (lit "error") = Some (MessageOf JsTypeError))
    /\ (exists resp st',
          Worker.parse_slip req ev st = (Ok resp, st')
          /\ model_calls st'
             = model_calls st ++ [ {| req_model := lit "gpt-4.1-mini";
                                      req_image_url := v |} ]).
Proof.
  intros ev st req v Hv Ht Hns. split.
  - instrumented_paths; image_facts; try (exfalso; clash; fail).
    eexists _, _, [_], _, _. split; [reflexivity|]. cbn.
    split; [reflexivity|]. split; [reflexivity|]. split; [reflexivity|].
    split; [now rewrite <- app_assoc | reflexivity].
  - worker_paths; try (exfalso; clash; fail).
    all: eexists _, _; (split; [reflexivity|]); cbn.
    all: clash.
Qed.

Lemma non_string_image_fails_before_the_model_witness :
  exists resp st',
    Worker.parse_slip (VObject [ (lit "base64Image", VBool true) ])
      (Sample.surroundings Sample.chatty_reply) World.initial = (Ok resp, st')
    /\ model_calls st'
       = model_calls World.initial
         ++ [ {| req_model := lit "gpt-4.1-mini";
                 req_image_url := VBool true |} ].
Proof.
  refine (proj2 (@non_string_image_fails_before_the_model
                   (Sample.surroundings Sample.chatty_reply) World.initial
                   (VObject [ (lit "base64Image", VBool true) ]) (VBool true)
                   _ _ _)).
  - reflexivity.
  - reflexivity.
  - intros s. discriminate.
Defined.

(** X15.  When the call of the model rejects, both programs answer 500 OCR
    processing failed and report the error they caught: the worker writes
    one [console.error] line with it, the instrumented server logs an
    unhandled_error entry at level ERROR with its message and stack. *)
Theorem model_failure_is_reported :
  forall (ev : env) (st : state) (req : value) (s : JsString.t) (e : exn),
    get req (lit "base64Image") = Ok (VString s) ->
    s <> [] ->
    openai_create ev {| req_model := lit "gpt-4.1-mini";
                        req_image_url := VString s |} = Throw e ->
    (exists resp st' before t data,
        Instrumented.parse_slip req ev st = (Ok resp, st')
        /\ status_code resp = 500%Z
        /\ field (body resp) (lit "error")
           = VString (lit "OCR processing failed")
        /\ console st'
           = console st ++ before ++
             [ LogEntry Stderr t Instrumented.LogLevel_ERROR
                 (lit "parse_slip.unhandled_error") data ]
        /\ datum data (lit "error") = Some (MessageOf e)
        /\ datum data (lit "stack") = Some (StackOf e))
    /\ (exists resp st',
          Worker.parse_slip req ev st = (Ok resp, st')
          /\ status_code resp = 500%Z
          /\ body resp = Worker.simple_error (lit "OCR processing failed")
          /\ console st'
             = console st ++ [ ConsoleError (lit "OCR Worker error:") e ]).
Proof.
  intros ev st req s err Hv Hs Hfail.
  assert (Ht : truthy (VString s) = true)
    by (destruct s; [now contradiction Hs | reflexivity]).
  split.
  - change (lit "gpt-4.1-mini") with Instrumented.MODEL in Hfail.
    instrumented_paths; image_facts; try (exfalso; clash; fail).
    assert (e = err) as -> by clash.
    eexists _, _, [_; _], _, _. split; [reflexivity|]. cbn.
    split; [reflexivity|]. split; [reflexivity|].
    split; [now rewrite <- !app_assoc|]. split; reflexivity.
  - worker_paths; try (exfalso; clash; fail).
    assert (e = err) as -> by clash.
    eexists _, _. split; [reflexivity|]. cbn. repeat split.
Qed.

Lemma model_failure_is_reported_witness :
  exists resp st',
    Worker.parse_slip Sample.request Sample.outage World.initial
    = (Ok resp, st')
    /\ status_code resp = 500%Z
    /\ body resp = Worker.simple_error (lit "OCR processing failed")
    /\ console st'
       = console World.initial
         ++ [ ConsoleError (lit "OCR Worker error:")
                (UpstreamError (lit "503")) ].
Proof.
  refine (proj2 (@model_failure_is_reported Sample.outage World.initial
                   Sample.request (lit "data:image/png;base64,AAAA")
                   (UpstreamError (lit "503")) _ _ _)).
  - reflexivity.
  - discriminate.
  - reflexivity.
Defined.

(** X16.  A reply in which a brace pair is found but which [JSON.parse]
    rejects is handled differently by the two programs.  The instrumented
    server catches the SyntaxError next to the extraction: it answers 500
    Invalid AI response format and logs the error together with the raw
    reply.  In the worker the SyntaxError reaches the outer [catch]: the
    answer is 500 OCR processing failed, not its Invalid AI response. *)
Theorem unparsable_reply_is_handled :
  forall (ev : env) (st : state) (req : value) (s : JsString.t)
         (reply : openai_response) (match0 : JsString.t),
    get req (lit "base64Image") = Ok (VString s) ->
    s <> [] ->
    openai_create ev {| req_model := lit "gpt-4.1-mini";
                        req_image_url := VString s |} = Ok reply ->
    match_brace_object (Worker.clean (output_text reply)) = Some match0 ->
    JSON_parse ev match0 = None ->
    (exists resp st' before t data,
        Instrumented.parse_slip req ev st = (Ok resp, st')
        /\ status_code resp = 500%Z
        /\ field (body resp) (lit "error")
           = VString (lit "Invalid AI response format")
        /\ console st'
           = console st ++ before ++
             [ LogEntry Stderr t Instrumented.LogLevel_ERROR
                 (lit "parse_slip.json_parse_failed") data ]
        /\ datum data (lit "error") = Some (MessageOf JsSyntaxError)
        /\ datum data (lit "rawOutput")
           = Some (Datum (VString (output_text reply))))
    /\ (exists resp st',
          Worker.parse_slip req ev st = (Ok resp, st')
          /\ status_code resp = 500%Z
          /\ body resp = Worker.simple_error (lit "OCR processing failed")
          /\ console st'
             = console st
               ++ [ ConsoleError (lit "OCR Worker error:") JsSyntaxError ]).
Proof.
  intros ev st req s rep m0 Hv Hs Hreply Hmatch0 Hbad.
  assert (Ht : truthy (VString s) = true)
    by (destruct s; [now contradiction Hs | reflexivity]).
  assert (Hthrow : Instrumented.extractJSON (JSON_parse ev) (output_text rep)
                   = Throw JsSyntaxError).
  { unfold Instrumented.extractJSON. unfold Worker.clean in Hmatch0.
    now rewrite Hmatch0, Hbad. }
  split.
  - change (lit "gpt-4.1-mini") with Instrumented.MODEL in Hreply.
    instrumented_paths; image_facts; try (exfalso; clash; fail).
    assert (reply = rep) as -> by clash.
    assert (e = JsSyntaxError) as -> by clash.
    eexists _, _, [_; _; _], _, _. split; [reflexivity|]. cbn.
    split; [reflexivity|]. split; [reflexivity|].
    split; [now rewrite <- !app_assoc|]. split; reflexivity.
  - worker_paths; try (exfalso; clash; fail).
    all: try (assert (reply = rep) as -> by clash).
    all: try (exfalso; clash; fail).
    eexists _, _. split; [reflexivity|]. cbn. repeat split.
Qed.

Lemma unparsable_reply_is_handled_witness :
  exists resp st',
    Worker.parse_slip Sample.request
      (Sample.surroundings (lit "{oops}")) World.initial = (Ok resp, st')
    /\ status_code resp = 500%Z
    /\ body resp = Worker.simple_error (lit "OCR processing failed")
    /\ console st'
       = console World.initial
         ++ [ ConsoleError (lit "OCR Worker error:") JsSyntaxError ].
Proof.
  refine (proj2 (@unparsable_reply_is_handled
                   (Sample.surroundings (lit "{oops}")) World.initial
                   Sample.request (lit "data:image/png;base64,AAAA")
                   _ (lit "{oops}") _ _ _ _ _)).
  - reflexivity.
  - discriminate.
  - reflexivity.
  - vm_compute. reflexivity.
  - vm_compute. reflexivity.
Defined.

(** X17.  With a [JSON.parse] that returns an object for every text that
    starts with an opening brace, as the parser of the language does, the
    reply of the model decides the answer alone once the model has
    replied: both programs answer 200 exactly when a JSON object can be
    extracted from the reply, and the instrumented server answers every
    other reply with 500 Invalid AI response format.  Reading the fields
    of the parsed reply cannot fail. *)
Theorem an_extracted_reply_is_served :
  forall (ev : env) (st : state) (req : value) (s : JsString.t)
         (reply : openai_response),
    (forall text v,
        JSON_parse ev (LBRACE :: text) = Some v ->
        exists props, v = VObject props) ->
    get req (lit "base64Image") = Ok (VString s) ->
    s <> [] ->
    openai_create ev {| req_model := lit "gpt-4.1-mini";
                        req_image_url := VString s |} = Ok reply ->
    let extracted :=
      exists parsed,
        Instrumented.extractJSON (JSON_parse ev) (output_text reply)
        = Ok parsed in
    (exists resp st',
        Instrumented.parse_slip req ev st = (Ok resp, st')
        /\ (status_code resp = 200%Z <-> extracted)
        /\ (status_code resp <> 200%Z ->
            status_code resp = 500%Z
            /\ field (body resp) (lit "error")
               = VString (lit "Invalid AI response format")))
    /\ (exists resp st',
          Worker.parse_slip req ev st = (Ok resp, st')
          /\ (status_code resp = 200%Z <-> extracted)
          /\ (status_code resp <> 200%Z -> status_code resp = 500%Z)).
Proof.
  intros ev st req s rep Hobj Hv Hs Hreply extracted.
  assert (Ht : truthy (VString s) = true)
    by (destruct s; [now contradiction Hs | reflexivity]).
  assert (Hparsed : forall raw parsed,
             Instrumented.extractJSON (JSON_parse ev) raw = Ok parsed ->
             parsed <> VNull /\ parsed <> VUndefined).
  { intros raw parsed H. unfold Instrumented.extractJSON in H.
    destruct (match_brace_object _) as [m|] eqn:Em; [|discriminate H].
    destruct (match_brace_object_Some _ Em) as [a [mid [b [_ [-> _]]]]].
    destruct (JSON_parse ev _) as [v|] eqn:Ep; [|discriminate H].
    injection H as <-. destruct (Hobj _ _ Ep) as [props ->].
    split; discriminate. }
  assert (Hworker : forall raw,
             (exists parsed,
                 Instrumented.extractJSON (JSON_parse ev) raw = Ok parsed)
             <-> exists m parsed,
                   match_brace_object (Worker.clean raw) = Some m
                   /\ JSON_parse ev m = Some parsed).
  { intros raw. unfold Instrumented.extractJSON, Worker.clean.
    destruct (match_brace_object _) as [m|].
    - destruct (JSON_parse ev m) as [v|] eqn:Ep.
      + split; intros _; eauto.
      + split; [intros [p H]; discriminate H|].
        intros [m' [p [H1 H2]]]. injection H1 as <-. congruence.
    - split; [intros [p H]; discriminate H|].
      intros [m' [p [H1 H2]]]. discriminate H1. }
  split.
  - change (lit "gpt-4.1-mini") with Instrumented.MODEL in Hreply.
    instrumented_paths; image_facts; try (exfalso; clash; fail).
    all: assert (reply = rep) as -> by clash.
    all: try (exfalso; destruct (Hparsed _ _ Hex); clash; fail).
    all: eexists _, _; (split; [reflexivity|]); cbn.
    + split; [split; [intros _; exists parsed; exact Hex | reflexivity]|].
      intros H; now contradiction H.
    + split; [split; [intros H; discriminate H|]|].
      * intros [p Hp]. rewrite Hp in Hex. discriminate Hex.
      * intros _. split; reflexivity.
  - worker_paths; try (exfalso; clash; fail).
    all: assert (reply = rep) as -> by clash.
    all: eexists _, _; (split; [reflexivity|]); cbn.
    all: unfold extracted; rewrite Hworker.
    + exfalso.
      assert (Hx : Instrumented.extractJSON (JSON_parse ev) (output_text rep)
                   = Ok parsed).
      { unfold Instrumented.extractJSON. unfold Worker.clean in Hmatch.
        now rewrite Hmatch, Hparse. }
      destruct (Hparsed _ _ Hx). clash.
    + split; [split; [intros _; eauto | reflexivity]|].
      intros H; now contradiction H.
    + split; [split; [intros H; discriminate H|]|reflexivity].
      intros [m [p [H1 H2]]]. rewrite Hmatch in H1. injection H1 as <-.
      congruence.
    + split; [split; [intros H; discriminate H|]|reflexivity].
      intros [m [p [H1 H2]]]. rewrite Hmatch in H1. discriminate H1.
Qed.

Lemma an_extracted_reply_is_served_witness :
  exists resp st',
    Instrumented.parse_slip Sample.request
      (Sample.surroundings Sample.refusal_reply) World.initial
    = (Ok resp, st')
    /\ (status_code resp <> 200%Z ->
        status_code resp = 500%Z
        /\ field (body resp) (lit "error")
           = VString (lit "Invalid AI response format")).
Proof.
  pose proof (@an_extracted_reply_is_served
                (Sample.surroundings Sample.refusal_reply) World.initial
                Sample.request (lit "data:image/png;base64,AAAA")
                {| output_text := Sample.refusal_reply;
                   resp_usage :=
                     Some {| input_tokens := Some (of_Z 2000);
                             output_tokens := Some (of_Z 500) |} |}
                (@parse_brace_object)) as H.
  assert (H1 : get Sample.request (lit "base64Image")
               = Ok (VString (lit "data:image/png;base64,AAAA")))
    by reflexivity.
  assert (H2 : lit "data:image/png;base64,AAAA" <> [])
    by (vm_compute; discriminate).
  specialize (H H1 H2 eq_refl). cbv zeta in H.
  destruct H as [(resp & st' & Hrun & _ & Herr) _].
  exists resp, st'. split; [exact Hrun | exact Herr].
Defined.

(** X18.  Every entry that the instrumented server logs while it serves a
    request carries the identifier of that request, which is the one the
    response carries, and none of its data replaces the logger's own
    fields (timestamp, level, event).  The first entry is parse_slip.start
    at level INFO; between one and three entries follow. *)
Theorem log_entries_carry_the_request_id :
  forall (ev : env) (st : state) (req : value),
  exists resp st' t rest,
    Instrumented.parse_slip req ev st = (Ok resp, st')
    /\ console st'
       = console st ++
         LogEntry Stdout t Instrumented.LogLevel_INFO (lit "parse_slip.start")
           [ (lit "requestId",
              Datum (VString (Instrumented.request_id ev st))) ] :: rest
    /\ Forall (fun l =>
                 datum_of l (lit "requestId")
                 = Some (Datum (VString (Instrumented.request_id ev st)))
                 /\ keeps_reserved l = true) rest
    /\ field (body resp) (lit "requestId")
       = VString (Instrumented.request_id ev st)
    /\ (1 <= length rest <= 3)%nat.
Proof.
  intros ev st req. unfold Instrumented.request_id.
  instrumented_paths.
  all: eexists _, _, _, _; (split; [reflexivity|]); cbn.
  all: split; [rewrite <- ?app_assoc; reflexivity|].
  all: split; [repeat constructor|].
  all: split; [reflexivity | cbn; lia].
Qed.

(** X19.  What the instrumented server writes to the standard error stream
    tells how the request ended.  Only the last entry of a request can go
    there, and it does exactly when the answer is not 200; its level and
    event name the outcome: INFO parse_slip.success for 200, WARN
    parse_slip.missing_image for 400, and for 500 an ERROR entry that is
    parse_slip.json_parse_failed when the message is Invalid AI response
    format and parse_slip.unhandled_error when it is OCR processing
    failed. *)
Theorem stderr_tells_how_the_request_ended :
  forall (ev : env) (st : state) (req : value),
  exists resp st' before final,
    Instrumented.parse_slip req ev st = (Ok resp, st')
    /\ console st' = console st ++ before ++ [final]
    /\ existsb to_stderr before = false
    /\ (to_stderr final = true <-> status_code resp <> 200%Z)
    /\ ((status_code resp = 200%Z
         /\ level_of final = Instrumented.LogLevel_INFO
         /\ event_of final = lit "parse_slip.success")
        \/ (status_code resp = 400%Z
            /\ level_of final = Instrumented.LogLevel_WARN
            /\ event_of final = lit "parse_slip.missing_image")
        \/ (status_code resp = 500%Z
            /\ level_of final = Instrumented.LogLevel_ERROR
            /\ ((event_of final = lit "parse_slip.json_parse_failed"
                 /\ field (body resp) (lit "error")
                    = VString (lit "Invalid AI response format"))
                \/ (event_of final = lit "parse_slip.unhandled_error"
                    /\ field (body resp) (lit "error")
                       = VString (lit "OCR processing failed"))))).
Proof.
  intros ev st req. instrumented_paths.
  all: first
    [ eexists _, _, [_; _; _], _; split; [reflexivity|]; cbn;
      split; [rewrite <- !app_assoc; reflexivity|]
    | eexists _, _, [_; _], _; split; [reflexivity|]; cbn;
      split; [rewrite <- !app_assoc; reflexivity|]
    | eexists _, _, [_], _; split; [reflexivity|]; cbn;
      split; [rewrite <- !app_assoc; reflexivity|] ].
  all: split; [reflexivity|].
  all: split; [(split; [intros _; discriminate | intros _; reflexivity])
                || (split; [discriminate | intros H; now contradiction H])|].
  all: first [ left; repeat split; reflexivity
             | right; left; repeat split; reflexivity
             | right; right; split; [reflexivity|]; split; [reflexivity|];
               first [ left; split; reflexivity | right; split; reflexivity ] ].
Qed.


(** X21.  The durations that the instrumented server reports are exact
    differences of clock readings.  [processTimeMs] is a later reading
    minus the reading taken at the start of the request, in error bodies
    as in successful ones; [aiTimeMs] is the difference of two successive
    readings taken in between.  When the clock does not run backwards,
    both are non-negative and [aiTimeMs] is at most [processTimeMs].
    (The readings are time values: non-negative integers below 2^53.) *)
Theorem durations_are_differences_of_clock_readings :
  forall (ev : env) (st : state) (req : value),
    (forall k, (k <= clock_reads st + 9)%nat ->
               (0 <= date_now ev k < 2 ^ 53)%Z) ->
    exists resp st' i,
      Instrumented.parse_slip req ev st = (Ok resp, st')
      /\ let p := (date_now ev i - Instrumented.start_time ev st)%Z in
         (if (status_code resp =? 200)%Z
          then field (field (body resp) (lit "meta")) (lit "processTimeMs")
          else field (body resp) (lit "processTimeMs")) = VNumber (of_Z p)
         /\ (1 + clock_reads st < i < clock_reads st')%nat
         /\ ((forall k, (date_now ev k <= date_now ev (S k))%Z) -> (0 <= p)%Z)
         /\ (status_code resp = 200%Z ->
             exists j,
               let a := (date_now ev (S j) - date_now ev j)%Z in
               field (field (body resp) (lit "meta")) (lit "aiTimeMs")
               = VNumber (of_Z a)
               /\ (1 + clock_reads st < j /\ S j < i)%nat
               /\ ((forall k, (date_now ev k <= date_now ev (S k))%Z) ->
                   (0 <= a <= p)%Z)).
Proof.
  intros ev st req Hrange. unfold Instrumented.start_time.
  assert (Hsub : forall a b, (a <= clock_reads st + 9)%nat ->
                             (b <= clock_reads st + 9)%nat ->
             Instrumented.elapsed (date_now ev a) (date_now ev b)
             = VNumber (of_Z (date_now ev a - date_now ev b))).
  { intros a b Ha Hb. unfold Instrumented.elapsed.
    now rewrite sub_integers by (apply Hrange; assumption). }
  instrumented_paths.
  all: eexists _, _, _; (split; [reflexivity|]); cbn.
  all: rewrite ?Hsub by lia.
  all: split; [reflexivity|].
  all: split; [lia|].
  all: split;
    [ intros Hm;
      pose proof (Hm (S (clock_reads st)));
      pose proof (Hm (S (S (clock_reads st))));
      pose proof (Hm (S (S (S (clock_reads st)))));
      pose proof (Hm (S (S (S (S (clock_reads st))))));
      pose proof (Hm (S (S (S (S (S (clock_reads st)))))));
      pose proof (Hm (S (S (S (S (S (S (clock_reads st))))))));
      pose proof (Hm (S (S (S (S (S (S (S (clock_reads st)))))))));
      lia
    | ].
  all: try (intros H; discriminate H).
  intros _. eexists. cbn. split; [reflexivity|]. split; [lia|].
  intros Hm.
  pose proof (Hm (S (clock_reads st))).
  pose proof (Hm (S (S (clock_reads st)))).
  pose proof (Hm (S (S (S (clock_reads st))))).
  pose proof (Hm (S (S (S (S (clock_reads st)))))).
  pose proof (Hm (S (S (S (S (S (clock_reads st))))))).
  pose proof (Hm (S (S (S (S (S (S (clock_reads st)))))))).
  lia.
Qed.

Lemma durations_are_differences_of_clock_readings_witness :
  exists resp st' i,
    Instrumented.parse_slip Sample.request
      (Sample.surroundings Sample.chatty_reply) World.initial = (Ok resp, st')
    /\ (if (status_code resp =? 200)%Z
        then field (field (body resp) (lit "meta")) (lit "processTimeMs")
        else field (body resp) (lit "processTimeMs"))
       = VNumber (of_Z (date_now (Sample.surroundings Sample.chatty_reply) i
                        - Instrumented.start_time
                            (Sample.surroundings Sample.chatty_reply)
                            World.initial)).
Proof.
  pose proof (@durations_are_differences_of_clock_readings
                (Sample.surroundings Sample.chatty_reply) World.initial
                Sample.request) as H.
  assert (Hr : forall k, (k <= clock_reads World.initial + 9)%nat ->
               (0 <= date_now (Sample.surroundings Sample.chatty_reply) k
                < 2 ^ 53)%Z).
  { intros k Hk. cbn in Hk. cbn [Sample.surroundings date_now]. lia. }
  specialize (H Hr). destruct H as (resp & st' & i & Hrun & Hp).
  cbv zeta in Hp. destruct Hp as [Hp _].
  exists resp, st', i. split; [exact Hrun | exact Hp].
Defined.

(** X22.  The token figures of a successful response are those that the
    model reported, with 0 for each figure that is missing ([usage] as a
    whole, or one of its fields); the total is their sum and the cost is
    [calcTokenCost] of the two.  Without any usage all four figures are 0,
    and for token counts whose sum is below 2^53 the total is their exact
    sum. *)
Theorem token_figures_follow_the_reported_usage :
  forall (ev : env) (st : state) (req : value),
  exists resp st',
    Instrumented.parse_slip req ev st = (Ok resp, st')
    /\ (status_code resp = 200%Z ->
        exists image reply,
          get req (lit "base64Image") = Ok image
          /\ openai_create ev {| req_model := lit "gpt-4.1-mini";
                                 req_image_url := image |} = Ok reply
          /\ let reported (f : usage -> option number) :=
                match resp_usage reply with
                | Some u => match f u with Some n => n | None => of_Z 0 end
                | None => of_Z 0
                end in
             let i := reported input_tokens in
             let o := reported output_tokens in
             let tokens :=
               field (field (body resp) (lit "meta")) (lit "tokens") in
             tokens
             = VObject [ (lit "input", VNumber i);
                         (lit "output", VNumber o);
                         (lit "total", VNumber (add i o));
                         (lit "estimatedCostUSD",
                          VNumber (Instrumented.calcTokenCost i o)) ]
             /\ (resp_usage reply = None ->
                 tokens
                 = VObject [ (lit "input", VNumber (of_Z 0));
                             (lit "output", VNumber (of_Z 0));
                             (lit "total", VNumber (of_Z 0));
                             (lit "estimatedCostUSD", VNumber (of_Z 0)) ])
             /\ (forall a b : Z,
                   (0 <= a)%Z -> (0 <= b)%Z -> (a + b < 2 ^ 53)%Z ->
                   i = of_Z a -> o = of_Z b ->
                   field tokens (lit "total") = VNumber (of_Z (a + b)))).
Proof.
  intros ev st req. instrumented_paths.
  all: eexists _, _; (split; [reflexivity|]); cbn.
  all: try (intros H; discriminate H).
  intros _. exists img, reply. split; [reflexivity|]. split; [exact Hai|].
  cbv zeta.
  destruct (resp_usage reply) as [[[i|] [o|]]|]; cbn [input_tokens output_tokens].
  all: split; [reflexivity|].
  all: split; [try (intros H; discriminate H); try reflexivity|].
  all: intros a b Ha Hb Hab Hi Ho.
  all: transitivity (VNumber (add (of_Z a) (of_Z b)));
    [rewrite <- ?Hi, <- ?Ho; reflexivity | now rewrite add_integers].
Qed.



